(** * A shallow embedding of the media-processing job pipeline

    The development follows the Python sources:
    - [audio_processor.py] and [video_processor.py]: the pipeline executors
      and their operation registries,
    - [storage_service.py]: the remote and local storage services and the
      manager that selects between them,
    - [ai_services.py]: transcription, translation, synthesis and the
      workflow that chains them.

    Python code is embedded as functions of a state-and-exception monad.
    External collaborators (the file system, SoX, FFmpeg, the object store,
    the speech and translation back ends) are the fields of a [Host]
    structure, so every statement holds for every behaviour of the
    collaborators. *)

From Stdlib Require Import String Ascii ZArith List Lia Floats.PrimFloat.
From stdpp Require Import base option list strings pretty gmap.

Set Warnings "-register-all,-inexact-float".

Local Open Scope string_scope.
Local Open Scope nat_scope.
Local Open Scope list_scope.
Local Open Scope stdpp_scope.

(* ===================================================================== *)
(** * Python values, strings and exceptions *)
(* ===================================================================== *)

Module Py.

(** Python objects that travel through the modelled code: parameter
    dictionaries, probe documents, result dictionaries.  A [str] is the
    sequence of bytes of its UTF-8 encoding. *)
Inductive pyval : Type :=
  | PNone
  | PBool (b : bool)
  | PInt (z : Z)
  | PFloat (f : PrimFloat.float)
  | PStr (s : string)
  | PList (l : list pyval)
  | PDict (d : gmap string pyval).

(** A [Dict[str, Any]]. *)
Abbreviation dict := (gmap string pyval).

(** The exception classes the sources raise or discriminate on; every one
    of them derives from [Exception]. *)
Inductive exn_class : Type :=
  | Exception_
  | FileNotFoundError
  | OSError
  | CalledProcessError
  | UnicodeDecodeError
  | KeyError
  | IndexError
  | TypeError
  | AttributeError
  | ValueError
  | FfmpegError
  | NoCredentialsError
  | ClientError.

Definition exn_class_eqb (a b : exn_class) : bool :=
  match a, b with
  | Exception_, Exception_ | FileNotFoundError, FileNotFoundError
  | OSError, OSError | CalledProcessError, CalledProcessError
  | UnicodeDecodeError, UnicodeDecodeError | KeyError, KeyError
  | IndexError, IndexError
  | TypeError, TypeError | AttributeError, AttributeError
  | ValueError, ValueError | FfmpegError, FfmpegError
  | NoCredentialsError, NoCredentialsError | ClientError, ClientError => true
  | _, _ => false
  end.

(** An exception object: its class, [str(e)], and, for
    [CalledProcessError], the captured [e.stderr] bytes. *)
Record exn : Type := mk_exn {
  exn_cls : exn_class;
  exn_msg : string;
  exn_stderr : string
}.

Definition new_exn (c : exn_class) (msg : string) : exn :=
  {| exn_cls := c; exn_msg := msg; exn_stderr := EmptyString |}.

(** [isinstance(e, c)] for the [except c] clauses of the sources;
    [except Exception] is written out as the catch-all it is. *)
Definition isinstance (e : exn) (c : exn_class) : bool :=
  exn_class_eqb (exn_cls e) c.

(** The result of evaluating a Python expression or call. *)
Inductive outcome (A : Type) : Type :=
  | Ret (a : A)
  | Raise (e : exn).
Arguments Ret {A} a.
Arguments Raise {A} e.

Definition obind {A B} (o : outcome A) (k : A -> outcome B) : outcome B :=
  match o with
  | Ret a => k a
  | Raise e => Raise e
  end.

(** ** Strings *)

Definition startswith (s p : string) : bool := String.prefix p s.

Definition endswith (s p : string) : bool :=
  String.prefix (String.rev p) (String.rev s).

(** [s.replace(old, new)] for a non-empty [old]: every non-overlapping
    occurrence, left to right.  [skip] counts the characters of a matched
    occurrence still to be dropped. *)
Fixpoint replace_go (old new s : string) (skip : nat) : string :=
  match s with
  | EmptyString => EmptyString
  | String c s' =>
      match skip with
      | S k => replace_go old new s' k
      | O =>
          if String.prefix old s
          then new +:+ replace_go old new s' (String.length old - 1)
          else String c (replace_go old new s' 0)
      end
  end.

Definition str_replace (s old new : string) : string := replace_go old new s 0.

(** [os.path.join(a, b)] of [posixpath]. *)
Definition os_path_join (a b : string) : string :=
  if startswith b "/" then b
  else if String.eqb a EmptyString || endswith a "/" then a +:+ b
  else a +:+ "/" +:+ b.

(** Python's [str.isspace] on the ASCII range, for [str.strip()]. *)
Definition py_isspace (c : ascii) : bool :=
  let n := nat_of_ascii c in
  ((9 <=? n) && (n <=? 13)) || ((28 <=? n) && (n <=? 32)).

Fixpoint lstrip (s : string) : string :=
  match s with
  | EmptyString => EmptyString
  | String c s' => if py_isspace c then lstrip s' else s
  end.

Definition strip (s : string) : string :=
  String.rev (lstrip (String.rev (lstrip s))).

(** [bytes.decode()] (UTF-8, strict).  [need] continuation bytes are still
    expected, the next of them within [lo..hi]. *)
Fixpoint utf8_ok (need lo hi : nat) (bs : list nat) : bool :=
  match bs with
  | [] => need =? 0
  | b :: bs' =>
      match need with
      | O =>
          if b <? 128 then utf8_ok 0 128 191 bs'
          else if (194 <=? b) && (b <=? 223) then utf8_ok 1 128 191 bs'
          else if b =? 224 then utf8_ok 2 160 191 bs'
          else if ((225 <=? b) && (b <=? 236)) || ((238 <=? b) && (b <=? 239))
          then utf8_ok 2 128 191 bs'
          else if b =? 237 then utf8_ok 2 128 159 bs'
          else if b =? 240 then utf8_ok 3 144 191 bs'
          else if (241 <=? b) && (b <=? 243) then utf8_ok 3 128 191 bs'
          else if b =? 244 then utf8_ok 3 128 143 bs'
          else false
      | S k => (lo <=? b) && (b <=? hi) && utf8_ok k 128 191 bs'
      end
  end.

Definition utf8_valid (bytes : string) : bool :=
  utf8_ok 0 128 191 (map nat_of_ascii (list_ascii_of_string bytes)).

Definition bytes_decode (bytes : string) : outcome string :=
  if utf8_valid bytes then Ret bytes
  else Raise (new_exn UnicodeDecodeError
                "'utf-8' codec can't decode bytes: invalid data").

(** ** Operations on values *)

(** Truth value of an object, as tested by [if x:] and [x or y]. *)
Definition truthy (v : pyval) : bool :=
  match v with
  | PNone => false
  | PBool b => b
  | PInt z => negb (Z.eqb z 0)
  | PFloat f => negb (PrimFloat.eqb f 0%float)
  | PStr s => negb (String.eqb s EmptyString)
  | PList l => match l with [] => false | _ => true end
  | PDict d => negb (bool_decide (d = ∅))
  end.

(** Truth value of an [Optional[str]] read from the environment. *)
Definition truthy_str (o : option string) : bool :=
  match o with
  | Some s => negb (String.eqb s EmptyString)
  | None => false
  end.

(** [d.get(k, default)]. *)
Definition dict_get (d : dict) (k : string) (default : pyval) : pyval :=
  match d !! k with
  | Some v => v
  | None => default
  end.

(** [d[k]] on a dictionary. *)
Definition dict_item (d : dict) (k : string) : outcome pyval :=
  match d !! k with
  | Some v => Ret v
  | None => Raise (new_exn KeyError ("'" +:+ k +:+ "'"))
  end.

(** [k in d]. *)
Definition dict_has (d : dict) (k : string) : bool :=
  match d !! k with
  | Some _ => true
  | None => false
  end.

(** [v[k]] for a string key on an arbitrary object. *)
Definition getitem (v : pyval) (k : string) : outcome pyval :=
  match v with
  | PDict d => dict_item d k
  | PStr _ => Raise (new_exn TypeError "string indices must be integers")
  | PList _ => Raise (new_exn TypeError "list indices must be integers or slices, not str")
  | _ => Raise (new_exn TypeError "object is not subscriptable")
  end.

(** [v.get(k, default)] on an arbitrary object. *)
Definition get_method (v : pyval) (k : string) (default : pyval) : outcome pyval :=
  match v with
  | PDict d => Ret (dict_get d k default)
  | _ => Raise (new_exn AttributeError "object has no attribute 'get'")
  end.

(** The elements [for x in v] visits. *)
Definition iterate (v : pyval) : outcome (list pyval) :=
  match v with
  | PList l => Ret l
  | PStr s => Ret (map (fun c => PStr (String c EmptyString)) (list_ascii_of_string s))
  | PDict d => Ret (map (fun kv => PStr (fst kv)) (map_to_list d))
  | _ => Raise (new_exn TypeError "object is not iterable")
  end.

(** [len(v)]; of a [str], the number of bytes of its encoding. *)
Definition len (v : pyval) : outcome nat :=
  match v with
  | PList l => Ret (length l)
  | PStr s => Ret (String.length s)
  | PDict d => Ret (size d)
  | _ => Raise (new_exn TypeError "object has no len()")
  end.

(** [v[0]]. *)
Definition first_item (v : pyval) : outcome pyval :=
  match v with
  | PList (x :: _) => Ret x
  | PList [] => Raise (new_exn IndexError "list index out of range")
  | PStr (String c _) => Ret (PStr (String c EmptyString))
  | PStr EmptyString => Raise (new_exn IndexError "string index out of range")
  | PDict _ => Raise (new_exn KeyError "0")
  | _ => Raise (new_exn TypeError "object is not subscriptable")
  end.

(** [v.strip()]. *)
Definition strip_ws_method (v : pyval) : outcome pyval :=
  match v with
  | PStr s => Ret (PStr (strip s))
  | _ => Raise (new_exn AttributeError "object has no attribute 'strip'")
  end.

(** [v == s] against a string literal. *)
Definition eq_str (v : pyval) (s : string) : bool :=
  match v with
  | PStr s' => String.eqb s' s
  | _ => false
  end.

(** [next((s for s in streams if s['codec_type'] == kind), None)]. *)
Fixpoint first_stream (kind : string) (streams : list pyval) : outcome pyval :=
  match streams with
  | [] => Ret PNone
  | stream :: rest =>
      obind (getitem stream "codec_type") (fun codec_type =>
        if eq_str codec_type kind then Ret stream else first_stream kind rest)
  end.

End Py.
Export Py.

(* ===================================================================== *)
(** * Effects: the host, the trace and the monad *)
(* ===================================================================== *)

Module Runtime.

(** A stream of the ffmpeg-python builder: [ffmpeg.input], [.filter] with
    its positional and keyword arguments, and [ffmpeg.concat]. *)
Inductive ffmpeg_stream : Type :=
  | ff_input (path : string) (kwargs : list (string * pyval))
  | ff_filter (src : ffmpeg_stream) (name : string) (args : list pyval)
      (kwargs : list (string * pyval))
  | ff_concat (srcs : list ffmpeg_stream) (kwargs : list (string * pyval)).

(** [.output] with its keyword arguments, then [.overwrite_output()]:
    the command that [.run(quiet=True)] executes. *)
Record ffmpeg_output : Type := ff_out {
  ff_src : ffmpeg_stream;
  ff_path : string;
  ff_kwargs : list (string * pyval)
}.

Inductive log_level : Type := INFO | WARNING | ERROR.

(** The handle [boto3.client('s3', ...)] returns, identified by the
    arguments it was built from. *)
Record s3_client : Type := {
  endpoint_url : string;
  aws_access_key_id : string;
  aws_secret_access_key : string
}.

(** The object [whisper.load_model(name)] returns. *)
Record whisper_model : Type := { loaded_name : string }.

(** A configured third-party client ([translate.Client()],
    [TextToSpeechClient()], the Polly client). *)
Inductive service_client : Type :=
  | GoogleTranslate
  | GoogleTTS
  | AwsPolly (access_key secret_key region : string).

(** Calls that leave the process. *)
Inductive call : Type :=
  | SubprocessRun (argv : list string)
  | FfmpegRun (o : ffmpeg_output)
  | FfmpegProbe (path : string)
  | OsRemove (path : string)
  | OsMakedirs (path : string)
  | ShutilCopy2 (src dst : string)
  | FileWrite (path : string) (content : pyval)
  | Boto3Client (c : s3_client)
  | S3HeadBucket (c : s3_client) (bucket : pyval)
  | S3UploadFileobj (c : s3_client) (local_path : string) (upload_params : dict)
  | S3GeneratePresignedUrl (c : s3_client) (bucket : pyval) (key : string) (expires_in : Z)
  | S3DeleteObject (c : s3_client) (bucket : pyval) (key : string)
  | S3ListObjectsV2 (c : s3_client) (bucket : pyval) (prefix : string)
  | WhisperLoadModel (name : string)
  | WhisperTranscribe (m : whisper_model) (audio_path : string) (options : dict)
  | NewClient (c : service_client)
  | TranslateCall (text : pyval) (target_language : string) (source_language : pyval)
  | GoogleSynthesize (text : pyval) (language : string) (voice : pyval)
  | PollySynthesize (text : pyval) (voice_id : string)
  | TempfileMktemp (suffix : string).

(** What a run leaves behind, in order.  [EInvoke] and [EOutcome] bracket
    an operation awaited by a pipeline executor, [EAwait] and [EReturned]
    a stage awaited by the workflow; these four exist to state properties
    and are not read by the code. *)
Inductive event : Type :=
  | ELog (lvl : log_level) (msg : string)
  | ECall (c : call)
  | EInvoke (operation : string) (input_path output_path : string)
  | EOutcome (operation : string) (res : outcome string)
  | EAwait (stage : string)
  | EReturned (stage : string) (result : dict).

(** The collaborators.  Each effectful entry takes the world and returns
    the next one together with a value or a raised exception. *)
Class Host (World : Type) : Type := {
  os_path_exists : string -> World -> bool;
  (** [os.path.exists] on an object that is not a [str] *)
  os_path_exists_obj : pyval -> World -> outcome bool;
  os_remove : string -> World -> outcome unit * World;
  subprocess_run : list string -> World -> outcome unit * World;
  ffmpeg_run : ffmpeg_output -> World -> outcome unit * World;
  ffmpeg_probe : string -> World -> outcome pyval * World;
  (** [str(x)], [float(x)], [int(x)] and [eval(x)] of the interpreter *)
  builtin_str : pyval -> string;
  builtin_float : pyval -> outcome pyval;
  builtin_int : pyval -> outcome pyval;
  builtin_eval : pyval -> outcome pyval;
  (** [str(Path(p).with_suffix(suffix))] *)
  pathlib_with_suffix : string -> string -> outcome string;
  (** files and directories *)
  os_makedirs : string -> World -> outcome unit * World;
  shutil_copy2 : string -> string -> World -> outcome unit * World;
  os_path_getsize : string -> World -> outcome Z;
  os_path_dirname : string -> string;
  os_path_relpath : string -> string -> World -> outcome string;
  (** [os.walk(top)]: the [(root, dirs, filenames)] triples it yields *)
  os_walk : string -> World -> outcome (list (string * list string * list string));
  (** [os.stat(p)] as [(st_size, datetime.fromtimestamp(st_mtime).isoformat())] *)
  os_stat : string -> World -> outcome (Z * string);
  file_write : string -> pyval -> World -> outcome unit * World;
  tempfile_mktemp : string -> World -> outcome string * World;
  mimetypes_guess_type : string -> option string;
  (** [os.environ] *)
  environ : World -> gmap string string;
  (** [(datetime.now() + timedelta(seconds=n)).isoformat()] *)
  expires_at : Z -> World -> outcome string;
  (** [x.isoformat()] on a response field *)
  isoformat : pyval -> outcome pyval;
  (** the object store *)
  boto3_client : s3_client -> World -> outcome unit * World;
  s3_head_bucket : s3_client -> pyval -> World -> outcome unit * World;
  s3_upload_fileobj : s3_client -> string -> dict -> World -> outcome unit * World;
  s3_generate_presigned_url :
    s3_client -> pyval -> string -> Z -> World -> outcome string * World;
  s3_delete_object : s3_client -> pyval -> string -> World -> outcome unit * World;
  s3_list_objects_v2 : s3_client -> pyval -> string -> World -> outcome pyval * World;
  (** speech, translation and synthesis back ends *)
  whisper_load_model : string -> World -> outcome unit * World;
  whisper_transcribe :
    whisper_model -> string -> dict -> World -> outcome pyval * World;
  new_client : service_client -> World -> outcome unit * World;
  translate_call : pyval -> string -> pyval -> World -> outcome pyval * World;
  google_synthesize : pyval -> string -> pyval -> World -> outcome pyval * World;
  polly_synthesize : pyval -> string -> World -> outcome pyval * World
}.

Record state (World Self : Type) : Type := mk_state {
  self_obj : Self;
  world : World;
  trace : list event
}.
Arguments mk_state {World Self}.
Arguments self_obj {World Self}.
Arguments world {World Self}.
Arguments trace {World Self}.

(** A Python computation on an object of class [Self]: the state persists
    through a raised exception, as attribute assignments and side effects
    do. *)
Definition M (World Self A : Type) : Type :=
  state World Self -> outcome A * state World Self.

#[export] Instance M_ret {World Self} : MRet (M World Self) :=
  fun A a s => (Ret a, s).

#[export] Instance M_bind {World Self} : MBind (M World Self) :=
  fun A B k m s =>
    match m s with
    | (Ret a, s') => k a s'
    | (Raise e, s') => (Raise e, s')
    end.

Section Primitives.
Context {World Self : Type} `{Host World}.

Definition raise {A} (e : exn) : M World Self A := fun s => (Raise e, s).

(** [try: body  except Exception as e: handler e]; narrower clauses are
    an [isinstance] test inside the handler. *)
Definition try_except {A} (body : M World Self A)
    (handler : exn -> M World Self A) : M World Self A :=
  fun s =>
    match body s with
    | (Ret a, s') => (Ret a, s')
    | (Raise e, s') => handler e s'
    end.

Definition lift {A} (o : outcome A) : M World Self A := fun s => (o, s).

(** The state once [e] is appended to the trace. *)
Definition record (e : event) (s : state World Self) : state World Self :=
  mk_state (self_obj s) (world s) (trace s ++ [e]).

Definition emit (e : event) : M World Self unit :=
  fun s => (Ret tt, record e s).

Definition log (lvl : log_level) (msg : string) : M World Self unit :=
  emit (ELog lvl msg).

Definition get_self : M World Self Self := fun s => (Ret (self_obj s), s).

Definition set_self (o : Self) : M World Self unit :=
  fun s => (Ret tt, mk_state o (world s) (trace s)).

(** A read of the world. *)
Definition ask {A} (f : World -> A) : M World Self A :=
  fun s => (Ret (f (world s)), s).

(** An external call: recorded, then answered by the host. *)
Definition external {A} (c : call) (f : World -> outcome A * World)
    : M World Self A :=
  fun s =>
    let (r, w) := f (world s) in
    (r, mk_state (self_obj s) w (trace s ++ [ECall c])).

Definition path_exists (p : string) : M World Self bool :=
  ask (os_path_exists p).

Definition remove (p : string) : M World Self unit :=
  external (OsRemove p) (os_remove p).

Definition run_process (argv : list string) : M World Self unit :=
  external (SubprocessRun argv) (subprocess_run argv).

Definition run_ffmpeg (o : ffmpeg_output) : M World Self unit :=
  external (FfmpegRun o) (ffmpeg_run o).

Definition probe (p : string) : M World Self pyval :=
  external (FfmpegProbe p) (ffmpeg_probe p).

(** A read of the world that may raise. *)
Definition ask_or_raise {A} (f : World -> outcome A) : M World Self A :=
  fun s => (f (world s), s).

(** [Class(...)]: run the constructor body on a fresh object and return
    the object; a constructor that raises yields no object. *)
Definition construct {Obj A} (fresh : Obj) (init : M World Obj A)
    : M World Self Obj :=
  fun s =>
    match init (mk_state fresh (world s) (trace s)) with
    | (Ret _, s') => (Ret (self_obj s'), mk_state (self_obj s) (world s') (trace s'))
    | (Raise e, s') => (Raise e, mk_state (self_obj s) (world s') (trace s'))
    end.

(** [self.field.method(...)]: run a method on the object held in a
    field; what it assigns to its own attributes stays in the field. *)
Definition on_field {Obj A} (get : Self -> Obj) (set : Obj -> Self -> Self)
    (method : M World Obj A) : M World Self A :=
  fun s =>
    match method (mk_state (get (self_obj s)) (world s) (trace s)) with
    | (r, s') =>
        (r, mk_state (set (self_obj s') (self_obj s)) (world s') (trace s'))
    end.

(** [str(x)] of an [Optional[str]]. *)
Definition str_opt (o : option string) : string :=
  match o with
  | Some s => s
  | None => "None"
  end.

Definition opt_val (o : option string) : pyval :=
  match o with
  | Some s => PStr s
  | None => PNone
  end.

(** [f"{v}"] and [str(v)]. *)
Definition str_ (v : pyval) : string :=
  match v with
  | PStr s => s
  | PNone => "None"
  | PBool true => "True"
  | PBool false => "False"
  | PInt z => pretty z
  | _ => builtin_str v
  end.

(** [for x in xs: body x]. *)
Fixpoint for_each {A} (xs : list A) (body : A -> M World Self unit)
    : M World Self unit :=
  match xs with
  | [] => mret tt
  | x :: xs' => body x;; for_each xs' body
  end.

(** An operation awaited by a pipeline executor,
    [current_input = await self._op(current_input, output_path, parameters)],
    bracketed in the trace. *)
Definition await_operation (operation input_path output_path : string)
    (method : M World Self string) : M World Self string :=
  fun s =>
    match (emit (EInvoke operation input_path output_path);; method) s with
    | (res, s') => (res, record (EOutcome operation res) s')
    end.

(** A stage awaited by the workflow,
    [result = await self.service.method(...)], bracketed in the trace. *)
Definition await_stage (stage : string) (method : M World Self dict)
    : M World Self dict :=
  emit (EAwait stage);;
  result ← method;
  emit (EReturned stage result);;
  mret result.

(** The dictionary every service returns for a failure. *)
Definition error_result (msg : string) : dict := {[ "error" := PStr msg ]}.

(** The dictionary a pipeline executor returns after its last step. *)
Definition completed_result (task_id output_path : string)
    (operations : list string) (file_info : dict) : dict :=
  {[ "task_id" := PStr task_id;
     "status" := PStr "completed";
     "output_path" := PStr output_path;
     "operations_performed" := PList (PStr <$> operations);
     "file_info" := PDict file_info ]}.

(** The dictionary its [except Exception as e] clause returns. *)
Definition failed_result (task_id error : string) : dict :=
  {[ "task_id" := PStr task_id;
     "status" := PStr "failed";
     "error" := PStr error ]}.

End Primitives.

End Runtime.
Export Runtime.

(* ===================================================================== *)
(** * audio_processor.py *)
(* ===================================================================== *)

Module Audio.

(** [class AudioProcessor]; [__init__] stores the output directory. *)
Record AudioProcessor : Type := { output_dir : string }.

Section AudioProcessor.
Context {World : Type} `{Host World}.

Local Abbreviation MA := (M World AudioProcessor).

(** [_get_output_path]: [{task_id}_{operation}_{step}.wav] under the
    output directory. *)
Definition _get_output_path (self : AudioProcessor)
    (task_id operation : string) (step : nat) : string :=
  let filename := task_id +:+ "_" +:+ operation +:+ "_" +:+ pretty step +:+ ".wav" in
  os_path_join (output_dir self) filename.

Definition _fallback_noise_reduction_cmd (input_path output_path : string)
    : ffmpeg_output :=
  ff_out
    (ff_filter
       (ff_filter (ff_input input_path []) "highpass" [] [("f", PInt 200)])
       "lowpass" [] [("f", PInt 8000)])
    output_path [].

Definition _fallback_noise_reduction (input_path output_path : string)
    : MA string :=
  try_except
    (run_ffmpeg (_fallback_noise_reduction_cmd input_path output_path);;
     log INFO ("Fallback noise reduction applied: " +:+ output_path);;
     mret output_path)
    (fun e =>
       log ERROR ("Fallback noise reduction failed: " +:+ exn_msg e);;
       raise e).

Definition cmd_noise (input_path noise_profile : string) : list string :=
  ["sox"; input_path; "-n"; "trim"; "0"; "0.5"; "noiseprof"; noise_profile].

Definition cmd_reduce (input_path output_path noise_profile : string)
    (noise_factor : pyval) : list string :=
  ["sox"; input_path; output_path; "noisered"; noise_profile; str_ noise_factor].

(** The [try] block of [_noise_reduction]: the SoX method. *)
Definition noise_reduction_primary (input_path output_path : string)
    (params : dict) : MA string :=
  let noise_factor := dict_get params "noise_factor" (PFloat 0.21) in
  let noise_profile := str_replace output_path ".wav" "_noise.prof" in
  run_process (cmd_noise input_path noise_profile);;
  run_process (cmd_reduce input_path output_path noise_profile noise_factor);;
  present ← path_exists noise_profile;
  (if present : bool then remove noise_profile else mret tt);;
  log INFO ("Noise reduction applied: " +:+ output_path);;
  mret output_path.

Definition _noise_reduction (input_path output_path : string) (params : dict)
    : MA string :=
  try_except
    (noise_reduction_primary input_path output_path params)
    (fun e =>
       if isinstance e CalledProcessError then
         stderr ← lift (bytes_decode (exn_stderr e));
         log ERROR ("SoX noise reduction failed: " +:+ stderr);;
         _fallback_noise_reduction input_path output_path
       else
         log ERROR ("Noise reduction failed: " +:+ exn_msg e);;
         raise e).

Definition _fallback_normalize_cmd (input_path output_path : string)
    (volume_level : pyval) : ffmpeg_output :=
  ff_out (ff_filter (ff_input input_path []) "volume" [volume_level] [])
    output_path [].

Definition _fallback_normalize (input_path output_path : string)
    (params : dict) : MA string :=
  try_except
    (let volume_level := dict_get params "volume_level" (PFloat 1.5) in
     run_ffmpeg (_fallback_normalize_cmd input_path output_path volume_level);;
     log INFO ("Fallback normalization applied: " +:+ output_path);;
     mret output_path)
    (fun e =>
       log ERROR ("Fallback normalization failed: " +:+ exn_msg e);;
       raise e).

Definition _normalize_audio_cmd (input_path output_path : string)
    : ffmpeg_output :=
  ff_out
    (ff_filter (ff_input input_path []) "loudnorm" []
       [("I", PInt (-16)); ("LRA", PInt 11); ("TP", PFloat (-1.5))])
    output_path [].

(** The [try] block of [_normalize_audio]: the loudness-normalisation
    method. *)
Definition normalize_audio_primary (input_path output_path : string)
    (params : dict) : MA string :=
  let target_level := dict_get params "target_level" (PFloat (-3.0)) in
  run_ffmpeg (_normalize_audio_cmd input_path output_path);;
  log INFO ("Audio normalized: " +:+ output_path);;
  mret output_path.

Definition _normalize_audio (input_path output_path : string) (params : dict)
    : MA string :=
  try_except
    (normalize_audio_primary input_path output_path params)
    (fun e =>
       log ERROR ("Audio normalization failed: " +:+ exn_msg e);;
       _fallback_normalize input_path output_path params).

Definition _change_speed (input_path output_path : string) (params : dict)
    : MA string :=
  try_except
    (let speed_factor := dict_get params "speed_factor" (PFloat 1.0) in
     let preserve_pitch := dict_get params "preserve_pitch" (PBool true) in
     (if truthy preserve_pitch then
        run_ffmpeg
          (ff_out (ff_filter (ff_input input_path []) "atempo" [speed_factor] [])
             output_path [])
      else
        run_ffmpeg
          (ff_out
             (ff_filter
                (ff_filter (ff_input input_path []) "asetrate"
                   [PStr ("44100*" +:+ str_ speed_factor)] [])
                "aresample" [PInt 44100] [])
             output_path []));;
     log INFO ("Speed changed by factor " +:+ str_ speed_factor +:+ ": " +:+ output_path);;
     mret output_path)
    (fun e =>
       log ERROR ("Speed change failed: " +:+ exn_msg e);;
       raise e).

(** One [ffmpeg.input(input_path, ss=start, t=duration).output(path)]. *)
Definition cut_segment (input_path path : string) (segment : pyval)
    : MA unit :=
  start_time ← lift (get_method segment "start" (PInt 0));
  duration ← lift (get_method segment "duration" (PInt 30));
  run_ffmpeg
    (ff_out (ff_input input_path [("ss", start_time); ("t", duration)]) path []).

(** The first loop of the multi-segment branch: cut segment [i] into its
    own file and collect the file names in order. *)
Fixpoint cut_segments (input_path output_path : string) (i : nat)
    (segments : list pyval) : MA (list string) :=
  match segments with
  | [] => mret []
  | segment :: rest =>
      let segment_path :=
        str_replace output_path ".wav" ("_segment_" +:+ pretty i +:+ ".wav") in
      cut_segment input_path segment_path segment;;
      files ← cut_segments input_path output_path (S i) rest;
      mret (segment_path :: files)
  end.

Definition _extract_segments (input_path output_path : string)
    (params : dict) : MA string :=
  try_except
    (let segments :=
       dict_get params "segments"
         (PList [PDict {[ "start" := PInt 0; "duration" := PInt 30 ]}]) in
     n ← lift (len segments);
     if n =? 1 then
       segment ← lift (first_item segments);
       cut_segment input_path output_path segment;;
       log INFO ("Audio segment extracted: " +:+ output_path);;
       mret output_path
     else
       items ← lift (iterate segments);
       segment_files ← cut_segments input_path output_path 0 items;
       let inputs := map (fun f => ff_input f []) segment_files in
       run_ffmpeg
         (ff_out (ff_concat inputs [("v", PInt 0); ("a", PInt 1)]) output_path []);;
       for_each segment_files
         (fun f =>
            present ← path_exists f;
            if present : bool then remove f else mret tt);;
       log INFO ("Multiple audio segments extracted and concatenated: " +:+ output_path);;
       mret output_path)
    (fun e =>
       log ERROR ("Segment extraction failed: " +:+ exn_msg e);;
       raise e).

(** The body of [_get_audio_info] after the probe, up to [return info]. *)
Definition audio_info_of (probe_doc : pyval) : outcome dict :=
  obind (getitem probe_doc "streams") (fun streams =>
  obind (iterate streams) (fun streams =>
  obind (first_stream "audio" streams) (fun audio_stream =>
  obind (getitem probe_doc "format") (fun fmt =>
  obind (getitem fmt "duration") (fun d =>
  obind (builtin_float d) (fun duration =>
  obind (getitem probe_doc "format") (fun fmt =>
  obind (getitem fmt "size") (fun sz =>
  obind (builtin_int sz) (fun size =>
  obind (getitem probe_doc "format") (fun fmt =>
  obind (getitem fmt "format_name") (fun format_name =>
  obind (getitem probe_doc "format") (fun fmt =>
  obind (getitem fmt "bit_rate") (fun br =>
  obind (builtin_int br) (fun bitrate =>
  let info : dict :=
    {[ "duration" := duration; "size" := size;
       "format" := format_name; "bitrate" := bitrate ]} in
  if truthy audio_stream then
    obind (getitem audio_stream "codec_name") (fun codec =>
    obind (getitem audio_stream "sample_rate") (fun sr =>
    obind (builtin_int sr) (fun sample_rate =>
    obind (getitem audio_stream "channels") (fun ch =>
    obind (builtin_int ch) (fun channels =>
    obind (get_method audio_stream "bits_per_sample" (PStr "unknown"))
      (fun bit_depth =>
    Ret (<[ "codec" := codec ]>
         (<[ "sample_rate" := sample_rate ]>
          (<[ "channels" := channels ]>
           (<[ "bit_depth" := bit_depth ]> info))))))))))
  else Ret info)))))))))))))).

Definition _get_audio_info (file_path : string) : MA dict :=
  try_except
    (probe_doc ← probe file_path;
     lift (audio_info_of probe_doc))
    (fun e =>
       log ERROR ("Error getting audio info: " +:+ exn_msg e);;
       mret (error_result (exn_msg e))).

(** The [for i, operation in enumerate(operations)] loop of
    [process_audio], from index [i] with [current_input]; it returns the
    value of [current_input] after the last iteration. *)
Fixpoint process_audio_loop (task_id : string) (parameters : dict)
    (i : nat) (operations : list string) (current_input : string)
    : MA string :=
  match operations with
  | [] => mret current_input
  | operation :: rest =>
      self ← get_self;
      let output_path := _get_output_path self task_id operation i in
      current_input ←
        (if String.eqb operation "noise_reduction" then
           await_operation operation current_input output_path
             (_noise_reduction current_input output_path parameters)
         else if String.eqb operation "normalize_audio" then
           await_operation operation current_input output_path
             (_normalize_audio current_input output_path parameters)
         else if String.eqb operation "change_speed" then
           await_operation operation current_input output_path
             (_change_speed current_input output_path parameters)
         else if String.eqb operation "extract_segments" then
           await_operation operation current_input output_path
             (_extract_segments current_input output_path parameters)
         else
           log WARNING ("Unknown operation: " +:+ operation);;
           mret current_input);
      process_audio_loop task_id parameters (S i) rest current_input
  end.

Definition process_audio (input_path task_id : string)
    (operations : list string) (parameters : option dict) : MA dict :=
  try_except
    (present ← path_exists input_path;
     (if present : bool then mret tt
      else raise (new_exn FileNotFoundError
                    ("Input file not found: " +:+ input_path)));;
     log INFO ("Starting audio processing for task " +:+ task_id);;
     let parameters := default ∅ parameters in
     current_input ← process_audio_loop task_id parameters 0 operations input_path;
     file_info ← _get_audio_info current_input;
     let result := completed_result task_id current_input operations file_info in
     log INFO ("Audio processing completed for task " +:+ task_id);;
     mret result)
    (fun e =>
       log ERROR ("Audio processing failed for task " +:+ task_id +:+ ": " +:+ exn_msg e);;
       mret (failed_result task_id (exn_msg e))).

Definition get_supported_operations : list string :=
  ["noise_reduction"; "normalize_audio"; "change_speed"; "extract_segments"].

End AudioProcessor.

End Audio.

(* ===================================================================== *)
(** * video_processor.py *)
(* ===================================================================== *)

Module Video.

(** [class VideoProcessor]; [__init__] stores the output directory. *)
Record VideoProcessor : Type := { output_dir : string }.

Section VideoProcessor.
Context {World : Type} `{Host World}.

Local Abbreviation MV := (M World VideoProcessor).

(** [_get_output_path]: [{task_id}_{operation}_{step}.mp4] under the
    output directory. *)
Definition _get_output_path (self : VideoProcessor)
    (task_id operation : string) (step : nat) : string :=
  let filename := task_id +:+ "_" +:+ operation +:+ "_" +:+ pretty step +:+ ".mp4" in
  os_path_join (output_dir self) filename.

Definition _extract_audio (input_path output_path : string) (params : dict)
    : MV string :=
  try_except
    (let audio_format := dict_get params "audio_format" (PStr "mp3") in
     let audio_quality := dict_get params "audio_quality" (PStr "192k") in
     let output_path := str_replace output_path ".mp4" ("." +:+ str_ audio_format) in
     run_ffmpeg
       (ff_out (ff_input input_path []) output_path
          [("acodec", if eq_str audio_format "mp3" then PStr "libmp3lame" else PStr "aac");
           ("audio_bitrate", audio_quality)]);;
     log INFO ("Audio extracted to: " +:+ output_path);;
     mret output_path)
    (fun e =>
       log ERROR ("Audio extraction failed: " +:+ exn_msg e);;
       raise e).

Definition _convert_format (input_path output_path : string) (params : dict)
    : MV string :=
  try_except
    (let target_format := dict_get params "target_format" (PStr "mp4") in
     let video_codec := dict_get params "video_codec" (PStr "libx264") in
     let audio_codec := dict_get params "audio_codec" (PStr "aac") in
     output_path ← lift (pathlib_with_suffix output_path ("." +:+ str_ target_format));
     run_ffmpeg
       (ff_out (ff_input input_path []) output_path
          [("vcodec", video_codec); ("acodec", audio_codec)]);;
     log INFO ("Format converted to: " +:+ output_path);;
     mret output_path)
    (fun e =>
       log ERROR ("Format conversion failed: " +:+ exn_msg e);;
       raise e).

Definition _resize_video (input_path output_path : string) (params : dict)
    : MV string :=
  try_except
    (let width := dict_get params "width" (PInt 1280) in
     let height := dict_get params "height" (PInt 720) in
     run_ffmpeg
       (ff_out (ff_filter (ff_input input_path []) "scale" [width; height] [])
          output_path []);;
     log INFO ("Video resized to " +:+ str_ width +:+ "x" +:+ str_ height
               +:+ ": " +:+ output_path);;
     mret output_path)
    (fun e =>
       log ERROR ("Video resize failed: " +:+ exn_msg e);;
       raise e).

Definition _trim_video (input_path output_path : string) (params : dict)
    : MV string :=
  try_except
    (let start_time := dict_get params "start_time" (PInt 0) in
     let duration := dict_get params "duration" (PInt 30) in
     run_ffmpeg
       (ff_out (ff_input input_path [("ss", start_time); ("t", duration)])
          output_path []);;
     log INFO ("Video trimmed from " +:+ str_ start_time +:+ "s for "
               +:+ str_ duration +:+ "s: " +:+ output_path);;
     mret output_path)
    (fun e =>
       log ERROR ("Video trim failed: " +:+ exn_msg e);;
       raise e).

(** [os.path.exists(subtitle_path)] on the parameter as it was given. *)
Definition subtitle_exists (subtitle_path : pyval) : MV bool :=
  match subtitle_path with
  | PStr p => path_exists p
  | v => fun s => (os_path_exists_obj v (world s), s)
  end.

Definition _add_subtitles (input_path output_path : string) (params : dict)
    : MV string :=
  try_except
    (let subtitle_path := dict_get params "subtitle_path" PNone in
     present ←
       (if truthy subtitle_path then subtitle_exists subtitle_path
        else mret false);
     if negb (truthy subtitle_path) || negb present then
       log WARNING "Subtitle file not found, skipping subtitle addition";;
       mret input_path
     else
       run_ffmpeg
         (ff_out (ff_input input_path []) output_path
            [("vf", PStr ("subtitles=" +:+ str_ subtitle_path))]);;
       log INFO ("Subtitles added: " +:+ output_path);;
       mret output_path)
    (fun e =>
       log ERROR ("Subtitle addition failed: " +:+ exn_msg e);;
       raise e).

(** The body of [_get_file_info] after the probe, up to [return info]. *)
Definition file_info_of (probe_doc : pyval) : outcome dict :=
  obind (getitem probe_doc "streams") (fun streams =>
  obind (iterate streams) (fun streams =>
  obind (first_stream "video" streams) (fun video_stream =>
  obind (getitem probe_doc "streams") (fun streams =>
  obind (iterate streams) (fun streams =>
  obind (first_stream "audio" streams) (fun audio_stream =>
  obind (getitem probe_doc "format") (fun fmt =>
  obind (getitem fmt "duration") (fun d =>
  obind (builtin_float d) (fun duration =>
  obind (getitem probe_doc "format") (fun fmt =>
  obind (getitem fmt "size") (fun sz =>
  obind (builtin_int sz) (fun size =>
  obind (getitem probe_doc "format") (fun fmt =>
  obind (getitem fmt "format_name") (fun format_name =>
  obind (getitem probe_doc "format") (fun fmt =>
  obind (getitem fmt "bit_rate") (fun br =>
  obind (builtin_int br) (fun bitrate =>
  let info : dict :=
    {[ "duration" := duration; "size" := size;
       "format" := format_name; "bitrate" := bitrate ]} in
  obind
    (if truthy video_stream then
       obind (getitem video_stream "width") (fun w =>
       obind (builtin_int w) (fun width =>
       obind (getitem video_stream "height") (fun h =>
       obind (builtin_int h) (fun height =>
       obind (getitem video_stream "codec_name") (fun video_codec =>
       obind (getitem video_stream "r_frame_rate") (fun r =>
       obind (builtin_eval r) (fun fps =>
       Ret (<[ "width" := width ]>
            (<[ "height" := height ]>
             (<[ "video_codec" := video_codec ]>
              (<[ "fps" := fps ]> info)))))))))))
     else Ret info) (fun info =>
  if truthy audio_stream then
    obind (getitem audio_stream "codec_name") (fun audio_codec =>
    obind (getitem audio_stream "sample_rate") (fun sr =>
    obind (builtin_int sr) (fun sample_rate =>
    obind (getitem audio_stream "channels") (fun ch =>
    obind (builtin_int ch) (fun channels =>
    Ret (<[ "audio_codec" := audio_codec ]>
         (<[ "sample_rate" := sample_rate ]>
          (<[ "channels" := channels ]> info))))))))
  else Ret info)))))))))))))))))).

Definition _get_file_info (file_path : string) : MV dict :=
  try_except
    (probe_doc ← probe file_path;
     lift (file_info_of probe_doc))
    (fun e =>
       log ERROR ("Error getting file info: " +:+ exn_msg e);;
       mret (error_result (exn_msg e))).

(** The [for i, operation in enumerate(operations)] loop of
    [process_video], from index [i] with [current_input]. *)
Fixpoint process_video_loop (task_id : string) (parameters : dict)
    (i : nat) (operations : list string) (current_input : string)
    : MV string :=
  match operations with
  | [] => mret current_input
  | operation :: rest =>
      self ← get_self;
      let output_path := _get_output_path self task_id operation i in
      current_input ←
        (if String.eqb operation "extract_audio" then
           await_operation operation current_input output_path
             (_extract_audio current_input output_path parameters)
         else if String.eqb operation "convert_format" then
           await_operation operation current_input output_path
             (_convert_format current_input output_path parameters)
         else if String.eqb operation "resize_video" then
           await_operation operation current_input output_path
             (_resize_video current_input output_path parameters)
         else if String.eqb operation "trim_video" then
           await_operation operation current_input output_path
             (_trim_video current_input output_path parameters)
         else if String.eqb operation "add_subtitles" then
           await_operation operation current_input output_path
             (_add_subtitles current_input output_path parameters)
         else
           log WARNING ("Unknown operation: " +:+ operation);;
           mret current_input);
      process_video_loop task_id parameters (S i) rest current_input
  end.

Definition process_video (input_path task_id : string)
    (operations : list string) (parameters : option dict) : MV dict :=
  try_except
    (present ← path_exists input_path;
     (if present : bool then mret tt
      else raise (new_exn FileNotFoundError
                    ("Input file not found: " +:+ input_path)));;
     log INFO ("Starting video processing for task " +:+ task_id);;
     let parameters := default ∅ parameters in
     current_input ← process_video_loop task_id parameters 0 operations input_path;
     file_info ← _get_file_info current_input;
     let result := completed_result task_id current_input operations file_info in
     log INFO ("Video processing completed for task " +:+ task_id);;
     mret result)
    (fun e =>
       log ERROR ("Video processing failed for task " +:+ task_id +:+ ": " +:+ exn_msg e);;
       mret (failed_result task_id (exn_msg e))).

Definition get_supported_operations : list string :=
  ["extract_audio"; "convert_format"; "resize_video"; "trim_video"; "add_subtitles"].

End VideoProcessor.

End Video.

(* ===================================================================== *)
(** * storage_service.py *)
(* ===================================================================== *)

Module Storage.

(** [class CloudflareR2Service]: the attributes [client] and
    [bucket_name], both [None] when [__init__] starts. *)
Record CloudflareR2Service : Type := {
  client : option s3_client;
  bucket_name : option string
}.

(** [class LocalStorageService]. *)
Record LocalStorageService : Type := { storage_dir : string }.

(** Which of its two services [primary_service] refers to. *)
Inductive service_ref : Type := TheR2Service | TheLocalService.

(** [class StorageManager]. *)
Record StorageManager : Type := {
  r2_service : CloudflareR2Service;
  local_service : LocalStorageService;
  primary_service : service_ref
}.

(** The double-quote character that [strip] removes from an ETag. *)
Definition double_quote : ascii := ascii_of_nat 34.

Fixpoint lstrip_char (c : ascii) (s : string) : string :=
  match s with
  | EmptyString => EmptyString
  | String c' s' => if Ascii.eqb c' c then lstrip_char c s' else s
  end.

(** [v.strip(c)] for a one-character [c]. *)
Definition strip_method (v : pyval) (c : ascii) : outcome pyval :=
  match v with
  | PStr s => Ret (PStr (String.rev (lstrip_char c (String.rev (lstrip_char c s)))))
  | _ => Raise (new_exn AttributeError "object has no attribute 'strip'")
  end.

Section R2.
Context {World : Type} `{Host World}.

Local Abbreviation MR := (M World CloudflareR2Service).

Definition set_bucket_name (b : option string) : MR unit :=
  self ← get_self;
  set_self {| client := client self; bucket_name := b |}.

Definition set_client (c : option s3_client) : MR unit :=
  self ← get_self;
  set_self {| client := c; bucket_name := bucket_name self |}.

Definition _initialize_client : MR unit :=
  try_except
    (env ← ask environ;
     let account_id := env !! "CLOUDFLARE_ACCOUNT_ID" in
     let access_key := env !! "CLOUDFLARE_R2_ACCESS_KEY_ID" in
     let secret_key := env !! "CLOUDFLARE_R2_SECRET_ACCESS_KEY" in
     set_bucket_name (env !! "CLOUDFLARE_R2_BUCKET_NAME");;
     self ← get_self;
     if negb (forallb truthy_str [account_id; access_key; secret_key; bucket_name self])
     then
       log WARNING "Cloudflare R2 credentials not found, using local storage"
     else
       let endpoint := "https://" +:+ str_opt account_id +:+ ".r2.cloudflarestorage.com" in
       let c := {| endpoint_url := endpoint;
                   aws_access_key_id := str_opt access_key;
                   aws_secret_access_key := str_opt secret_key |} in
       external (Boto3Client c) (boto3_client c);;
       set_client (Some c);;
       self ← get_self;
       external (S3HeadBucket c (opt_val (bucket_name self)))
         (s3_head_bucket c (opt_val (bucket_name self)));;
       log INFO "Cloudflare R2 client initialized successfully")
    (fun e =>
       if isinstance e NoCredentialsError then
         log WARNING "R2 credentials not found"
       else if isinstance e ClientError then
         log ERROR ("Failed to initialize R2 client: " +:+ exn_msg e)
       else
         log ERROR ("Unexpected error initializing R2: " +:+ exn_msg e)).

(** [CloudflareR2Service()]. *)
Definition new_CloudflareR2Service {Self} : M World Self CloudflareR2Service :=
  construct {| client := None; bucket_name := None |} _initialize_client.

Definition is_available (self : CloudflareR2Service) : bool :=
  match client self with
  | Some _ => true
  | None => false
  end.

Definition r2_upload_file (local_path remote_key : string)
    (metadata : option dict) : MR dict :=
  try_except
    (self ← get_self;
     match client self with
     | None => mret (error_result "R2 client not available")
     | Some c =>
         present ← path_exists local_path;
         if negb present then
           mret (error_result ("Local file not found: " +:+ local_path))
         else
           log INFO ("Uploading " +:+ local_path +:+ " to R2 as " +:+ remote_key);;
           let content_type :=
             if truthy_str (mimetypes_guess_type local_path)
             then str_opt (mimetypes_guess_type local_path)
             else "application/octet-stream" in
           let upload_params : dict :=
             {[ "Bucket" := opt_val (bucket_name self);
                "Key" := PStr remote_key;
                "ContentType" := PStr content_type ]} in
           let upload_params :=
             match metadata with
             | Some m =>
                 if truthy (PDict m) then <[ "Metadata" := PDict m ]> upload_params
                 else upload_params
             | None => upload_params
             end in
           external (S3UploadFileobj c local_path upload_params)
             (s3_upload_fileobj c local_path upload_params);;
           file_size ← ask_or_raise (os_path_getsize local_path);
           mret ({[ "success" := PBool true;
                    "remote_key" := PStr remote_key;
                    "bucket" := opt_val (bucket_name self);
                    "size" := PInt file_size;
                    "content_type" := PStr content_type;
                    "url" := PStr ("https://" +:+ str_opt (bucket_name self)
                                   +:+ ".r2.dev/" +:+ remote_key) ]} : dict)
     end)
    (fun e =>
       if isinstance e ClientError then
         log ERROR ("R2 upload failed: " +:+ exn_msg e);;
         mret (error_result ("Upload failed: " +:+ exn_msg e))
       else
         log ERROR ("Unexpected upload error: " +:+ exn_msg e);;
         mret (error_result (exn_msg e))).

Definition r2_generate_signed_url (remote_key : string) (expiration : Z)
    : MR dict :=
  try_except
    (self ← get_self;
     match client self with
     | None => mret (error_result "R2 client not available")
     | Some c =>
         log INFO ("Generating signed URL for " +:+ remote_key);;
         url ← external
                 (S3GeneratePresignedUrl c (opt_val (bucket_name self)) remote_key expiration)
                 (s3_generate_presigned_url c (opt_val (bucket_name self)) remote_key expiration);
         at_ ← ask_or_raise (expires_at expiration);
         mret ({[ "success" := PBool true;
                  "signed_url" := PStr url;
                  "expires_in" := PInt expiration;
                  "expires_at" := PStr at_ ]} : dict)
     end)
    (fun e =>
       if isinstance e ClientError then
         log ERROR ("Failed to generate signed URL: " +:+ exn_msg e);;
         mret (error_result ("Signed URL generation failed: " +:+ exn_msg e))
       else
         log ERROR ("Unexpected error generating signed URL: " +:+ exn_msg e);;
         mret (error_result (exn_msg e))).

Definition r2_delete_file (remote_key : string) : MR dict :=
  try_except
    (self ← get_self;
     match client self with
     | None => mret (error_result "R2 client not available")
     | Some c =>
         log INFO ("Deleting " +:+ remote_key +:+ " from R2");;
         external (S3DeleteObject c (opt_val (bucket_name self)) remote_key)
           (s3_delete_object c (opt_val (bucket_name self)) remote_key);;
         mret ({[ "success" := PBool true; "deleted_key" := PStr remote_key ]} : dict)
     end)
    (fun e =>
       if isinstance e ClientError then
         log ERROR ("R2 delete failed: " +:+ exn_msg e);;
         mret (error_result ("Delete failed: " +:+ exn_msg e))
       else
         log ERROR ("Unexpected delete error: " +:+ exn_msg e);;
         mret (error_result (exn_msg e))).

(** The loop over [response.get('Contents', [])] of [list_files]. *)
Fixpoint r2_entries (contents : list pyval) : outcome (list pyval) :=
  match contents with
  | [] => Ret []
  | obj :: rest =>
      obind (getitem obj "Key") (fun key =>
      obind (getitem obj "Size") (fun size =>
      obind (getitem obj "LastModified") (fun lm =>
      obind (isoformat lm) (fun last_modified =>
      obind (getitem obj "ETag") (fun tag =>
      obind (strip_method tag double_quote) (fun etag =>
      obind (r2_entries rest) (fun files =>
      Ret (PDict {[ "key" := key; "size" := size;
                    "last_modified" := last_modified; "etag" := etag ]}
           :: files))))))))
  end.

Definition files_result (files : list pyval) : dict :=
  {[ "success" := PBool true;
     "files" := PList files;
     "count" := PInt (Z.of_nat (length files)) ]}.

Definition r2_list_files (prefix : string) : MR dict :=
  try_except
    (self ← get_self;
     match client self with
     | None => mret (error_result "R2 client not available")
     | Some c =>
         log INFO ("Listing files with prefix: " +:+ prefix);;
         response ← external (S3ListObjectsV2 c (opt_val (bucket_name self)) prefix)
                      (s3_list_objects_v2 c (opt_val (bucket_name self)) prefix);
         contents ← lift (get_method response "Contents" (PList []));
         contents ← lift (iterate contents);
         files ← lift (r2_entries contents);
         mret (files_result files)
     end)
    (fun e =>
       if isinstance e ClientError then
         log ERROR ("R2 list failed: " +:+ exn_msg e);;
         mret (error_result ("List failed: " +:+ exn_msg e))
       else
         log ERROR ("Unexpected list error: " +:+ exn_msg e);;
         mret (error_result (exn_msg e))).

End R2.

Section Local.
Context {World : Type} `{Host World}.

Local Abbreviation ML := (M World LocalStorageService).

(** [LocalStorageService(storage_dir="./storage")]. *)
Definition new_LocalStorageService {Self} (dir : string)
    : M World Self LocalStorageService :=
  construct {| storage_dir := dir |}
    (external (OsMakedirs dir) (os_makedirs dir)).

Definition local_upload_file (local_path remote_key : string)
    (metadata : option dict) : ML dict :=
  try_except
    (self ← get_self;
     present ← path_exists local_path;
     if negb present then
       mret (error_result ("Local file not found: " +:+ local_path))
     else
       let dest_path := os_path_join (storage_dir self) remote_key in
       let dest_dir := os_path_dirname dest_path in
       external (OsMakedirs dest_dir) (os_makedirs dest_dir);;
       external (ShutilCopy2 local_path dest_path) (shutil_copy2 local_path dest_path);;
       file_size ← ask_or_raise (os_path_getsize dest_path);
       mret ({[ "success" := PBool true;
                "remote_key" := PStr remote_key;
                "local_path" := PStr dest_path;
                "size" := PInt file_size;
                "url" := PStr ("/storage/" +:+ remote_key) ]} : dict))
    (fun e =>
       log ERROR ("Local storage upload failed: " +:+ exn_msg e);;
       mret (error_result (exn_msg e))).

Definition local_generate_signed_url (remote_key : string) (expiration : Z)
    : ML dict :=
  try_except
    (self ← get_self;
     let file_path := os_path_join (storage_dir self) remote_key in
     present ← path_exists file_path;
     if negb present then mret (error_result "File not found")
     else
       mret ({[ "success" := PBool true;
                "signed_url" := PStr ("/storage/" +:+ remote_key);
                "expires_in" := PInt expiration;
                "local_path" := PStr file_path ]} : dict))
    (fun e =>
       log ERROR ("Local URL generation failed: " +:+ exn_msg e);;
       mret (error_result (exn_msg e))).

Definition local_delete_file (remote_key : string) : ML dict :=
  try_except
    (self ← get_self;
     let file_path := os_path_join (storage_dir self) remote_key in
     present ← path_exists file_path;
     (if present : bool then remove file_path else mret tt);;
     mret ({[ "success" := PBool true; "deleted_key" := PStr remote_key ]} : dict))
    (fun e =>
       log ERROR ("Local delete failed: " +:+ exn_msg e);;
       mret (error_result (exn_msg e))).

(** The inner loop of [list_files]: the files of one directory. *)
Fixpoint local_entries (dir prefix root : string) (filenames : list string)
    : ML (list pyval) :=
  match filenames with
  | [] => mret []
  | filename :: rest =>
      let file_path := os_path_join root filename in
      relative_path ← ask_or_raise (os_path_relpath file_path dir);
      here ←
        (if startswith relative_path prefix then
           st ← ask_or_raise (os_stat file_path);
           mret [PDict {[ "key" := PStr (str_replace relative_path "/" "/");
                          "size" := PInt (fst st);
                          "last_modified" := PStr (snd st);
                          "local_path" := PStr file_path ]}]
         else mret []);
      more ← local_entries dir prefix root rest;
      mret (here ++ more)
  end.

(** The outer loop: the triples [os.walk] yields, in order. *)
Fixpoint local_walk (dir prefix : string)
    (triples : list (string * list string * list string)) : ML (list pyval) :=
  match triples with
  | [] => mret []
  | (root, _, filenames) :: rest =>
      here ← local_entries dir prefix root filenames;
      more ← local_walk dir prefix rest;
      mret (here ++ more)
  end.

Definition local_list_files (prefix : string) : ML dict :=
  try_except
    (self ← get_self;
     triples ← ask_or_raise (os_walk (storage_dir self));
     files ← local_walk (storage_dir self) prefix triples;
     mret (files_result files))
    (fun e =>
       log ERROR ("Local list failed: " +:+ exn_msg e);;
       mret (error_result (exn_msg e))).

End Local.

Section Manager.
Context {World : Type} `{Host World}.

Local Abbreviation MS := (M World StorageManager).

(** [StorageManager()]. *)
Definition new_StorageManager {Self} : M World Self StorageManager :=
  r2 ← new_CloudflareR2Service;
  local_ ← new_LocalStorageService "./storage";
  let primary := if is_available r2 then TheR2Service else TheLocalService in
  log INFO ("Using " +:+ (if is_available r2 then "Cloudflare R2" else "local")
            +:+ " storage");;
  mret {| r2_service := r2; local_service := local_; primary_service := primary |}.

Definition on_r2 {A} (m : M World CloudflareR2Service A) : MS A :=
  on_field r2_service
    (fun o self => {| r2_service := o; local_service := local_service self;
                      primary_service := primary_service self |}) m.

Definition on_local {A} (m : M World LocalStorageService A) : MS A :=
  on_field local_service
    (fun o self => {| r2_service := r2_service self; local_service := o;
                      primary_service := primary_service self |}) m.

(** [self.primary_service.method(...)]. *)
Definition on_primary {A} (r2_method : M World CloudflareR2Service A)
    (local_method : M World LocalStorageService A) : MS A :=
  self ← get_self;
  match primary_service self with
  | TheR2Service => on_r2 r2_method
  | TheLocalService => on_local local_method
  end.

Definition upload_file (local_path remote_key : string)
    (metadata : option dict) : MS dict :=
  on_primary (r2_upload_file local_path remote_key metadata)
    (local_upload_file local_path remote_key metadata).

Definition generate_signed_url (remote_key : string) (expiration : Z) : MS dict :=
  on_primary (r2_generate_signed_url remote_key expiration)
    (local_generate_signed_url remote_key expiration).

Definition delete_file (remote_key : string) : MS dict :=
  on_primary (r2_delete_file remote_key) (local_delete_file remote_key).

Definition list_files (prefix : string) : MS dict :=
  on_primary (r2_list_files prefix) (local_list_files prefix).

Definition get_storage_type (self : StorageManager) : string :=
  if is_available (r2_service self) then "cloudflare_r2" else "local".

End Manager.

End Storage.

(* ===================================================================== *)
(** * ai_services.py *)
(* ===================================================================== *)

Module AI.

(** [class SpeechToTextService]. *)
Record SpeechToTextService : Type := {
  model : option whisper_model;
  model_name : string
}.

(** [class TranslationService]. *)
Record TranslationService : Type := { client : option service_client }.

(** [class TextToSpeechService]. *)
Record TextToSpeechService : Type := {
  google_client : option service_client;
  aws_client : option service_client
}.

(** [class AIWorkflowService]. *)
Record AIWorkflowService : Type := {
  stt_service : SpeechToTextService;
  translation_service : TranslationService;
  tts_service : TextToSpeechService
}.

Section SpeechToText.
Context {World : Type} `{Host World}.

Local Abbreviation MT := (M World SpeechToTextService).

(** [SpeechToTextService()]. *)
Definition new_SpeechToTextService : SpeechToTextService :=
  {| model := None; model_name := "base" |}.

Definition load_model (name : string) : MT bool :=
  try_except
    (self ← get_self;
     (if match model self with None => true | Some _ => false end
         || negb (String.eqb (model_name self) name)
      then
        log INFO ("Loading Whisper model: " +:+ name);;
        external (WhisperLoadModel name) (whisper_load_model name);;
        self ← get_self;
        set_self {| model := Some {| loaded_name := name |};
                    model_name := model_name self |};;
        self ← get_self;
        set_self {| model := model self; model_name := name |}
      else mret tt);;
     mret true)
    (fun e =>
       log ERROR ("Failed to load Whisper model: " +:+ exn_msg e);;
       mret false).

(** The loop that copies the timestamped segments of the result. *)
Fixpoint copy_segments (raw : list pyval) : outcome (list pyval) :=
  match raw with
  | [] => Ret []
  | segment :: rest =>
      obind (getitem segment "start") (fun start =>
      obind (getitem segment "end") (fun end_ =>
      obind (getitem segment "text") (fun text =>
      obind (strip_ws_method text) (fun text =>
      obind (copy_segments rest) (fun segments =>
      Ret (PDict {[ "start" := start; "end" := end_; "text" := text ]}
           :: segments))))))
  end.

(** [segments[-1]["end"] if segments else 0]. *)
Definition duration_of (segments : list pyval) : outcome pyval :=
  match last segments with
  | Some segment => getitem segment "end"
  | None => Ret (PInt 0)
  end.

Definition transcribe_audio (audio_path : string) (language : option string)
    (name : string) : MT dict :=
  try_except
    (present ← path_exists audio_path;
     (if present : bool then mret tt
      else raise (new_exn FileNotFoundError
                    ("Audio file not found: " +:+ audio_path)));;
     loaded ← load_model name;
     (if loaded : bool then mret tt
      else raise (new_exn Exception_ "Failed to load Whisper model"));;
     log INFO ("Transcribing audio: " +:+ audio_path);;
     let options : dict :=
       if truthy_str language && negb (String.eqb (str_opt language) "auto")
       then {[ "language" := opt_val language ]}
       else ∅ in
     self ← get_self;
     result ←
       match model self with
       | Some m =>
           external (WhisperTranscribe m audio_path options)
             (whisper_transcribe m audio_path options)
       | None =>
           raise (new_exn AttributeError
                    "'NoneType' object has no attribute 'transcribe'")
       end;
     raw ← lift (get_method result "segments" (PList []));
     raw ← lift (iterate raw);
     segments ← lift (copy_segments raw);
     text ← lift (getitem result "text");
     text ← lift (strip_ws_method text);
     language ← lift (get_method result "language" (PStr "unknown"));
     duration ← lift (duration_of segments);
     mret ({[ "text" := text;
              "language" := language;
              "segments" := PList segments;
              "duration" := duration ]} : dict))
    (fun e =>
       log ERROR ("Transcription failed: " +:+ exn_msg e);;
       mret (error_result (exn_msg e))).

End SpeechToText.

Section Translation.
Context {World : Type} `{Host World}.

Local Abbreviation MT := (M World TranslationService).

Definition translation_initialize_client : MT unit :=
  try_except
    (env ← ask environ;
     let credentials_path := env !! "GOOGLE_APPLICATION_CREDENTIALS" in
     present ←
       (if truthy_str credentials_path
        then path_exists (str_opt credentials_path) else mret false);
     if truthy_str credentials_path && present then
       external (NewClient GoogleTranslate) (new_client GoogleTranslate);;
       set_self {| client := Some GoogleTranslate |};;
       log INFO "Google Translate client initialized"
     else
       log WARNING "Google Translate credentials not found")
    (fun e =>
       log ERROR ("Failed to initialize Google Translate client: " +:+ exn_msg e)).

(** [TranslationService()]. *)
Definition new_TranslationService {Self} : M World Self TranslationService :=
  construct {| client := None |} translation_initialize_client.

Definition translate_text (text : pyval) (target_language : string)
    (source_language : option string) : MT dict :=
  try_except
    (self ← get_self;
     match client self with
     | None => mret (error_result "Google Translate client not available")
     | Some _ =>
         log INFO ("Translating text to " +:+ target_language);;
         result ← external
                    (TranslateCall text target_language (opt_val source_language))
                    (translate_call text target_language (opt_val source_language));
         translated ← lift (getitem result "translatedText");
         detected ← lift (get_method result "detectedSourceLanguage"
                            (opt_val source_language));
         mret ({[ "translated_text" := translated;
                  "source_language" := detected;
                  "target_language" := PStr target_language;
                  "original_text" := text ]} : dict)
     end)
    (fun e =>
       log ERROR ("Translation failed: " +:+ exn_msg e);;
       mret (error_result (exn_msg e))).

End Translation.

Section TextToSpeech.
Context {World : Type} `{Host World}.

Local Abbreviation MT := (M World TextToSpeechService).

Definition _initialize_clients : MT unit :=
  try_except
    (env ← ask environ;
     let credentials_path := env !! "GOOGLE_APPLICATION_CREDENTIALS" in
     present ←
       (if truthy_str credentials_path
        then path_exists (str_opt credentials_path) else mret false);
     (if truthy_str credentials_path && present then
        external (NewClient GoogleTTS) (new_client GoogleTTS);;
        self ← get_self;
        set_self {| google_client := Some GoogleTTS; aws_client := aws_client self |};;
        log INFO "Google TTS client initialized"
      else mret tt);;
     let aws_access_key := env !! "AWS_ACCESS_KEY_ID" in
     let aws_secret_key := env !! "AWS_SECRET_ACCESS_KEY" in
     let aws_region := default "us-east-1" (env !! "AWS_DEFAULT_REGION") in
     if truthy_str aws_access_key && truthy_str aws_secret_key then
       let c := AwsPolly (str_opt aws_access_key) (str_opt aws_secret_key) aws_region in
       external (NewClient c) (new_client c);;
       self ← get_self;
       set_self {| google_client := google_client self; aws_client := Some c |};;
       log INFO "AWS Polly client initialized"
     else mret tt)
    (fun e =>
       log ERROR ("Failed to initialize TTS clients: " +:+ exn_msg e)).

(** [TextToSpeechService()]. *)
Definition new_TextToSpeechService {Self} : M World Self TextToSpeechService :=
  construct {| google_client := None; aws_client := None |} _initialize_clients.

(** [if not output_path: output_path = tempfile.mktemp(suffix=".mp3")]. *)
Definition output_path_or_temp (output_path : option string) : MT string :=
  if truthy_str output_path then mret (str_opt output_path)
  else external (TempfileMktemp ".mp3") (tempfile_mktemp ".mp3").

Definition _google_tts (text : pyval) (language : string)
    (voice output_path : option string) : MT dict :=
  try_except
    (let name := if truthy_str voice then opt_val voice else PNone in
     audio_content ← external (GoogleSynthesize text language name)
                       (google_synthesize text language name);
     output_path ← output_path_or_temp output_path;
     external (FileWrite output_path audio_content)
       (file_write output_path audio_content);;
     mret ({[ "audio_path" := PStr output_path;
              "provider" := PStr "google";
              "language" := PStr language;
              "voice" := opt_val voice;
              "text" := text ]} : dict))
    (fun e =>
       log ERROR ("Google TTS failed: " +:+ exn_msg e);;
       raise e).

(** [voice or default]. *)
Definition voice_or (voice : option string) (default : string) : string :=
  if truthy_str voice then str_opt voice else default.

(** The [polly_voices] table looked up at [language]. *)
Definition polly_voice_id (language : string) (voice : option string) : string :=
  if String.eqb language "en" then voice_or voice "Joanna"
  else if String.eqb language "hi" then voice_or voice "Aditi"
  else if String.eqb language "es" then voice_or voice "Penelope"
  else if String.eqb language "fr" then voice_or voice "Celine"
  else if String.eqb language "de" then voice_or voice "Marlene"
  else "Joanna".

Definition _aws_polly_tts (text : pyval) (language : string)
    (voice output_path : option string) : MT dict :=
  try_except
    (let voice_id := polly_voice_id language voice in
     audio ← external (PollySynthesize text voice_id)
               (polly_synthesize text voice_id);
     output_path ← output_path_or_temp output_path;
     external (FileWrite output_path audio) (file_write output_path audio);;
     mret ({[ "audio_path" := PStr output_path;
              "provider" := PStr "aws";
              "language" := PStr language;
              "voice" := PStr voice_id;
              "text" := text ]} : dict))
    (fun e =>
       log ERROR ("AWS Polly TTS failed: " +:+ exn_msg e);;
       raise e).

Definition synthesize_speech (text : pyval) (language : string)
    (voice : option string) (provider : string) (output_path : option string)
    : MT dict :=
  try_except
    (self ← get_self;
     if String.eqb provider "google"
        && match google_client self with Some _ => true | None => false end
     then _google_tts text language voice output_path
     else if String.eqb provider "aws"
             && match aws_client self with Some _ => true | None => false end
     then _aws_polly_tts text language voice output_path
     else mret (error_result
                  ("TTS provider '" +:+ provider +:+ "' not available")))
    (fun e =>
       log ERROR ("Speech synthesis failed: " +:+ exn_msg e);;
       mret (error_result (exn_msg e))).

End TextToSpeech.

Section Workflow.
Context {World : Type} `{Host World}.

Local Abbreviation MW := (M World AIWorkflowService).

(** [AIWorkflowService()]. *)
Definition new_AIWorkflowService {Self} : M World Self AIWorkflowService :=
  let stt := new_SpeechToTextService in
  translation ← new_TranslationService;
  tts ← new_TextToSpeechService;
  mret {| stt_service := stt; translation_service := translation;
          tts_service := tts |}.

Definition on_stt {A} (m : M World SpeechToTextService A) : MW A :=
  on_field stt_service
    (fun o self => {| stt_service := o;
                      translation_service := translation_service self;
                      tts_service := tts_service self |}) m.

Definition on_translation {A} (m : M World TranslationService A) : MW A :=
  on_field translation_service
    (fun o self => {| stt_service := stt_service self;
                      translation_service := o;
                      tts_service := tts_service self |}) m.

Definition on_tts {A} (m : M World TextToSpeechService A) : MW A :=
  on_field tts_service
    (fun o self => {| stt_service := stt_service self;
                      translation_service := translation_service self;
                      tts_service := o |}) m.

(** [{"error": f"{stage} failed: {result['error']}"}]. *)
Definition stage_error (label : string) (result : dict) : outcome dict :=
  obind (dict_item result "error") (fun err =>
  Ret (error_result (label +:+ " failed: " +:+ str_ err))).

Definition process_audio_workflow (audio_path target_language : string)
    (task_id : option string) : MW dict :=
  try_except
    (log INFO ("Starting AI workflow for task " +:+ str_opt task_id);;
     transcription ← await_stage "transcribe_audio"
                       (on_stt (transcribe_audio audio_path None "base"));
     if dict_has transcription "error" then
       lift (stage_error "Transcription" transcription)
     else
       text ← lift (dict_item transcription "text");
       translation ← await_stage "translate_text"
                       (on_translation (translate_text text target_language None));
       if dict_has translation "error" then
         lift (stage_error "Translation" translation)
       else
         let output_path :=
           if truthy_str task_id
           then Some ("./processed/" +:+ str_opt task_id +:+ "_translated_audio.mp3")
           else None in
         translated ← lift (dict_item translation "translated_text");
         synthesis ← await_stage "synthesize_speech"
                       (on_tts (synthesize_speech translated target_language
                                  None "google" output_path));
         if dict_has synthesis "error" then
           lift (stage_error "Speech synthesis" synthesis)
         else
           original_text ← lift (dict_item transcription "text");
           translated_text ← lift (dict_item translation "translated_text");
           source_language ← lift (dict_item transcription "language");
           output_audio ← lift (dict_item synthesis "audio_path");
           mret ({[ "task_id" := opt_val task_id;
                    "status" := PStr "completed";
                    "original_text" := original_text;
                    "translated_text" := translated_text;
                    "source_language" := source_language;
                    "target_language" := PStr target_language;
                    "output_audio" := output_audio;
                    "segments" := dict_get transcription "segments" (PList []) ]}
                 : dict))
    (fun e =>
       log ERROR ("AI workflow failed: " +:+ exn_msg e);;
       mret (error_result (exn_msg e))).

End Workflow.

End AI.

(* ===================================================================== *)
(** * The vocabulary of the statements *)
(* ===================================================================== *)

Module Spec.

(** ** Projections of a trace *)

Definition is_step (e : event) : bool :=
  match e with
  | EInvoke _ _ _ | EOutcome _ _ => true
  | _ => false
  end.

(** The pipeline steps of a trace: which operations were awaited, on what,
    and how each ended. *)
Definition steps (t : list event) : list event := List.filter is_step t.

(** The names of the operations awaited, in order, with repetitions. *)
Fixpoint invoked (t : list event) : list string :=
  match t with
  | [] => []
  | EInvoke operation _ _ :: t' => operation :: invoked t'
  | _ :: t' => invoked t'
  end.

(** The external calls of a trace, in order. *)
Fixpoint calls (t : list event) : list call :=
  match t with
  | [] => []
  | ECall c :: t' => c :: calls t'
  | _ :: t' => calls t'
  end.

(** The FFmpeg commands run, in order. *)
Fixpoint ffmpeg_runs (t : list event) : list ffmpeg_output :=
  match t with
  | [] => []
  | ECall (FfmpegRun o) :: t' => o :: ffmpeg_runs t'
  | _ :: t' => ffmpeg_runs t'
  end.

Definition is_stage (e : event) : bool :=
  match e with
  | EAwait _ | EReturned _ _ => true
  | _ => false
  end.

(** The workflow stages of a trace. *)
Definition stages (t : list event) : list event := List.filter is_stage t.

(** The names of the stages awaited, in order. *)
Fixpoint awaited (t : list event) : list string :=
  match t with
  | [] => []
  | EAwait stage :: t' => stage :: awaited t'
  | _ :: t' => awaited t'
  end.

(** The warnings of a trace, in order. *)
Fixpoint warnings (t : list event) : list string :=
  match t with
  | [] => []
  | ELog WARNING msg :: t' => msg :: warnings t'
  | _ :: t' => warnings t'
  end.

(** ** The shape of a pipeline run *)

Section Chain.
Variable defined : string -> bool.
Variable output_path_of : string -> nat -> string.

(** [chained i ops cur g fin]: [g] is the list of steps of a run over
    [ops], numbered from [i], started on [cur].  An undefined name leaves
    no step and passes [cur] on; a defined one is awaited once, on the
    current input and on the output path of its name and index, and what
    it returns is the input of the rest; the run stops at the first
    operation that raises.  [fin] is the last value of the current input,
    or the exception that stopped the run. *)
Inductive chained
    : nat -> list string -> string -> list event -> outcome string -> Prop :=
  | chained_nil i cur :
      chained i [] cur [] (Ret cur)
  | chained_skip i operation rest cur g fin :
      defined operation = false ->
      chained (S i) rest cur g fin ->
      chained i (operation :: rest) cur g fin
  | chained_ok i operation rest cur returned g fin :
      defined operation = true ->
      chained (S i) rest returned g fin ->
      chained i (operation :: rest) cur
        (EInvoke operation cur (output_path_of operation i)
         :: EOutcome operation (Ret returned) :: g)
        fin
  | chained_fail i operation rest cur e :
      defined operation = true ->
      chained i (operation :: rest) cur
        [EInvoke operation cur (output_path_of operation i);
         EOutcome operation (Raise e)]
        (Raise e).
End Chain.

(** ** The execution algorithm over an operation registry *)

Section Executor.
Context {World Self : Type} `{Host World}.

(** An operation: [(current_path, output_path, parameters) -> new_path]. *)
Definition operation : Type :=
  string -> string -> dict -> M World Self string.

Variable registry : string -> option operation.
Variable output_path_of : Self -> string -> string -> nat -> string.

(** Follows the words of the specification (section 4.2): for each step
    in order, compute the output path from the task id, the operation
    name and the step index; invoke the operation with the current input
    and the parameters; on success its output is the next input; an
    unknown name is skipped with a logged warning and the current input
    is left as it is. *)
Fixpoint spec_execute (task_id : string) (parameters : dict) (i : nat)
    (operations : list string) (current_input : string)
    : M World Self string :=
  match operations with
  | [] => mret current_input
  | name :: rest =>
      self ← get_self;
      let output_path := output_path_of self task_id name i in
      next ←
        match registry name with
        | Some op =>
            await_operation name current_input output_path
              (op current_input output_path parameters)
        | None =>
            log WARNING ("Unknown operation: " +:+ name);;
            mret current_input
        end;
      spec_execute task_id parameters (S i) rest next
  end.

Definition registered (name : string) : bool :=
  match registry name with
  | Some _ => true
  | None => false
  end.
End Executor.

Section Registries.
Context {World : Type} `{Host World}.

(** The operation registry of the audio pipeline. *)
Definition audio_registry (name : string)
    : option (@operation World Audio.AudioProcessor) :=
  if String.eqb name "noise_reduction" then Some Audio._noise_reduction
  else if String.eqb name "normalize_audio" then Some Audio._normalize_audio
  else if String.eqb name "change_speed" then Some Audio._change_speed
  else if String.eqb name "extract_segments" then Some Audio._extract_segments
  else None.

(** The operation registry of the video pipeline. *)
Definition video_registry (name : string)
    : option (@operation World Video.VideoProcessor) :=
  if String.eqb name "extract_audio" then Some Video._extract_audio
  else if String.eqb name "convert_format" then Some Video._convert_format
  else if String.eqb name "resize_video" then Some Video._resize_video
  else if String.eqb name "trim_video" then Some Video._trim_video
  else if String.eqb name "add_subtitles" then Some Video._add_subtitles
  else None.
End Registries.

(** Membership in a list of supported operation names. *)
Definition supported (names : list string) (name : string) : bool :=
  existsb (String.eqb name) names.

(** ** Computations that leave the object and the steps alone *)

Section Tame.
Context {World Self : Type}.

(** A computation is tame when it keeps [self] and leaves behind only
    log lines and external calls. *)
Definition tame {A} (m : M World Self A) : Prop :=
  forall s,
    self_obj (snd (m s)) = self_obj s /\
    exists evs, trace (snd (m s)) = trace s ++ evs /\
                steps evs = [] /\ stages evs = [].

(** Whatever a computation returns satisfies [P]; nothing is said of what
    it raises. *)
Definition yields {A} (P : A -> Prop) (m : M World Self A) : Prop :=
  forall s, match fst (m s) with
            | Ret a => P a
            | Raise _ => True
            end.

(** A computation is quiet when it leaves behind only log lines and
    external calls; it may assign to the attributes of [self]. *)
Definition quiet {A} (m : M World Self A) : Prop :=
  forall s,
    exists evs, trace (snd (m s)) = trace s ++ evs /\
                steps evs = [] /\ stages evs = [].


(** A computation always returns, and what it returns satisfies [P]. *)
Definition answers {A} (P : A -> Prop) (m : M World Self A) : Prop :=
  forall s, exists a, fst (m s) = Ret a /\ P a.

(** A computation always returns when no state makes it raise. *)
Definition returns {A} (m : M World Self A) : Prop :=
  forall s, exists a, fst (m s) = Ret a.
End Tame.

(** ** The shape of a workflow run *)

Section WorkflowShape.
Context {World : Type} `{Host World}.

End WorkflowShape.

(** A result dictionary is a success record or an error record. *)
Definition success_record (d : dict) : Prop :=
  d !! "success" = Some (PBool true) /\ d !! "error" = None.

Definition error_record (d : dict) : Prop :=
  (exists msg, d !! "error" = Some (PStr msg)) /\ d !! "success" = None.

End Spec.
Export Spec.

(* ===================================================================== *)
(** * The statements about the executors *)
(* ===================================================================== *)

Module Contracts.

Section Contracts.
Context {World : Type} `{Host World}.

(** ** Steps in order, each defined operation once *)



(** ** A failed step ends the job *)

(** Whatever an executor run left in [evs] and returned as [res]: it
    returned a dictionary; an operation that raised is the last step of
    the run and the dictionary is the failed record with its message;
    a completed record comes only from a run in which no operation
    raised. *)
Definition failure_aborts (task_id : string) (evs : list event)
    (res : outcome dict) : Prop :=
  exists d,
    res = Ret d /\
    (forall before name e after,
        steps evs = before ++ EOutcome name (Raise e) :: after ->
        after = [] /\ d = failed_result task_id (exn_msg e)) /\
    (d !! "status" = Some (PStr "completed") ->
     forall name e, ~ In (EOutcome name (Raise e)) evs).

(** ** The empty pipeline *)

(** Whatever a run on an empty operation list left in [evs] and returned
    as [res]: the completed record of the input path itself, after no
    step and no external call but the probe of that path. *)
Definition identity_run (task_id input_path : string) (evs : list event)
    (res : outcome dict) : Prop :=
  exists info,
    res = Ret (completed_result task_id input_path [] info) /\
    completed_result task_id input_path [] info !! "output_path"
    = Some (PStr input_path) /\
    steps evs = [] /\
    calls evs = [FfmpegProbe input_path].

(** ** Structured results *)

(** What a storage operation hands back: it returned, and what it returned
    is a success record or an error record. *)
Definition structured (res : outcome dict) : Prop :=
  exists d, res = Ret d /\ (success_record d \/ error_record d).

(** ** Transcription *)

(** The [duration] of a transcription result is the [end] of the last of
    its [segments], and the integer 0 when it has no segment. *)
Definition duration_is_last_end (d : dict) : Prop :=
  exists segments,
    d !! "segments" = Some (PList segments) /\
    match last segments with
    | Some segment =>
        exists end_, getitem segment "end" = Ret end_ /\
                     d !! "duration" = Some end_
    | None => d !! "duration" = Some (PInt 0)
    end.

(** What the three stages of the workflow hand back when they report no
    error. *)
Definition transcription_shape (d : dict) : Prop :=
  d !! "error" = None ->
  is_Some (d !! "text") /\ is_Some (d !! "language") /\ duration_is_last_end d.

Definition translation_shape (d : dict) : Prop :=
  d !! "error" = None -> is_Some (d !! "translated_text").

Definition synthesis_shape (d : dict) : Prop :=
  d !! "error" = None -> is_Some (d !! "audio_path").

(** ** Backend selection *)

(** The four credentials of the remote backend, as read from the
    environment of a world. *)
Definition credentials (w : World) : list (option string) :=
  [environ w !! "CLOUDFLARE_ACCOUNT_ID";
   environ w !! "CLOUDFLARE_R2_ACCESS_KEY_ID";
   environ w !! "CLOUDFLARE_R2_SECRET_ACCESS_KEY";
   environ w !! "CLOUDFLARE_R2_BUCKET_NAME"].

(** The client [_initialize_client] builds from them. *)
Definition r2_client_of (w : World) : s3_client :=
  {| endpoint_url := "https://" +:+ str_opt (environ w !! "CLOUDFLARE_ACCOUNT_ID")
                     +:+ ".r2.cloudflarestorage.com";
     aws_access_key_id := str_opt (environ w !! "CLOUDFLARE_R2_ACCESS_KEY_ID");
     aws_secret_access_key := str_opt (environ w !! "CLOUDFLARE_R2_SECRET_ACCESS_KEY") |}.

Definition r2_bucket_of (w : World) : pyval :=
  opt_val (environ w !! "CLOUDFLARE_R2_BUCKET_NAME").

(** ** The fallbacks of the audio operations *)

(** The fallback of [_noise_reduction] ran once in the run of the
    operation from [s], after the primary method left the state [s1], and
    the operation ended as the fallback command did. *)
Definition noise_fallback_once (input_path output_path : string)
    (params : dict) (s s1 : state World Audio.AudioProcessor) : Prop :=
  let run := Audio._noise_reduction input_path output_path params s in
  let fallback := Audio._fallback_noise_reduction_cmd input_path output_path in
  exists evs,
    trace (snd run) = trace s ++ evs /\
    ffmpeg_runs evs = [fallback] /\
    fst run = match ffmpeg_run fallback (world s1) with
              | (Ret _, _) => Ret output_path
              | (Raise e, _) => Raise e
              end.

(** The fallback of [_normalize_audio] ran once in the run of the
    operation from [s], after the primary command left the world [w1],
    and the operation ended as the fallback command did. *)
Definition normalize_fallback_once (input_path output_path : string)
    (params : dict) (s : state World Audio.AudioProcessor) (w1 : World) : Prop :=
  let run := Audio._normalize_audio input_path output_path params s in
  let fallback :=
    Audio._fallback_normalize_cmd input_path output_path
      (dict_get params "volume_level" (PFloat 1.5)) in
  exists evs,
    trace (snd run) = trace s ++ evs /\
    ffmpeg_runs evs
    = [Audio._normalize_audio_cmd input_path output_path; fallback] /\
    fst run = match ffmpeg_run fallback w1 with
              | (Ret _, _) => Ret output_path
              | (Raise e, _) => Raise e
              end.

(** [_noise_reduction] raised [e] again and ran no FFmpeg command. *)
Definition noise_reraised (input_path output_path : string) (params : dict)
    (s : state World Audio.AudioProcessor) (e : exn) : Prop :=
  let run := Audio._noise_reduction input_path output_path params s in
  exists evs,
    trace (snd run) = trace s ++ evs /\
    ffmpeg_runs evs = [] /\
    fst run = Raise e.

(** In a run of [process_audio], an operation that raised makes the job
    report failed, with the message of what it raised. *)
Definition failed_step_fails_job (input_path task_id : string)
    (operations : list string) (parameters : option dict)
    (s : state World Audio.AudioProcessor) : Prop :=
  let run := Audio.process_audio input_path task_id operations parameters s in
  exists evs,
    trace (snd run) = trace s ++ evs /\
    forall name e,
      In (EOutcome name (Raise e)) evs ->
      fst run = Ret (failed_result task_id (exn_msg e)).

(** The claim as it is written, for [_noise_reduction] from [s]: whenever
    the primary method fails, the fallback command is run exactly once. *)
Definition fallback_after_any_failure (input_path output_path : string)
    (params : dict) (s : state World Audio.AudioProcessor) : Prop :=
  forall e,
    fst (Audio.noise_reduction_primary input_path output_path params s) = Raise e ->
    exists evs,
      trace (snd (Audio._noise_reduction input_path output_path params s))
      = trace s ++ evs /\
      ffmpeg_runs evs
      = [Audio._fallback_noise_reduction_cmd input_path output_path].

End Contracts.

End Contracts.
Export Contracts.

(* ===================================================================== *)
(** * A scripted host *)
(* ===================================================================== *)

(** A small, fully specified host on which the models run by computation:
    a set of existing paths, an environment, and the answers the external
    tools will give. *)
Module Demo.

Record demo_world : Type := {
  files : list string;
  env_vars : gmap string string;
  (** what every SoX run answers *)
  sox_result : outcome unit;
  (** how many of the next FFmpeg runs fail *)
  ffmpeg_failures : nat;
  probe_doc : outcome pyval;
  bucket_reachable : bool;
  whisper_result : outcome pyval;
  translate_result : outcome pyval
}.

Definition has_file (p : string) (w : demo_world) : bool :=
  existsb (String.eqb p) (files w).

Definition with_files (fs : list string) (w : demo_world) : demo_world :=
  {| files := fs; env_vars := env_vars w; sox_result := sox_result w;
     ffmpeg_failures := ffmpeg_failures w; probe_doc := probe_doc w;
     bucket_reachable := bucket_reachable w; whisper_result := whisper_result w;
     translate_result := translate_result w |}.

Definition with_failures (n : nat) (w : demo_world) : demo_world :=
  {| files := files w; env_vars := env_vars w; sox_result := sox_result w;
     ffmpeg_failures := n; probe_doc := probe_doc w;
     bucket_reachable := bucket_reachable w; whisper_result := whisper_result w;
     translate_result := translate_result w |}.

Definition not_found (p : string) : exn :=
  new_exn FileNotFoundError ("[Errno 2] No such file or directory: '" +:+ p +:+ "'").

(** What [.run(quiet=True)] raises when FFmpeg exits with an error. *)
Definition ffmpeg_failed : exn :=
  new_exn FfmpegError "ffmpeg error (see stderr output for detail)".

Definition client_error (operation : string) : exn :=
  new_exn ClientError
    ("An error occurred (404) when calling the " +:+ operation
     +:+ " operation: Not Found").

(** The reversed path without its last extension, if it has one. *)
Fixpoint cut_ext_rev (r : string) : option string :=
  match r with
  | EmptyString => None
  | String c r' =>
      if Ascii.eqb c "."%char then Some r'
      else if Ascii.eqb c "/"%char then None
      else cut_ext_rev r'
  end.

Definition demo_with_suffix (p suffix : string) : outcome string :=
  match cut_ext_rev (String.rev p) with
  | Some r => Ret (String.rev r +:+ suffix)
  | None => Ret (p +:+ suffix)
  end.

(** The reversed path from its last slash on. *)
Fixpoint cut_name_rev (r : string) : string :=
  match r with
  | EmptyString => EmptyString
  | String c r' => if Ascii.eqb c "/"%char then r' else cut_name_rev r'
  end.

Definition demo_dirname (p : string) : string :=
  String.rev (cut_name_rev (String.rev p)).

Definition demo_relpath (p start : string) : string :=
  if startswith p (start +:+ "/")
  then String.substring (String.length start + 1)
         (String.length p - (String.length start + 1)) p
  else p.

Definition demo_guess_type (p : string) : option string :=
  if endswith p ".mp3" then Some "audio/mpeg"
  else if endswith p ".wav" then Some "audio/x-wav"
  else if endswith p ".mp4" then Some "video/mp4"
  else if endswith p ".txt" then Some "text/plain"
  else None.

Definition on_bucket {A} (operation : string) (a : A) (w : demo_world)
    : outcome A * demo_world :=
  if bucket_reachable w then (Ret a, w) else (Raise (client_error operation), w).

#[global] Instance demo_host : Host demo_world := {|
  os_path_exists := has_file;
  os_path_exists_obj := fun _ _ => Ret false;
  os_remove := fun p w =>
    if has_file p w
    then (Ret tt, with_files (List.filter (fun q => negb (String.eqb p q)) (files w)) w)
    else (Raise (not_found p), w);
  subprocess_run := fun _ w => (sox_result w, w);
  ffmpeg_run := fun o w =>
    match ffmpeg_failures w with
    | O => (Ret tt, with_files (ff_path o :: files w) w)
    | S n => (Raise ffmpeg_failed, with_failures n w)
    end;
  ffmpeg_probe := fun _ w => (probe_doc w, w);
  builtin_str := fun _ => "<object>";
  builtin_float := fun v => Ret v;
  builtin_int := fun v => Ret v;
  builtin_eval := fun v => Ret v;
  pathlib_with_suffix := demo_with_suffix;
  os_makedirs := fun _ w => (Ret tt, w);
  shutil_copy2 := fun src dst w =>
    if has_file src w then (Ret tt, with_files (dst :: files w) w)
    else (Raise (not_found src), w);
  os_path_getsize := fun p w =>
    if has_file p w then Ret 1024%Z else Raise (not_found p);
  os_path_dirname := demo_dirname;
  os_path_relpath := fun p start _ => Ret (demo_relpath p start);
  os_walk := fun top w =>
    Ret [(top, [],
          map (fun p => demo_relpath p top)
            (List.filter (fun p => startswith p (top +:+ "/")) (files w)))];
  os_stat := fun p w =>
    if has_file p w then Ret (1024%Z, "2024-01-01T00:00:00")
    else Raise (not_found p);
  file_write := fun p _ w => (Ret tt, with_files (p :: files w) w);
  tempfile_mktemp := fun suffix w => (Ret ("/tmp/tmp0" +:+ suffix), w);
  mimetypes_guess_type := demo_guess_type;
  environ := env_vars;
  expires_at := fun _ _ => Ret "2024-01-01T01:00:00";
  isoformat := fun _ => Ret (PStr "2024-01-01T00:00:00");
  boto3_client := fun _ w => (Ret tt, w);
  s3_head_bucket := fun _ _ => on_bucket "HeadBucket" tt;
  s3_upload_fileobj := fun _ _ _ => on_bucket "PutObject" tt;
  s3_generate_presigned_url := fun c _ key _ w =>
    (Ret (endpoint_url c +:+ "/" +:+ key +:+ "?X-Amz-Signature=0"), w);
  s3_delete_object := fun _ _ _ => on_bucket "DeleteObject" tt;
  s3_list_objects_v2 := fun _ _ _ =>
    on_bucket "ListObjectsV2" (PDict {[ "KeyCount" := PInt 0 ]});
  whisper_load_model := fun _ w => (Ret tt, w);
  whisper_transcribe := fun _ _ _ w => (whisper_result w, w);
  new_client := fun _ w => (Ret tt, w);
  translate_call := fun _ _ _ w => (translate_result w, w);
  google_synthesize := fun _ _ _ w => (Ret (PStr "ID3"), w);
  polly_synthesize := fun _ _ w => (Ret (PStr "ID3"), w)
|}.

(** The probe document of a ten-second mono recording. *)
Definition wav_probe : pyval :=
  PDict {[ "format" := PDict {[ "duration" := PStr "10.000000";
                                "size" := PStr "882044";
                                "format_name" := PStr "wav";
                                "bit_rate" := PStr "705635" ]};
           "streams" := PList [PDict {[ "codec_type" := PStr "audio";
                                        "codec_name" := PStr "pcm_s16le";
                                        "sample_rate" := PStr "44100";
                                        "channels" := PInt 1 ]}] ]}.

(** What the speech model answers: two timestamped segments. *)
Definition two_segments : pyval :=
  PDict {[ "text" := PStr " hello world ";
           "language" := PStr "en";
           "segments" :=
             PList [PDict {[ "start" := PFloat 0; "end" := PFloat 2.5;
                             "text" := PStr " hello" ]};
                    PDict {[ "start" := PFloat 2.5; "end" := PFloat 4;
                             "text" := PStr " world " ]}] ]}.

(** A world with one recording, no credentials and tools that work. *)
Definition studio : demo_world :=
  {| files := ["in.wav"];
     env_vars := ∅;
     sox_result := Ret tt;
     ffmpeg_failures := 0;
     probe_doc := Ret wav_probe;
     bucket_reachable := false;
     whisper_result := Ret two_segments;
     translate_result := Ret (PDict {[ "translatedText" := PStr "namaste duniya" ]}) |}.

(** What [subprocess.run(..., check=True)] raises when SoX exits with
    status 2. *)
Definition sox_exit_status : exn :=
  {| exn_cls := CalledProcessError;
     exn_msg := "Command '['sox', 'in.wav']' returned non-zero exit status 2.";
     exn_stderr := "sox FAIL formats: no handler for file extension" |}.

(** The same world where SoX exits with a non-zero status. *)
Definition studio_without_sox : demo_world :=
  {| files := ["in.wav"];
     env_vars := ∅;
     sox_result := Raise sox_exit_status;
     ffmpeg_failures := 0;
     probe_doc := Ret wav_probe;
     bucket_reachable := false;
     whisper_result := Ret two_segments;
     translate_result := Ret (PDict {[ "translatedText" := PStr "namaste duniya" ]}) |}.

(** What [subprocess.run] raises when there is no [sox] executable. *)
Definition sox_not_installed : exn :=
  new_exn FileNotFoundError "[Errno 2] No such file or directory: 'sox'".

(** The studio on a machine where SoX is not installed. *)
Definition studio_missing_sox : demo_world :=
  {| files := ["in.wav"];
     env_vars := ∅;
     sox_result := Raise sox_not_installed;
     ffmpeg_failures := 0;
     probe_doc := Ret wav_probe;
     bucket_reachable := false;
     whisper_result := Ret two_segments;
     translate_result := Ret (PDict {[ "translatedText" := PStr "namaste duniya" ]}) |}.

(** The studio where the next FFmpeg run fails and the one after works. *)
Definition studio_flaky_ffmpeg : demo_world := with_failures 1 studio.

(** The full credential set of the object store. *)
Definition r2_credentials : gmap string string :=
  {[ "CLOUDFLARE_ACCOUNT_ID" := "acc0";
     "CLOUDFLARE_R2_ACCESS_KEY_ID" := "key0";
     "CLOUDFLARE_R2_SECRET_ACCESS_KEY" := "secret0";
     "CLOUDFLARE_R2_BUCKET_NAME" := "media" ]}.

(** A world with the full credential set whose bucket does not answer. *)
Definition unreachable_bucket : demo_world :=
  {| files := ["in.wav"];
     env_vars := r2_credentials;
     sox_result := Ret tt;
     ffmpeg_failures := 0;
     probe_doc := Ret wav_probe;
     bucket_reachable := false;
     whisper_result := Ret two_segments;
     translate_result := Ret (PDict {[ "translatedText" := PStr "namaste duniya" ]}) |}.

(** The byte string with the given byte values. *)
Definition bytes_of (codes : list nat) : string :=
  string_of_list_ascii (map ascii_of_nat codes).

Definition start {Self} (o : Self) (w : demo_world) : state demo_world Self :=
  mk_state o w [].

(** A speech-to-text service in the studio, no model loaded yet. *)
Definition stt_studio : state demo_world AI.SpeechToTextService :=
  start AI.new_SpeechToTextService studio.

(** What [transcribe_audio] makes of [two_segments]. *)
Definition transcript : dict :=
  {[ "text" := PStr "hello world";
     "language" := PStr "en";
     "segments" :=
       PList [PDict {[ "start" := PFloat 0; "end" := PFloat 2.5;
                       "text" := PStr "hello" ]};
              PDict {[ "start" := PFloat 2.5; "end" := PFloat 4;
                       "text" := PStr "world" ]}];
     "duration" := PFloat 4 ]}.

(** An audio and a video processor in the studio, nothing run yet. *)
Definition audio_studio : state demo_world Audio.AudioProcessor :=
  start {| Audio.output_dir := "./processed" |} studio.

Definition video_studio : state demo_world Video.VideoProcessor :=
  start {| Video.output_dir := "./processed" |} studio.

(** The audio processor where SoX exits with an error, where the next
    FFmpeg run fails, and where SoX is not installed. *)
Definition audio_failing_sox : state demo_world Audio.AudioProcessor :=
  start {| Audio.output_dir := "./processed" |} studio_without_sox.

Definition audio_flaky_ffmpeg : state demo_world Audio.AudioProcessor :=
  start {| Audio.output_dir := "./processed" |} studio_flaky_ffmpeg.

Definition audio_missing_sox : state demo_world Audio.AudioProcessor :=
  start {| Audio.output_dir := "./processed" |} studio_missing_sox.

End Demo.

(* ===================================================================== *)
(** * Further vocabulary: calls, job records, output paths *)
(* ===================================================================== *)

Module Props.

Section Calls.
Context {World Self : Type}.

(** Run from [s], every external call a computation makes satisfies
    [P], however it ends. *)
Definition calls_from (P : call -> bool) {A} (m : M World Self A)
    (s : state World Self) : Prop :=
  exists evs,
    trace (snd (m s)) = trace s ++ evs /\ forallb P (calls evs) = true.

(** The same from every state. *)
Definition calls_within (P : call -> bool) {A} (m : M World Self A) : Prop :=
  forall s, calls_from P m s.
End Calls.

(** The calls that reach the object store. *)
Definition is_object_store_call (c : call) : bool :=
  match c with
  | Boto3Client _ | S3HeadBucket _ _ | S3UploadFileobj _ _ _
  | S3GeneratePresignedUrl _ _ _ _ | S3DeleteObject _ _ _
  | S3ListObjectsV2 _ _ _ => true
  | _ => false
  end.

Definition not_object_store_call (c : call) : bool :=
  negb (is_object_store_call c).

(** Run from [s], a computation reaches no object store and leaves the
    object as it is. *)
Definition stays_local {World Self A : Type} (m : M World Self A)
    (s : state World Self) : Prop :=
  calls_from not_object_store_call m s /\ self_obj (snd (m s)) = self_obj s.

(** The calls that reach the translation or a synthesis back end. *)
Definition is_language_call (c : call) : bool :=
  match c with
  | TranslateCall _ _ _ | GoogleSynthesize _ _ _ | PollySynthesize _ _ => true
  | _ => false
  end.

Definition not_language_call (c : call) : bool :=
  negb (is_language_call c).

(** The calls that reach a synthesis back end. *)
Definition is_synthesis_call (c : call) : bool :=
  match c with
  | GoogleSynthesize _ _ _ | PollySynthesize _ _ => true
  | _ => false
  end.

Definition not_synthesis_call (c : call) : bool :=
  negb (is_synthesis_call c).

(** The languages of the [polly_voices] table. *)
Definition polly_languages : list string := ["en"; "hi"; "es"; "fr"; "de"].

(** The file the workflow asks the synthesis to write for a task id. *)
Definition workflow_audio_path (task_id : string) : string :=
  "./processed/" +:+ task_id +:+ "_translated_audio.mp3".

(** The two shapes of the dictionary a pipeline executor returns for the
    job [task_id] over [operations]: the failed record, with a message and
    no output path, or the completed record, with an output path, the
    operation list as it was requested and the probed metadata. *)
Definition job_record (task_id : string) (operations : list string)
    (d : dict) : Prop :=
  d !! "task_id" = Some (PStr task_id) /\
  ((d !! "status" = Some (PStr "failed") /\
    (exists msg, d !! "error" = Some (PStr msg)) /\
    d !! "output_path" = None)
   \/
   (d !! "status" = Some (PStr "completed") /\
    d !! "error" = None /\
    (exists path, d !! "output_path" = Some (PStr path)) /\
    d !! "operations_performed" = Some (PList (PStr <$> operations)) /\
    (exists info, d !! "file_info" = Some (PDict info)))).

(** The output path of the last defined operation of a list numbered from
    [i], and [cur] when the list has none. *)
Fixpoint last_output_path (output_path_of : string -> nat -> string)
    (defined : string -> bool) (i : nat) (operations : list string)
    (cur : string) : string :=
  match operations with
  | [] => cur
  | name :: rest =>
      last_output_path output_path_of defined (S i) rest
        (if defined name then output_path_of name i else cur)
  end.

(** [c in s] for a character. *)
Fixpoint has_char (c : ascii) (s : string) : bool :=
  match s with
  | EmptyString => false
  | String c' s' => Ascii.eqb c' c || has_char c s'
  end.

(** An entry of a listing whose key starts with [prefix]. *)
Definition keyed_under (prefix : string) (entry : pyval) : Prop :=
  exists key, getitem entry "key" = Ret (PStr key) /\
              startswith key prefix = true.

(** The warning an executor logs for a name it does not know. *)
Definition unknown_warning (name : string) : string :=
  "Unknown operation: " +:+ name.

(** The file segment [i] is cut into by [_extract_segments]. *)
Definition segment_path (output_path : string) (i : nat) : string :=
  str_replace output_path ".wav" ("_segment_" +:+ pretty i +:+ ".wav").




End Props.
Export Props.

(* ===================================================================== *)
(** * More scripted states *)
(* ===================================================================== *)

Module Scenes.
Import Demo.

(** What [ffmpeg.probe] raises when ffprobe exits with an error. *)
Definition probe_failed : exn :=
  new_exn FfmpegError "ffprobe error (see stderr output for detail)".

(** The studio where no file can be probed. *)
Definition studio_without_probe : demo_world :=
  {| files := ["in.wav"];
     env_vars := ∅;
     sox_result := Ret tt;
     ffmpeg_failures := 0;
     probe_doc := Raise probe_failed;
     bucket_reachable := false;
     whisper_result := Ret two_segments;
     translate_result := Ret (PDict {[ "translatedText" := PStr "namaste duniya" ]}) |}.

(** What [_get_audio_info] makes of [wav_probe] on the scripted host. *)
Definition wav_info : dict :=
  {[ "duration" := PStr "10.000000";
     "size" := PStr "882044";
     "format" := PStr "wav";
     "bitrate" := PStr "705635";
     "codec" := PStr "pcm_s16le";
     "sample_rate" := PStr "44100";
     "channels" := PInt 1;
     "bit_depth" := PStr "unknown" ]}.

Definition audio_without_probe : state demo_world Audio.AudioProcessor :=
  start {| Audio.output_dir := "./processed" |} studio_without_probe.

Definition video_without_probe : state demo_world Video.VideoProcessor :=
  start {| Video.output_dir := "./processed" |} studio_without_probe.

(** A remote service that found no credentials, and one that holds a
    client. *)
Definition r2_without_client : state demo_world Storage.CloudflareR2Service :=
  start {| Storage.client := None; Storage.bucket_name := None |} studio.

Definition media_client : s3_client :=
  {| endpoint_url := "https://acc0.r2.cloudflarestorage.com";
     aws_access_key_id := "key0";
     aws_secret_access_key := "secret0" |}.

Definition r2_with_client : state demo_world Storage.CloudflareR2Service :=
  start {| Storage.client := Some media_client;
           Storage.bucket_name := Some "media" |} studio.

(** The studio with two files in the local store. *)
Definition stocked_studio : demo_world :=
  with_files ["in.wav"; "./storage/audio/a.wav"; "./storage/video/b.mp4"] studio.

Definition local_store : state demo_world Storage.LocalStorageService :=
  start {| Storage.storage_dir := "./storage" |} stocked_studio.

(** What the local service lists under the prefix [audio]. *)
Definition audio_listing : dict :=
  Storage.files_result
    [PDict {[ "key" := PStr "audio/a.wav";
              "size" := PInt 1024;
              "last_modified" := PStr "2024-01-01T00:00:00";
              "local_path" := PStr "./storage/audio/a.wav" ]}].

(** Two objects as [list_objects_v2] describes them. *)
Definition two_objects : list pyval :=
  [PDict {[ "Key" := PStr "audio/a.wav"; "Size" := PInt 1024;
            "LastModified" := PStr "2024-01-01"; "ETag" := PStr "abc" ]};
   PDict {[ "Key" := PStr "video/b.mp4"; "Size" := PInt 2048;
            "LastModified" := PStr "2024-01-02"; "ETag" := PStr "def" ]}].

(** A translation service without credentials, and a synthesis service
    that has the Polly client only. *)
Definition translation_offline : state demo_world AI.TranslationService :=
  start {| AI.client := None |} studio.

Definition polly_only : state demo_world AI.TextToSpeechService :=
  start {| AI.google_client := None;
           AI.aws_client := Some (AwsPolly "key0" "secret0" "us-east-1") |} studio.

(** A workflow service with every client, one without the Google
    synthesis client, and the one [AIWorkflowService()] builds in the
    studio, whose environment is empty. *)
Definition workflow_online : state demo_world AI.AIWorkflowService :=
  start {| AI.stt_service := AI.new_SpeechToTextService;
           AI.translation_service := {| AI.client := Some GoogleTranslate |};
           AI.tts_service := {| AI.google_client := Some GoogleTTS;
                                AI.aws_client := None |} |} studio.

Definition workflow_polly_only : state demo_world AI.AIWorkflowService :=
  start {| AI.stt_service := AI.new_SpeechToTextService;
           AI.translation_service := {| AI.client := Some GoogleTranslate |};
           AI.tts_service := {| AI.google_client := None;
                                AI.aws_client :=
                                  Some (AwsPolly "key0" "secret0" "us-east-1") |} |}
    studio.

Definition studio_workflow_service : AI.AIWorkflowService :=
  {| AI.stt_service := AI.new_SpeechToTextService;
     AI.translation_service := {| AI.client := None |};
     AI.tts_service := {| AI.google_client := None; AI.aws_client := None |} |}.

(** A machine on which the speech model cannot be loaded: the scripted
    host, except that [whisper.load_model] raises. *)
Record offline_world : Type := { online : demo_world }.

Definition offline {A} (f : demo_world -> outcome A * demo_world)
    (w : offline_world) : outcome A * offline_world :=
  let (r, b) := f (online w) in (r, {| online := b |}).

Definition model_unavailable : exn :=
  new_exn Exception_ "Model base could not be downloaded".

#[global] Instance offline_host : Host offline_world := {|
  os_path_exists := fun p w => os_path_exists p (online w);
  os_path_exists_obj := fun v w => os_path_exists_obj v (online w);
  os_remove := fun p => offline (os_remove p);
  subprocess_run := fun argv => offline (subprocess_run argv);
  ffmpeg_run := fun o => offline (ffmpeg_run o);
  ffmpeg_probe := fun p => offline (ffmpeg_probe p);
  builtin_str := builtin_str (World:=demo_world);
  builtin_float := builtin_float (World:=demo_world);
  builtin_int := builtin_int (World:=demo_world);
  builtin_eval := builtin_eval (World:=demo_world);
  pathlib_with_suffix := pathlib_with_suffix (World:=demo_world);
  os_makedirs := fun p => offline (os_makedirs p);
  shutil_copy2 := fun src dst => offline (shutil_copy2 src dst);
  os_path_getsize := fun p w => os_path_getsize p (online w);
  os_path_dirname := os_path_dirname (World:=demo_world);
  os_path_relpath := fun p start w => os_path_relpath p start (online w);
  os_walk := fun top w => os_walk top (online w);
  os_stat := fun p w => os_stat p (online w);
  file_write := fun p content => offline (file_write p content);
  tempfile_mktemp := fun suffix => offline (tempfile_mktemp suffix);
  mimetypes_guess_type := mimetypes_guess_type (World:=demo_world);
  environ := fun w => environ (online w);
  expires_at := fun n w => expires_at n (online w);
  isoformat := isoformat (World:=demo_world);
  boto3_client := fun c => offline (boto3_client c);
  s3_head_bucket := fun c b => offline (s3_head_bucket c b);
  s3_upload_fileobj := fun c p params => offline (s3_upload_fileobj c p params);
  s3_generate_presigned_url := fun c b key n =>
    offline (s3_generate_presigned_url c b key n);
  s3_delete_object := fun c b key => offline (s3_delete_object c b key);
  s3_list_objects_v2 := fun c b prefix => offline (s3_list_objects_v2 c b prefix);
  whisper_load_model := fun _ w => (Raise model_unavailable, w);
  whisper_transcribe := fun m p options => offline (whisper_transcribe m p options);
  new_client := fun c => offline (new_client c);
  translate_call := fun text target source =>
    offline (translate_call text target source);
  google_synthesize := fun text language voice =>
    offline (google_synthesize text language voice);
  polly_synthesize := fun text voice_id => offline (polly_synthesize text voice_id)
|}.

(** A speech-to-text service on that machine, no model loaded yet. *)
Definition stt_offline : state offline_world AI.SpeechToTextService :=
  mk_state AI.new_SpeechToTextService {| online := studio |} [].

(** What the workflow returns for the recording of the studio and the
    task [t1]. *)
Definition workflow_result : dict :=
  {[ "task_id" := PStr "t1";
     "status" := PStr "completed";
     "original_text" := PStr "hello world";
     "translated_text" := PStr "namaste duniya";
     "source_language" := PStr "en";
     "target_language" := PStr "hi";
     "output_audio" := PStr "./processed/t1_translated_audio.mp3";
     "segments" := dict_get transcript "segments" (PList []) ]}.

(** What the remote service lists for them on the scripted host. *)
Definition two_entries : list pyval :=
  [PDict {[ "key" := PStr "audio/a.wav"; "size" := PInt 1024;
            "last_modified" := PStr "2024-01-01T00:00:00"; "etag" := PStr "abc" ]};
   PDict {[ "key" := PStr "video/b.mp4"; "size" := PInt 2048;
            "last_modified" := PStr "2024-01-01T00:00:00"; "etag" := PStr "def" ]}].

(** The manager [StorageManager()] builds in the studio. *)
Definition studio_manager : Storage.StorageManager :=
  {| Storage.r2_service := {| Storage.client := None; Storage.bucket_name := None |};
     Storage.local_service := {| Storage.storage_dir := "./storage" |};
     Storage.primary_service := Storage.TheLocalService |}.

End Scenes.

(* ===================================================================== *)
(** * main.py: the storage endpoints *)
(* ===================================================================== *)

Module Api.
Import Storage.

(** [fastapi.HTTPException(status_code=..., detail=...)]. *)
Record HTTPException : Type := {
  status_code : nat;
  detail : pyval
}.

(** What a statement of an endpoint raises: an exception of the kind the
    services raise, or an [HTTPException].  Both derive from [Exception],
    so [except Exception] catches both. *)
Inductive raised : Type :=
  | Python (e : exn)
  | Http (e : HTTPException).

(** How a block of an endpoint ends: with the value it returns, or with
    what it raises. *)
Inductive ending (A : Type) : Type :=
  | Returns (a : A)
  | Raises (e : raised).
Arguments Returns {A} a.
Arguments Raises {A} e.

Section Endpoints.
Context {World : Type} `{Host World}.

(** [str(e)] of an [HTTPException], as the installed framework defines
    it, and [Path(p).name]. *)
Variable http_exception_str : HTTPException -> string.
Variable path_name : string -> string.

(** [str(e)] in the handlers. *)
Definition str_of (e : raised) : string :=
  match e with
  | Python e => exn_msg e
  | Http e => http_exception_str e
  end.

(** An endpoint runs on the module-level [storage_manager]. *)
Definition endpoint (A : Type) : Type :=
  state World StorageManager -> ending A * state World StorageManager.

(** The [try] block shared by the storage endpoints:
    [result = await operation; if "error" in result: raise
    HTTPException(status_code=code, detail=result["error"]); return
    result]. *)
Definition checked (code : nat) (operation : M World StorageManager dict)
    : endpoint dict :=
  fun s =>
    match operation s with
    | (Ret result, s1) =>
        if dict_has result "error" then
          match dict_item result "error" with
          | Ret message =>
              (Raises (Http {| status_code := code; detail := message |}), s1)
          | Raise e => (Raises (Python e), s1)
          end
        else (Returns result, s1)
    | (Raise e, s1) => (Raises (Python e), s1)
    end.

(** [except Exception as e: logger.error(f"{label}: {str(e)}"); raise
    HTTPException(status_code=500, detail=str(e))] around a block. *)
Definition guarded {A} (label : string) (block : endpoint A) : endpoint A :=
  fun s =>
    match block s with
    | (Returns a, s1) => (Returns a, s1)
    | (Raises e, s1) =>
        (Raises (Http {| status_code := 500; detail := PStr (str_of e) |}),
         record (ELog ERROR (label +:+ ": " +:+ str_of e)) s1)
    end.

(** [POST /storage/upload]. *)
Definition upload_to_storage (file_path : string) (remote_key : option string)
    (metadata : option dict) : endpoint dict :=
  guarded "Storage upload error"
    (let remote_key :=
       if truthy_str remote_key then str_opt remote_key
       else "uploads/" +:+ path_name file_path in
     checked 500 (upload_file file_path remote_key metadata)).

(** [GET /storage/download/{remote_key}]. *)
Definition get_download_url (remote_key : string) (expiration : Z)
    : endpoint dict :=
  guarded "Download URL error"
    (checked 404 (generate_signed_url remote_key expiration)).

(** [DELETE /storage/{remote_key}]. *)
Definition delete_from_storage (remote_key : string) : endpoint dict :=
  guarded "Storage delete error" (checked 500 (delete_file remote_key)).

(** [GET /storage/list]: the result with the [storage_type] added. *)
Definition list_storage_files (prefix : string) : endpoint dict :=
  guarded "Storage list error"
    (fun s =>
       match checked 500 (list_files prefix) s with
       | (Returns result, s1) =>
           (Returns (<[ "storage_type" := PStr (get_storage_type (self_obj s1)) ]>
                       result), s1)
       | (Raises e, s1) => (Raises e, s1)
       end).

End Endpoints.

(** What a client of an endpoint can be given: a result without an
    [error] entry, or an [HTTPException] of status 500. *)
Definition result_or_500 (r : ending dict) : Prop :=
  match r with
  | Returns d => dict_has d "error" = false
  | Raises (Http h) => status_code h = 500
  | Raises (Python _) => False
  end.

End Api.

Module ApiScenes.
Import Demo.

(** [str(e)] of Starlette's [HTTPException]: the status and the detail. *)
Definition starlette_str (e : Api.HTTPException) : string :=
  pretty (Api.status_code e) +:+ ": " +:+
  match Api.detail e with
  | PStr message => message
  | _ => "None"
  end.

(** The manager of the studio, on the local backend. *)
Definition managed_studio : state demo_world Storage.StorageManager :=
  start Scenes.studio_manager Scenes.stocked_studio.

End ApiScenes.

(* ===================================================================== *)
(** * Facts about the monad and the trace *)
(* ===================================================================== *)

Module MonadFacts.

Section Run.
Context {World Self : Type} `{Host World}.

Lemma bind_run {A B} (m : M World Self A) (k : A -> M World Self B) s :
  (m ≫= k) s =
  match m s with
  | (Ret a, s') => k a s'
  | (Raise e, s') => (Raise e, s')
  end.
Proof. reflexivity. Qed.

Lemma ret_run {A} (a : A) (s : state World Self) :
  (mret a : M World Self A) s = (Ret a, s).
Proof. reflexivity. Qed.

Lemma steps_app t1 t2 : steps (t1 ++ t2) = steps t1 ++ steps t2.
Proof. apply List.filter_app. Qed.

Lemma stages_app t1 t2 : stages (t1 ++ t2) = stages t1 ++ stages t2.
Proof. apply List.filter_app. Qed.

Lemma invoked_app t1 t2 : invoked (t1 ++ t2) = invoked t1 ++ invoked t2.
Proof.
  induction t1 as [|e t1 IH]; [reflexivity|].
  destruct e; simpl; rewrite ?IH; reflexivity.
Qed.

Lemma calls_app t1 t2 : calls (t1 ++ t2) = calls t1 ++ calls t2.
Proof.
  induction t1 as [|e t1 IH]; [reflexivity|].
  destruct e; simpl; rewrite ?IH; reflexivity.
Qed.

Lemma awaited_app t1 t2 : awaited (t1 ++ t2) = awaited t1 ++ awaited t2.
Proof.
  induction t1 as [|e t1 IH]; [reflexivity|].
  destruct e; simpl; rewrite ?IH; reflexivity.
Qed.


Lemma awaited_stages t : awaited (stages t) = awaited t.
Proof.
  induction t as [|e t IH]; [reflexivity|].
  destruct e; simpl; rewrite ?IH; reflexivity.
Qed.

(** Tame computations compose. *)

Lemma tame_ret {A} (a : A) : tame (mret a : M World Self A).
Proof. intros s; split; [reflexivity|]. exists []. rewrite app_nil_r. auto. Qed.

Lemma tame_raise {A} e : tame (raise e : M World Self A).
Proof. intros s; split; [reflexivity|]. exists []. rewrite app_nil_r. auto. Qed.

Lemma tame_lift {A} (o : outcome A) : tame (lift o : M World Self A).
Proof. intros s; split; [reflexivity|]. exists []. rewrite app_nil_r. auto. Qed.

Lemma tame_ask {A} (f : World -> A) : tame (ask f : M World Self A).
Proof. intros s; split; [reflexivity|]. exists []. rewrite app_nil_r. auto. Qed.

Lemma tame_ask_or_raise {A} (f : World -> outcome A) :
  tame (ask_or_raise f : M World Self A).
Proof. intros s; split; [reflexivity|]. exists []. rewrite app_nil_r. auto. Qed.

Lemma tame_path_exists p : tame (path_exists p : M World Self bool).
Proof. apply tame_ask. Qed.

Lemma tame_get_self : tame (get_self : M World Self Self).
Proof. intros s; split; [reflexivity|]. exists []. rewrite app_nil_r. auto. Qed.

Lemma tame_log lvl msg : tame (log lvl msg : M World Self unit).
Proof. intros s; split; [reflexivity|]. exists [ELog lvl msg]. auto. Qed.

Lemma tame_external {A} c (f : World -> outcome A * World) :
  tame (external c f : M World Self A).
Proof.
  intros s; unfold external. destruct (f (world s)) as [r w]; simpl.
  split; [reflexivity|]. exists [ECall c]. auto.
Qed.

Lemma tame_bind {A B} (m : M World Self A) (k : A -> M World Self B) :
  tame m -> (forall a, tame (k a)) -> tame (m ≫= k).
Proof.
  intros Hm Hk s. rewrite bind_run.
  destruct (Hm s) as (Hself & evs & Htr & Hst & Hsg).
  destruct (m s) as [[a|e] s1]; simpl in *.
  - destruct (Hk a s1) as (Hself' & evs' & Htr' & Hst' & Hsg').
    split; [congruence|]. exists (evs ++ evs').
    rewrite Htr', Htr, steps_app, stages_app, Hst, Hst', Hsg, Hsg', app_assoc. auto.
  - split; [assumption|]. exists evs. auto.
Qed.

Lemma tame_try_except {A} (m : M World Self A) (h : exn -> M World Self A) :
  tame m -> (forall e, tame (h e)) -> tame (try_except m h).
Proof.
  intros Hm Hh s. unfold try_except.
  destruct (Hm s) as (Hself & evs & Htr & Hst & Hsg).
  destruct (m s) as [[a|e] s1]; simpl in *.
  - split; [assumption|]. exists evs. auto.
  - destruct (Hh e s1) as (Hself' & evs' & Htr' & Hst' & Hsg').
    split; [congruence|]. exists (evs ++ evs').
    rewrite Htr', Htr, steps_app, stages_app, Hst, Hst', Hsg, Hsg', app_assoc. auto.
Qed.

Lemma tame_for_each {A} (xs : list A) (body : A -> M World Self unit) :
  (forall x, tame (body x)) -> tame (for_each xs body).
Proof.
  intros Hbody. induction xs as [|x xs IH]; simpl.
  - apply tame_ret.
  - apply tame_bind; [apply Hbody | intros _; exact IH].
Qed.

End Run.

(** Decompose a goal [tame m] along the structure of [m]. *)
Ltac tame_step :=
  match goal with
  | |- tame (mbind _ _) => apply tame_bind; [| intros ?]
  | |- tame (try_except _ _) => apply tame_try_except; [| intros ?]
  | |- tame (mret _) => apply tame_ret
  | |- tame (raise _) => apply tame_raise
  | |- tame (lift _) => apply tame_lift
  | |- tame (ask _) => apply tame_ask
  | |- tame (ask_or_raise _) => apply tame_ask_or_raise
  | |- tame (path_exists _) => apply tame_path_exists
  | |- tame get_self => apply tame_get_self
  | |- tame (log _ _) => apply tame_log
  | |- tame (external _ _) => apply tame_external
  | |- tame (remove _) => apply tame_external
  | |- tame (run_process _) => apply tame_external
  | |- tame (run_ffmpeg _) => apply tame_external
  | |- tame (probe _) => apply tame_external
  | |- tame (for_each _ _) => apply tame_for_each; intros ?
  | |- tame (if ?b then _ else _) => destruct b
  | |- tame (match ?x with _ => _ end) => destruct x
  end.

Ltac tame_tac := repeat tame_step.

End MonadFacts.
Import MonadFacts.

(* ===================================================================== *)
(** * The pipeline executors *)
(* ===================================================================== *)

Module PipelineFacts.

(** ** The registry-driven algorithm leaves a chained trace *)

Section Execute.
Context {World Self : Type} `{Host World}.
Variable registry : string -> option (@operation World Self).
Variable output_path_of : Self -> string -> string -> nat -> string.
Hypothesis registry_tame :
  forall name op, registry name = Some op ->
  forall input_path output_path params, tame (op input_path output_path params).

Lemma spec_execute_chained task params ops :
  forall i cur s,
    self_obj (snd (spec_execute registry output_path_of task params i ops cur s))
    = self_obj s /\
    exists evs,
      trace (snd (spec_execute registry output_path_of task params i ops cur s))
      = trace s ++ evs /\
      stages evs = [] /\
      chained (registered registry) (output_path_of (self_obj s) task)
        i ops cur (steps evs)
        (fst (spec_execute registry output_path_of task params i ops cur s)).
Proof.
  induction ops as [|name rest IH]; intros i cur s.
  - simpl. split; [reflexivity|]. exists []. rewrite app_nil_r.
    repeat split. constructor.
  - cbn [spec_execute]. rewrite bind_run. cbn [get_self].
    rewrite bind_run.
    destruct (registry name) as [op|] eqn:Hreg.
    + unfold await_operation. rewrite bind_run. cbn [emit].
      set (s0 := record (EInvoke name cur (output_path_of (self_obj s) task name i)) s).
      destruct (registry_tame name op Hreg cur
                  (output_path_of (self_obj s) task name i) params s0)
        as (Hself & evs & Htr & Hst & Hsg).
      destruct (op cur (output_path_of (self_obj s) task name i) params s0)
        as [[returned|e] [o1 w1 t1]]; simpl in Hself, Htr; subst o1.
      * match goal with
        | |- context [spec_execute _ _ _ _ _ _ _ ?st] => set (s2 := st)
        end.
        destruct (IH (S i) returned s2) as (Hself2 & evs2 & Htr2 & Hsg2 & Hch).
        split; [rewrite Hself2; reflexivity|].
        exists ([EInvoke name cur (output_path_of (self_obj s) task name i)]
                ++ evs ++ [EOutcome name (Ret returned)] ++ evs2).
        split.
        { rewrite Htr2. subst s2. simpl. rewrite Htr. subst s0. simpl.
          rewrite <- !app_assoc. reflexivity. }
        split.
        { rewrite !stages_app, Hsg, Hsg2. reflexivity. }
        rewrite !steps_app, Hst. simpl.
        apply chained_ok.
        { unfold registered. rewrite Hreg. reflexivity. }
        exact Hch.
      * simpl. split; [reflexivity|].
        exists ([EInvoke name cur (output_path_of (self_obj s) task name i)]
                ++ evs ++ [EOutcome name (Raise e)]).
        split.
        { rewrite Htr. subst s0. simpl. rewrite <- !app_assoc. reflexivity. }
        split.
        { rewrite !stages_app, Hsg. reflexivity. }
        rewrite !steps_app, Hst. simpl.
        apply chained_fail. unfold registered. rewrite Hreg. reflexivity.
    + rewrite bind_run. cbn [log emit].
      rewrite ret_run.
      match goal with
      | |- context [spec_execute _ _ _ _ _ _ _ ?st] => set (s2 := st)
      end.
      destruct (IH (S i) cur s2) as (Hself2 & evs2 & Htr2 & Hsg2 & Hch).
      split; [rewrite Hself2; reflexivity|].
      exists ([ELog WARNING ("Unknown operation: " +:+ name)] ++ evs2).
      split.
      { rewrite Htr2. subst s2. simpl. rewrite <- app_assoc. reflexivity. }
      split.
      { rewrite stages_app, Hsg2. reflexivity. }
      rewrite steps_app. simpl.
      apply chained_skip.
      { unfold registered. rewrite Hreg. reflexivity. }
      exact Hch.
Qed.

(** The run over a concatenation is the run over the first list followed
    by the run over the second, numbered on. *)
Lemma spec_execute_app task params before after :
  forall i cur s,
    spec_execute registry output_path_of task params i (before ++ after) cur s
    = (next ← spec_execute registry output_path_of task params i before cur;
       spec_execute registry output_path_of task params (i + length before)
         after next) s.
Proof.
  induction before as [|name rest IH]; intros i cur s.
  - simpl. rewrite bind_run, ret_run, Nat.add_0_r. reflexivity.
  - cbn [app spec_execute length]. rewrite !bind_run. cbn [get_self].
    rewrite !bind_run.
    match goal with
    | |- match ?m with _ => _ end = _ => destruct m as [[next|e] s1]
    end; [|reflexivity].
    rewrite IH, bind_run. replace (i + S (length rest)) with (S i + length rest) by lia.
    reflexivity.
Qed.

(** A name the registry does not know costs a warning and nothing else. *)
Lemma spec_execute_unknown task params name rest i cur s :
  registry name = None ->
  spec_execute registry output_path_of task params i (name :: rest) cur s
  = (log WARNING ("Unknown operation: " +:+ name);;
     spec_execute registry output_path_of task params (S i) rest cur) s.
Proof.
  intros Hreg. cbn [spec_execute]. rewrite !bind_run. cbn [get_self].
  rewrite Hreg, !bind_run. reflexivity.
Qed.

Lemma spec_execute_skips task params before name after i cur s :
  registry name = None ->
  spec_execute registry output_path_of task params i
    (before ++ name :: after) cur s
  = (next ← spec_execute registry output_path_of task params i before cur;
     log WARNING ("Unknown operation: " +:+ name);;
     spec_execute registry output_path_of task params
       (S (i + length before)) after next) s.
Proof.
  intros Hreg. rewrite spec_execute_app, !bind_run.
  destruct (spec_execute _ _ _ _ _ before _ _) as [[next|e] s1]; [|reflexivity].
  apply spec_execute_unknown, Hreg.
Qed.
End Execute.

(** ** What a chained trace says *)

Section Chained.
Variable defined : string -> bool.
Variable output_path_of : string -> nat -> string.



(** An operation that raised is the last step of the run, and the run
    ends with its exception. *)
Lemma chained_raise_last i ops cur g fin :
  chained defined output_path_of i ops cur g fin ->
  forall before name e after,
    g = before ++ EOutcome name (Raise e) :: after ->
    after = [] /\ fin = Raise e.
Proof.
  induction 1 as [i cur|i op rest cur g fin Hdef Hch IH
                 |i op rest cur r g fin Hdef Hch IH|i op rest cur e Hdef];
    intros before name e' after Heq.
  - destruct before; discriminate.
  - eauto.
  - destruct before as [|b1 [|b2 before]]; simpl in Heq; try discriminate.
    inversion Heq; subst. eauto.
  - destruct before as [|b1 [|b2 before]]; simpl in Heq; try discriminate.
    + inversion Heq; subst. auto.
    + inversion Heq as [[Hb1 Hb2 Hnil]]. destruct before; discriminate.
Qed.

(** A run that ends with an exception ends with the step that raised
    it. *)
Lemma chained_raise_step i ops cur g e :
  chained defined output_path_of i ops cur g (Raise e) ->
  exists before name, g = before ++ [EOutcome name (Raise e)].
Proof.
  intros Hch. remember (Raise e) as fin eqn:Hfin.
  induction Hch as [i cur|i op rest cur g fin Hdef Hch IH
                   |i op rest cur r g fin Hdef Hch IH|i op rest cur e' Hdef].
  - discriminate.
  - auto.
  - destruct (IH Hfin) as (before & name & ->).
    exists (EInvoke op cur (output_path_of op i) :: EOutcome op (Ret r) :: before), name.
    reflexivity.
  - injection Hfin as ->.
    exists [EInvoke op cur (output_path_of op i)], op. reflexivity.
Qed.

(** A list without a defined name leaves no step and hands the input
    back. *)
Lemma chained_no_defined i ops cur g fin :
  chained defined output_path_of i ops cur g fin ->
  List.filter defined ops = [] -> g = [] /\ fin = Ret cur.
Proof.
  induction 1 as [i cur|i op rest cur g fin Hdef Hch IH
                 |i op rest cur r g fin Hdef Hch IH|i op rest cur e Hdef];
    simpl; rewrite ?Hdef; intros Hnone; try discriminate; auto.
Qed.
End Chained.

(** The shape depends on the names through [defined] only. *)
Lemma chained_ext (d1 d2 : string -> bool) output_path_of i ops cur g fin :
  (forall name, d1 name = d2 name) ->
  chained d1 output_path_of i ops cur g fin ->
  chained d2 output_path_of i ops cur g fin.
Proof.
  intros Hext. induction 1; constructor; rewrite <- ?Hext; assumption.
Qed.

End PipelineFacts.
Import PipelineFacts.

(* ===================================================================== *)
(** * audio_processor.py: the executor and the fallbacks *)
(* ===================================================================== *)

Module AudioFacts.
Import Audio.

Section AudioFacts.
Context {World : Type} `{Host World}.

Lemma tame_fallback_noise_reduction input_path output_path :
  tame (_fallback_noise_reduction (World:=World) input_path output_path).
Proof. unfold _fallback_noise_reduction. tame_tac. Qed.

Lemma tame_noise_reduction input_path output_path params :
  tame (_noise_reduction (World:=World) input_path output_path params).
Proof.
  unfold _noise_reduction, noise_reduction_primary.
  tame_tac; apply tame_fallback_noise_reduction.
Qed.

Lemma tame_fallback_normalize input_path output_path params :
  tame (_fallback_normalize (World:=World) input_path output_path params).
Proof. unfold _fallback_normalize. tame_tac. Qed.

Lemma tame_normalize_audio input_path output_path params :
  tame (_normalize_audio (World:=World) input_path output_path params).
Proof.
  unfold _normalize_audio, normalize_audio_primary.
  tame_tac; apply tame_fallback_normalize.
Qed.

Lemma tame_change_speed input_path output_path params :
  tame (_change_speed (World:=World) input_path output_path params).
Proof. unfold _change_speed. tame_tac. Qed.

Lemma tame_cut_segment input_path path segment :
  tame (cut_segment (World:=World) input_path path segment).
Proof. unfold cut_segment. tame_tac. Qed.

Lemma tame_cut_segments input_path output_path segments :
  forall i, tame (cut_segments (World:=World) input_path output_path i segments).
Proof.
  induction segments as [|segment rest IH]; intros i; simpl.
  - apply tame_ret.
  - apply tame_bind; [apply tame_cut_segment|intros _].
    apply tame_bind; [apply IH|intros files]. apply tame_ret.
Qed.

Lemma tame_extract_segments input_path output_path params :
  tame (_extract_segments (World:=World) input_path output_path params).
Proof.
  unfold _extract_segments.
  apply tame_try_except; [|intros e; tame_tac].
  apply tame_bind; [apply tame_lift|intros n].
  destruct (n =? 1).
  - apply tame_bind; [apply tame_lift|intros segment].
    apply tame_bind; [apply tame_cut_segment|intros _]. tame_tac.
  - apply tame_bind; [apply tame_lift|intros items].
    apply tame_bind; [apply tame_cut_segments|intros files]. tame_tac.
Qed.

Lemma tame_get_audio_info file_path :
  tame (_get_audio_info (World:=World) file_path).
Proof. unfold _get_audio_info. tame_tac. Qed.

(** [_get_audio_info] catches every exception. *)
Lemma get_audio_info_returns file_path :
  returns (_get_audio_info (World:=World) file_path).
Proof.
  intros s. unfold _get_audio_info, try_except. rewrite bind_run.
  unfold probe, external.
  destruct (ffmpeg_probe file_path (world s)) as [[doc|e] w]; simpl.
  - unfold lift. destruct (audio_info_of doc) as [info|e]; simpl; eauto.
  - eauto.
Qed.

Lemma audio_registry_tame name op :
  audio_registry (World:=World) name = Some op ->
  forall input_path output_path params,
    tame (op input_path output_path params).
Proof.
  unfold audio_registry. intros Hreg input_path output_path params.
  repeat match type of Hreg with
         | (if ?b then _ else _) = _ => destruct b
         end;
    try discriminate; injection Hreg as <-.
  - apply tame_noise_reduction.
  - apply tame_normalize_audio.
  - apply tame_change_speed.
  - apply tame_extract_segments.
Qed.

(** The names the registry knows are the supported operations. *)
Lemma audio_registered name :
  registered (audio_registry (World:=World)) name
  = supported get_supported_operations name.
Proof.
  unfold registered, audio_registry, supported, get_supported_operations.
  simpl. repeat destruct (String.eqb name _); reflexivity.
Qed.

(** The [if]/[elif] chain of [process_audio] is the registry-driven
    algorithm of the specification. *)
Lemma process_audio_loop_execute task params ops :
  forall i cur s,
    process_audio_loop task params i ops cur s
    = spec_execute audio_registry _get_output_path task params i ops cur s.
Proof.
  induction ops as [|name rest IH]; intros i cur s; [reflexivity|].
  cbn [process_audio_loop spec_execute]. rewrite !bind_run. cbn [get_self].
  rewrite !bind_run. unfold audio_registry.
  repeat match goal with
         | |- context [if String.eqb name ?x then _ else _] =>
             destruct (String.eqb name x)
         end;
    match goal with
    | |- match ?m with _ => _ end = _ =>
        destruct m as [[next|e] s1]; [apply IH|reflexivity]
    end.
Qed.


(** [process_audio] on a path that exists: the loop, then the probe. *)
Lemma process_audio_present input task ops params s :
  os_path_exists input (world s) = true ->
  process_audio input task ops params s =
  match process_audio_loop task (default ∅ params) 0 ops input
          (record (ELog INFO ("Starting audio processing for task " +:+ task)) s)
  with
  | (Ret final, s1) =>
      match _get_audio_info final s1 with
      | (Ret info, s2) =>
          (Ret (completed_result task final ops info),
           record (ELog INFO ("Audio processing completed for task " +:+ task)) s2)
      | (Raise e, s2) =>
          (Ret (failed_result task (exn_msg e)),
           record (ELog ERROR ("Audio processing failed for task " +:+ task
                               +:+ ": " +:+ exn_msg e)) s2)
      end
  | (Raise e, s1) =>
      (Ret (failed_result task (exn_msg e)),
       record (ELog ERROR ("Audio processing failed for task " +:+ task
                           +:+ ": " +:+ exn_msg e)) s1)
  end.
Proof.
  intros Hex. unfold process_audio, try_except.
  rewrite bind_run. unfold path_exists, ask. rewrite Hex.
  rewrite bind_run, ret_run, bind_run. cbn [log emit]. rewrite bind_run.
  destruct (process_audio_loop _ _ _ _ _ _) as [[final|e] s1]; [|reflexivity].
  rewrite bind_run.
  destruct (_get_audio_info final s1) as [[info|e] s2]; reflexivity.
Qed.

(** [process_audio] on a path that does not exist. *)
Lemma process_audio_absent input task ops params s :
  os_path_exists input (world s) = false ->
  process_audio input task ops params s =
  (Ret (failed_result task ("Input file not found: " +:+ input)),
   record (ELog ERROR ("Audio processing failed for task " +:+ task +:+ ": "
                       +:+ "Input file not found: " +:+ input)) s).
Proof.
  intros Hex. unfold process_audio, try_except.
  rewrite bind_run. unfold path_exists, ask. rewrite Hex. reflexivity.
Qed.

Lemma process_audio_run input task ops params s :
  os_path_exists input (world s) = true ->
  exists evs fin,
    trace (snd (process_audio input task ops params s)) = trace s ++ evs /\
    self_obj (snd (process_audio input task ops params s)) = self_obj s /\
    stages evs = [] /\
    chained (supported get_supported_operations)
      (_get_output_path (self_obj s) task) 0 ops input (steps evs) fin /\
    match fin with
    | Ret final =>
        exists s1 s2 info,
          process_audio_loop task (default ∅ params) 0 ops input
            (record (ELog INFO ("Starting audio processing for task " +:+ task)) s)
          = (Ret final, s1) /\
          _get_audio_info final s1 = (Ret info, s2) /\
          fst (process_audio input task ops params s)
          = Ret (completed_result task final ops info)
    | Raise e =>
        fst (process_audio input task ops params s)
        = Ret (failed_result task (exn_msg e))
    end.
Proof.
  intros Hex. rewrite (process_audio_present _ _ _ _ _ Hex).
  set (s0 := record _ s).
  destruct (spec_execute_chained audio_registry _get_output_path
              audio_registry_tame task (default ∅ params) ops 0 input s0)
    as (Hself & evs & Htr & Hsg & Hch).
  rewrite <- process_audio_loop_execute in Hself, Htr, Hch.
  destruct (process_audio_loop _ _ _ _ _ s0) as [[final|e] s1] eqn:Hloop;
    simpl in Hself, Htr, Hch.
  - destruct (get_audio_info_returns final s1) as [info Hinfo].
    destruct (tame_get_audio_info final s1) as (Hself2 & evs2 & Htr2 & Hst2 & Hsg2).
    destruct (_get_audio_info final s1) as [r s2] eqn:Hprobe.
    simpl in Hinfo, Hself2, Htr2. subst r.
    eexists (_ :: evs ++ evs2 ++ [_]), (Ret final). simpl.
    repeat split.
    + rewrite Htr2, Htr. subst s0. simpl. rewrite <- !app_assoc. reflexivity.
    + congruence.
    + rewrite !stages_app, Hsg, Hsg2. reflexivity.
    + rewrite !steps_app, Hst2. simpl. rewrite app_nil_r.
      revert Hch. apply chained_ext, audio_registered.
    + exists s1, s2, info. auto.
  - eexists (_ :: evs ++ [_]), (Raise e). simpl.
    repeat split.
    + rewrite Htr. subst s0. simpl. rewrite <- !app_assoc. reflexivity.
    + exact Hself.
    + rewrite !stages_app, Hsg. reflexivity.
    + rewrite !steps_app. simpl. rewrite app_nil_r.
      revert Hch. apply chained_ext, audio_registered.
Qed.
End AudioFacts.
End AudioFacts.

(* ===================================================================== *)
(** * video_processor.py: the executor *)
(* ===================================================================== *)

Module VideoFacts.
Import Video.

Section VideoFacts.
Context {World : Type} `{Host World}.

Lemma tame_extract_audio input_path output_path params :
  tame (_extract_audio (World:=World) input_path output_path params).
Proof. unfold _extract_audio. tame_tac. Qed.

Lemma tame_convert_format input_path output_path params :
  tame (_convert_format (World:=World) input_path output_path params).
Proof. unfold _convert_format. tame_tac. Qed.

Lemma tame_resize_video input_path output_path params :
  tame (_resize_video (World:=World) input_path output_path params).
Proof. unfold _resize_video. tame_tac. Qed.

Lemma tame_trim_video input_path output_path params :
  tame (_trim_video (World:=World) input_path output_path params).
Proof. unfold _trim_video. tame_tac. Qed.

Lemma tame_subtitle_exists v : tame (subtitle_exists (World:=World) v).
Proof.
  destruct v; simpl; try apply tame_path_exists;
    intros s; (split; [reflexivity|]); exists []; rewrite app_nil_r; auto.
Qed.

Lemma tame_add_subtitles input_path output_path params :
  tame (_add_subtitles (World:=World) input_path output_path params).
Proof.
  unfold _add_subtitles.
  apply tame_try_except; [|intros e; tame_tac].
  apply tame_bind.
  - destruct (truthy _); [apply tame_subtitle_exists|apply tame_ret].
  - intros present. tame_tac.
Qed.

Lemma tame_get_file_info file_path :
  tame (_get_file_info (World:=World) file_path).
Proof. unfold _get_file_info. tame_tac. Qed.

(** [_get_file_info] catches every exception. *)
Lemma get_file_info_returns file_path :
  returns (_get_file_info (World:=World) file_path).
Proof.
  intros s. unfold _get_file_info, try_except. rewrite bind_run.
  unfold probe, external.
  destruct (ffmpeg_probe file_path (world s)) as [[doc|e] w]; simpl.
  - unfold lift. destruct (file_info_of doc) as [info|e]; simpl; eauto.
  - eauto.
Qed.

Lemma video_registry_tame name op :
  video_registry (World:=World) name = Some op ->
  forall input_path output_path params,
    tame (op input_path output_path params).
Proof.
  unfold video_registry. intros Hreg input_path output_path params.
  repeat match type of Hreg with
         | (if ?b then _ else _) = _ => destruct b
         end;
    try discriminate; injection Hreg as <-.
  - apply tame_extract_audio.
  - apply tame_convert_format.
  - apply tame_resize_video.
  - apply tame_trim_video.
  - apply tame_add_subtitles.
Qed.

(** The names the registry knows are the supported operations. *)
Lemma video_registered name :
  registered (video_registry (World:=World)) name
  = supported get_supported_operations name.
Proof.
  unfold registered, video_registry, supported, get_supported_operations.
  simpl. repeat destruct (String.eqb name _); reflexivity.
Qed.

(** The [if]/[elif] chain of [process_video] is the registry-driven
    algorithm of the specification. *)
Lemma process_video_loop_execute task params ops :
  forall i cur s,
    process_video_loop task params i ops cur s
    = spec_execute video_registry _get_output_path task params i ops cur s.
Proof.
  induction ops as [|name rest IH]; intros i cur s; [reflexivity|].
  cbn [process_video_loop spec_execute]. rewrite !bind_run. cbn [get_self].
  rewrite !bind_run. unfold video_registry.
  repeat match goal with
         | |- context [if String.eqb name ?x then _ else _] =>
             destruct (String.eqb name x)
         end;
    match goal with
    | |- match ?m with _ => _ end = _ =>
        destruct m as [[next|e] s1]; [apply IH|reflexivity]
    end.
Qed.

(** [process_video] on a path that exists: the loop, then the probe. *)
Lemma process_video_present input task ops params s :
  os_path_exists input (world s) = true ->
  process_video input task ops params s =
  match process_video_loop task (default ∅ params) 0 ops input
          (record (ELog INFO ("Starting video processing for task " +:+ task)) s)
  with
  | (Ret final, s1) =>
      match _get_file_info final s1 with
      | (Ret info, s2) =>
          (Ret (completed_result task final ops info),
           record (ELog INFO ("Video processing completed for task " +:+ task)) s2)
      | (Raise e, s2) =>
          (Ret (failed_result task (exn_msg e)),
           record (ELog ERROR ("Video processing failed for task " +:+ task
                               +:+ ": " +:+ exn_msg e)) s2)
      end
  | (Raise e, s1) =>
      (Ret (failed_result task (exn_msg e)),
       record (ELog ERROR ("Video processing failed for task " +:+ task
                           +:+ ": " +:+ exn_msg e)) s1)
  end.
Proof.
  intros Hex. unfold process_video, try_except.
  rewrite bind_run. unfold path_exists, ask. rewrite Hex.
  rewrite bind_run, ret_run, bind_run. cbn [log emit]. rewrite bind_run.
  destruct (process_video_loop _ _ _ _ _ _) as [[final|e] s1]; [|reflexivity].
  rewrite bind_run.
  destruct (_get_file_info final s1) as [[info|e] s2]; reflexivity.
Qed.

(** [process_video] on a path that does not exist. *)
Lemma process_video_absent input task ops params s :
  os_path_exists input (world s) = false ->
  process_video input task ops params s =
  (Ret (failed_result task ("Input file not found: " +:+ input)),
   record (ELog ERROR ("Video processing failed for task " +:+ task +:+ ": "
                       +:+ "Input file not found: " +:+ input)) s).
Proof.
  intros Hex. unfold process_video, try_except.
  rewrite bind_run. unfold path_exists, ask. rewrite Hex. reflexivity.
Qed.

Lemma process_video_run input task ops params s :
  os_path_exists input (world s) = true ->
  exists evs fin,
    trace (snd (process_video input task ops params s)) = trace s ++ evs /\
    self_obj (snd (process_video input task ops params s)) = self_obj s /\
    stages evs = [] /\
    chained (supported get_supported_operations)
      (_get_output_path (self_obj s) task) 0 ops input (steps evs) fin /\
    match fin with
    | Ret final =>
        exists s1 s2 info,
          process_video_loop task (default ∅ params) 0 ops input
            (record (ELog INFO ("Starting video processing for task " +:+ task)) s)
          = (Ret final, s1) /\
          _get_file_info final s1 = (Ret info, s2) /\
          fst (process_video input task ops params s)
          = Ret (completed_result task final ops info)
    | Raise e =>
        fst (process_video input task ops params s)
        = Ret (failed_result task (exn_msg e))
    end.
Proof.
  intros Hex. rewrite (process_video_present _ _ _ _ _ Hex).
  set (s0 := record _ s).
  destruct (spec_execute_chained video_registry _get_output_path
              video_registry_tame task (default ∅ params) ops 0 input s0)
    as (Hself & evs & Htr & Hsg & Hch).
  rewrite <- process_video_loop_execute in Hself, Htr, Hch.
  destruct (process_video_loop _ _ _ _ _ s0) as [[final|e] s1] eqn:Hloop;
    simpl in Hself, Htr, Hch.
  - destruct (get_file_info_returns final s1) as [info Hinfo].
    destruct (tame_get_file_info final s1) as (Hself2 & evs2 & Htr2 & Hst2 & Hsg2).
    destruct (_get_file_info final s1) as [r s2] eqn:Hprobe.
    simpl in Hinfo, Hself2, Htr2. subst r.
    eexists (_ :: evs ++ evs2 ++ [_]), (Ret final). simpl.
    repeat split.
    + rewrite Htr2, Htr. subst s0. simpl. rewrite <- !app_assoc. reflexivity.
    + congruence.
    + rewrite !stages_app, Hsg, Hsg2. reflexivity.
    + rewrite !steps_app, Hst2. simpl. rewrite app_nil_r.
      revert Hch. apply chained_ext, video_registered.
    + exists s1, s2, info. auto.
  - eexists (_ :: evs ++ [_]), (Raise e). simpl.
    repeat split.
    + rewrite Htr. subst s0. simpl. rewrite <- !app_assoc. reflexivity.
    + exact Hself.
    + rewrite !stages_app, Hsg. reflexivity.
    + rewrite !steps_app. simpl. rewrite app_nil_r.
      revert Hch. apply chained_ext, video_registered.
Qed.

End VideoFacts.
End VideoFacts.

(* ===================================================================== *)
(** * The claims about the pipeline executors *)
(* ===================================================================== *)

Module ExecutorClaims.

Lemma failed_result_status task msg :
  failed_result task msg !! "status" = Some (PStr "failed").
Proof. reflexivity. Qed.

Lemma steps_in t e : In e (steps t) <-> In e t /\ is_step e = true.
Proof. unfold steps. apply List.filter_In. Qed.

Section Claims.
Context {World : Type} `{Host World}.



Lemma chained_failure_aborts (names : list string) output_path_of ops input
    task evs fin d :
  chained (supported names) output_path_of 0 ops input (steps evs) fin ->
  match fin with
  | Ret final => exists info, d = completed_result task final ops info
  | Raise e => d = failed_result task (exn_msg e)
  end ->
  failure_aborts task evs (Ret d).
Proof.
  intros Hch Hd. exists d. split; [reflexivity|]. split.
  - intros before name e after Heq.
    destruct (chained_raise_last _ _ _ _ _ _ _ Hch _ _ _ _ Heq) as [-> ->].
    auto.
  - intros Hstatus name e Hin.
    assert (Hin' : In (EOutcome name (Raise e)) (steps evs))
      by (apply steps_in; auto).
    apply in_split in Hin' as (before & after & Heq).
    destruct (chained_raise_last _ _ _ _ _ _ _ Hch _ _ _ _ Heq) as [_ ->].
    subst d. rewrite failed_result_status in Hstatus. discriminate.
Qed.


Lemma audio_failure_aborts input_path task_id operations parameters
    (s : state World Audio.AudioProcessor) :
  exists evs,
    trace (snd (Audio.process_audio input_path task_id operations parameters s))
    = trace s ++ evs /\
    failure_aborts task_id evs
      (fst (Audio.process_audio input_path task_id operations parameters s)).
Proof.
  destruct (os_path_exists input_path (world s)) eqn:Hex.
  - destruct (AudioFacts.process_audio_run input_path task_id operations
                parameters s Hex) as (evs & fin & Htr & _ & _ & Hch & Hfin).
    exists evs. split; [exact Htr|].
    destruct fin as [final|e].
    + destruct Hfin as (s1 & s2 & info & _ & _ & ->).
      eapply chained_failure_aborts; [exact Hch|]. simpl. eauto.
    + rewrite Hfin.
      eapply chained_failure_aborts; [exact Hch|]. reflexivity.
  - rewrite AudioFacts.process_audio_absent by exact Hex. simpl.
    eexists. split; [reflexivity|].
    eexists. split; [reflexivity|]. split.
    + intros [|? ?] ? ? ? Heq; discriminate.
    + rewrite failed_result_status. discriminate.
Qed.

Lemma video_failure_aborts input_path task_id operations parameters
    (s : state World Video.VideoProcessor) :
  exists evs,
    trace (snd (Video.process_video input_path task_id operations parameters s))
    = trace s ++ evs /\
    failure_aborts task_id evs
      (fst (Video.process_video input_path task_id operations parameters s)).
Proof.
  destruct (os_path_exists input_path (world s)) eqn:Hex.
  - destruct (VideoFacts.process_video_run input_path task_id operations
                parameters s Hex) as (evs & fin & Htr & _ & _ & Hch & Hfin).
    exists evs. split; [exact Htr|].
    destruct fin as [final|e].
    + destruct Hfin as (s1 & s2 & info & _ & _ & ->).
      eapply chained_failure_aborts; [exact Hch|]. simpl. eauto.
    + rewrite Hfin.
      eapply chained_failure_aborts; [exact Hch|]. reflexivity.
  - rewrite VideoFacts.process_video_absent by exact Hex. simpl.
    eexists. split; [reflexivity|].
    eexists. split; [reflexivity|]. split.
    + intros [|? ?] ? ? ? Heq; discriminate.
    + rewrite failed_result_status. discriminate.
Qed.

(** C4.  [process_audio] and [process_video] always return a result
    dictionary.  When an awaited operation raised (after its fallback, if
    it has one), no further step follows it in the run and the result is
    the failed record carrying the message of that exception; a completed
    record is returned only by a run in which no operation raised. *)
Theorem failed_step_aborts_job
    (input_path task_id : string) (operations : list string)
    (parameters : option dict)
    (sa : state World Audio.AudioProcessor)
    (sv : state World Video.VideoProcessor) :
  (exists evs,
      trace (snd (Audio.process_audio input_path task_id operations parameters sa))
      = trace sa ++ evs /\
      failure_aborts task_id evs
        (fst (Audio.process_audio input_path task_id operations parameters sa))) /\
  (exists evs,
      trace (snd (Video.process_video input_path task_id operations parameters sv))
      = trace sv ++ evs /\
      failure_aborts task_id evs
        (fst (Video.process_video input_path task_id operations parameters sv))).
Proof. split; [apply audio_failure_aborts|apply video_failure_aborts]. Qed.

(** C10.  On an input path that exists and an empty operation list,
    [process_audio] and [process_video] return the completed record
    whose [output_path] is the input path; the run has no step and calls
    nothing but the probe of that path. *)
Theorem empty_pipeline_is_identity
    (input_path task_id : string) (parameters : option dict)
    (sa : state World Audio.AudioProcessor)
    (sv : state World Video.VideoProcessor) :
  os_path_exists input_path (world sa) = true ->
  os_path_exists input_path (world sv) = true ->
  (exists evs,
      trace (snd (Audio.process_audio input_path task_id [] parameters sa))
      = trace sa ++ evs /\
      identity_run task_id input_path evs
        (fst (Audio.process_audio input_path task_id [] parameters sa))) /\
  (exists evs,
      trace (snd (Video.process_video input_path task_id [] parameters sv))
      = trace sv ++ evs /\
      identity_run task_id input_path evs
        (fst (Video.process_video input_path task_id [] parameters sv))).
Proof.
  intros Ha Hv. split.
  - rewrite AudioFacts.process_audio_present by exact Ha.
    cbn [Audio.process_audio_loop]. rewrite ret_run.
    unfold Audio._get_audio_info, try_except. rewrite bind_run.
    unfold probe, external. cbn [world record self_obj trace].
    destruct (ffmpeg_probe input_path (world sa)) as [[doc|e] w].
    + unfold lift. destruct (Audio.audio_info_of doc) as [info|e]; simpl;
        rewrite <- !app_assoc; eexists; (split; [reflexivity|]);
        eexists; repeat split.
    + simpl. rewrite <- !app_assoc. eexists. split; [reflexivity|].
      eexists. repeat split.
  - rewrite VideoFacts.process_video_present by exact Hv.
    cbn [Video.process_video_loop]. rewrite ret_run.
    unfold Video._get_file_info, try_except. rewrite bind_run.
    unfold probe, external. cbn [world record self_obj trace].
    destruct (ffmpeg_probe input_path (world sv)) as [[doc|e] w].
    + unfold lift. destruct (Video.file_info_of doc) as [info|e]; simpl;
        rewrite <- !app_assoc; eexists; (split; [reflexivity|]);
        eexists; repeat split.
    + simpl. rewrite <- !app_assoc. eexists. split; [reflexivity|].
      eexists. repeat split.
Qed.


(** C2.  An entry of the operation list whose name is not a supported
    operation is skipped: the run over the list is the run over the
    entries before it, a logged warning, and the run over the entries
    after it, started on the current input the entries before left and
    numbered on from the index after the skipped one. *)
Theorem unknown_operation_is_skipped
    (task_id : string) (parameters : dict)
    (before after : list string) (audio_name video_name : string)
    (i : nat) (current_input : string)
    (sa : state World Audio.AudioProcessor)
    (sv : state World Video.VideoProcessor) :
  supported Audio.get_supported_operations audio_name = false ->
  supported Video.get_supported_operations video_name = false ->
  Audio.process_audio_loop task_id parameters i
    (before ++ audio_name :: after) current_input sa
  = (next ← Audio.process_audio_loop task_id parameters i before current_input;
     log WARNING ("Unknown operation: " +:+ audio_name);;
     Audio.process_audio_loop task_id parameters (S (i + length before))
       after next) sa
  /\
  Video.process_video_loop task_id parameters i
    (before ++ video_name :: after) current_input sv
  = (next ← Video.process_video_loop task_id parameters i before current_input;
     log WARNING ("Unknown operation: " +:+ video_name);;
     Video.process_video_loop task_id parameters (S (i + length before))
       after next) sv.
Proof.
  intros Ha Hv. split.
  - rewrite AudioFacts.process_audio_loop_execute.
    rewrite spec_execute_skips.
    + rewrite !bind_run, <- AudioFacts.process_audio_loop_execute.
      destruct (Audio.process_audio_loop _ _ _ before _ _) as [[next|e] s1];
        [|reflexivity].
      rewrite !bind_run. cbn [log emit].
      apply eq_sym, AudioFacts.process_audio_loop_execute.
    + pose proof (AudioFacts.audio_registered (World:=World) audio_name) as Hr.
      rewrite Ha in Hr. unfold registered in Hr.
      destruct (audio_registry audio_name); [discriminate|reflexivity].
  - rewrite VideoFacts.process_video_loop_execute.
    rewrite spec_execute_skips.
    + rewrite !bind_run, <- VideoFacts.process_video_loop_execute.
      destruct (Video.process_video_loop _ _ _ before _ _) as [[next|e] s1];
        [|reflexivity].
      rewrite !bind_run. cbn [log emit].
      apply eq_sym, VideoFacts.process_video_loop_execute.
    + pose proof (VideoFacts.video_registered (World:=World) video_name) as Hr.
      rewrite Hv in Hr. unfold registered in Hr.
      destruct (video_registry video_name); [discriminate|reflexivity].
Qed.

End Claims.


(** The hypotheses of C2 hold for a name neither pipeline supports. *)
Lemma unknown_operation_is_skipped_witness :
  supported Audio.get_supported_operations "bogus" = false /\
  supported Video.get_supported_operations "bogus" = false /\
  Audio.process_audio_loop "t1" ∅ 0
    (["normalize_audio"] ++ "bogus" :: ["change_speed"]) "in.wav" Demo.audio_studio
  = (next ← Audio.process_audio_loop "t1" ∅ 0 ["normalize_audio"] "in.wav";
     log WARNING ("Unknown operation: " +:+ "bogus");;
     Audio.process_audio_loop "t1" ∅ (S (0 + length ["normalize_audio"]))
       ["change_speed"] next) Demo.audio_studio
  /\
  Video.process_video_loop "t1" ∅ 0
    (["normalize_audio"] ++ "bogus" :: ["change_speed"]) "in.wav" Demo.video_studio
  = (next ← Video.process_video_loop "t1" ∅ 0 ["normalize_audio"] "in.wav";
     log WARNING ("Unknown operation: " +:+ "bogus");;
     Video.process_video_loop "t1" ∅ (S (0 + length ["normalize_audio"]))
       ["change_speed"] next) Demo.video_studio.
Proof.
  refine (conj eq_refl (conj eq_refl _)).
  apply (unknown_operation_is_skipped "t1" ∅ ["normalize_audio"] ["change_speed"]
           "bogus" "bogus" 0 "in.wav" Demo.audio_studio Demo.video_studio);
    reflexivity.
Defined.

(** The hypotheses of C10 hold on the scripted host. *)
Lemma empty_pipeline_is_identity_witness :
  os_path_exists "in.wav" (world Demo.audio_studio) = true /\
  os_path_exists "in.wav" (world Demo.video_studio) = true /\
  (exists evs,
      trace (snd (Audio.process_audio "in.wav" "t1" [] None Demo.audio_studio))
      = trace Demo.audio_studio ++ evs /\
      identity_run "t1" "in.wav" evs
        (fst (Audio.process_audio "in.wav" "t1" [] None Demo.audio_studio))) /\
  (exists evs,
      trace (snd (Video.process_video "in.wav" "t1" [] None Demo.video_studio))
      = trace Demo.video_studio ++ evs /\
      identity_run "t1" "in.wav" evs
        (fst (Video.process_video "in.wav" "t1" [] None Demo.video_studio))).
Proof.
  refine (conj eq_refl (conj eq_refl _)).
  apply (empty_pipeline_is_identity "in.wav" "t1" None
           Demo.audio_studio Demo.video_studio); reflexivity.
Defined.

End ExecutorClaims.

(* ===================================================================== *)
(** * The claims about the fallbacks *)
(* ===================================================================== *)

Module FallbackClaims.
Import Audio.

Lemma ffmpeg_runs_app t1 t2 : ffmpeg_runs (t1 ++ t2) = ffmpeg_runs t1 ++ ffmpeg_runs t2.
Proof.
  induction t1 as [|e t1 IH]; [reflexivity|].
  destruct e as [| c | | | |]; simpl; rewrite ?IH; try reflexivity.
  destruct c; simpl; rewrite ?IH; reflexivity.
Qed.

Section Fallbacks.
Context {World : Type} `{Host World}.

(** The SoX method runs no FFmpeg command. *)
Lemma noise_primary_runs_no_ffmpeg input_path output_path params
    (s : state World AudioProcessor) :
  exists evs,
    trace (snd (noise_reduction_primary input_path output_path params s))
    = trace s ++ evs /\
    ffmpeg_runs evs = [].
Proof.
  unfold noise_reduction_primary. rewrite bind_run.
  unfold run_process at 1, external.
  destruct (subprocess_run _ (world s)) as [[[]|e] w1]; cbn [world self_obj trace].
  2:{ eexists. split; [reflexivity|reflexivity]. }
  rewrite bind_run. unfold run_process at 1, external. cbn [world self_obj trace].
  destruct (subprocess_run _ w1) as [[[]|e] w2].
  2:{ simpl. rewrite <- app_assoc. eexists. split; reflexivity. }
  rewrite bind_run. unfold path_exists, ask. cbn [world self_obj trace].
  rewrite bind_run.
  destruct (os_path_exists _ w2).
  - unfold remove, external. cbn [world self_obj trace].
    destruct (os_remove _ w2) as [[[]|e] w3]; simpl;
      rewrite <- !app_assoc; eexists; split; reflexivity.
  - simpl. rewrite <- !app_assoc. eexists. split; reflexivity.
Qed.

Lemma noise_fallback_once_holds input_path output_path params
    (s s1 : state World AudioProcessor) e :
  noise_reduction_primary input_path output_path params s = (Raise e, s1) ->
  isinstance e CalledProcessError = true ->
  utf8_valid (exn_stderr e) = true ->
  noise_fallback_once input_path output_path params s s1.
Proof.
  intros Hprimary Hcls Hutf.
  destruct (noise_primary_runs_no_ffmpeg input_path output_path params s)
    as (evs & Htr & Hruns).
  rewrite Hprimary in Htr. simpl in Htr.
  unfold noise_fallback_once, _noise_reduction, try_except.
  rewrite Hprimary, Hcls. rewrite bind_run.
  unfold lift, bytes_decode. rewrite Hutf. rewrite bind_run. cbn [log emit].
  unfold _fallback_noise_reduction, try_except. rewrite bind_run.
  unfold run_ffmpeg, external. cbn [record world self_obj trace].
  destruct (ffmpeg_run _ (world s1)) as [[[]|e2] w2]; simpl;
    rewrite Htr, <- !app_assoc;
    eexists; (split; [reflexivity|]);
    rewrite !ffmpeg_runs_app, Hruns; split; reflexivity.
Qed.

Lemma noise_reraised_holds input_path output_path params
    (s s1 : state World AudioProcessor) e :
  noise_reduction_primary input_path output_path params s = (Raise e, s1) ->
  isinstance e CalledProcessError = false ->
  noise_reraised input_path output_path params s e.
Proof.
  intros Hprimary Hcls.
  destruct (noise_primary_runs_no_ffmpeg input_path output_path params s)
    as (evs & Htr & Hruns).
  rewrite Hprimary in Htr. simpl in Htr.
  unfold noise_reraised, _noise_reduction, try_except.
  rewrite Hprimary, Hcls. simpl. rewrite Htr, <- app_assoc.
  eexists. split; [reflexivity|].
  rewrite ffmpeg_runs_app, Hruns. split; reflexivity.
Qed.

(** [_normalize_audio] when its primary command raises: the error line,
    then the fallback. *)
Lemma normalize_audio_falls_back input_path output_path params
    (s : state World AudioProcessor) e w1 :
  ffmpeg_run (_normalize_audio_cmd input_path output_path) (world s) = (Raise e, w1) ->
  _normalize_audio input_path output_path params s
  = _fallback_normalize input_path output_path params
      (record (ELog ERROR ("Audio normalization failed: " +:+ exn_msg e))
         (mk_state (self_obj s) w1
            (trace s ++ [ECall (FfmpegRun (_normalize_audio_cmd input_path output_path))]))).
Proof.
  intros Hprimary.
  unfold _normalize_audio, normalize_audio_primary, try_except.
  rewrite bind_run. unfold run_ffmpeg, external. rewrite Hprimary.
  reflexivity.
Qed.

Lemma normalize_fallback_once_holds input_path output_path params
    (s : state World AudioProcessor) e w1 :
  ffmpeg_run (_normalize_audio_cmd input_path output_path) (world s) = (Raise e, w1) ->
  normalize_fallback_once input_path output_path params s w1.
Proof.
  intros Hprimary. unfold normalize_fallback_once. cbv zeta.
  rewrite (normalize_audio_falls_back _ _ _ _ _ _ Hprimary).
  unfold _fallback_normalize, try_except. rewrite bind_run.
  unfold run_ffmpeg, external. cbn [record world self_obj trace].
  destruct (ffmpeg_run _ w1) as [[[]|e2] w2]; simpl;
    rewrite <- !app_assoc; eexists; repeat split.
Qed.

Lemma failed_step_fails_job_holds input_path task_id operations parameters
    (s : state World AudioProcessor) :
  failed_step_fails_job input_path task_id operations parameters s.
Proof.
  destruct (ExecutorClaims.audio_failure_aborts input_path task_id operations
              parameters s) as (evs & Htr & d & Hres & Hraise & _).
  exists evs. split; [exact Htr|].
  intros name e Hin.
  assert (Hin' : In (EOutcome name (Raise e)) (steps evs))
    by (apply ExecutorClaims.steps_in; auto).
  apply in_split in Hin' as (before & after & Heq).
  destruct (Hraise _ _ _ _ Heq) as [_ ->]. exact Hres.
Qed.

(** C3, as amended.  [_normalize_audio] runs its fixed-volume-gain
    fallback exactly once whenever its loudness-normalisation command
    raises.  [_noise_reduction] runs its frequency-filter fallback exactly
    once when the SoX method raises [CalledProcessError] (a SoX run that
    exits with a non-zero status) whose captured output decodes as UTF-8,
    and raises any other exception of the SoX method again without running
    the fallback.  Each operation then ends as its fallback does, and an
    operation that raises makes [process_audio] report failed with the
    message of the exception. *)
Theorem fallback_attempted_once
    (input_path output_path : string) (params : dict)
    (sn sm so s1 s2 : state World AudioProcessor)
    (e_sox e_norm e_other : exn) (w1 : World) :
  noise_reduction_primary input_path output_path params sn = (Raise e_sox, s1) ->
  isinstance e_sox CalledProcessError = true ->
  utf8_valid (exn_stderr e_sox) = true ->
  ffmpeg_run (_normalize_audio_cmd input_path output_path) (world sm)
  = (Raise e_norm, w1) ->
  noise_reduction_primary input_path output_path params so = (Raise e_other, s2) ->
  isinstance e_other CalledProcessError = false ->
  noise_fallback_once input_path output_path params sn s1 /\
  normalize_fallback_once input_path output_path params sm w1 /\
  noise_reraised input_path output_path params so e_other /\
  (forall job_input task_id operations parameters sj,
      failed_step_fails_job job_input task_id operations parameters sj).
Proof.
  intros Hsox Hcls Hutf Hnorm Hother Hcls'.
  split; [eapply noise_fallback_once_holds; eauto|].
  split; [eapply normalize_fallback_once_holds; eauto|].
  split; [eapply noise_reraised_holds; eauto|].
  intros. apply failed_step_fails_job_holds.
Qed.

End Fallbacks.

(** The hypotheses of the amended C3 hold on the scripted host: SoX exits
    with status 2, the loudness normalisation fails once, SoX is not
    installed. *)
Lemma fallback_attempted_once_witness :
  (noise_reduction_primary "in.wav" "out.wav" ∅ Demo.audio_failing_sox
   = (Raise Demo.sox_exit_status,
      snd (noise_reduction_primary "in.wav" "out.wav" ∅ Demo.audio_failing_sox)) /\
   isinstance Demo.sox_exit_status CalledProcessError = true /\
   utf8_valid (exn_stderr Demo.sox_exit_status) = true /\
   ffmpeg_run (_normalize_audio_cmd "in.wav" "out.wav")
     (world Demo.audio_flaky_ffmpeg)
   = (Raise Demo.ffmpeg_failed, Demo.studio) /\
   noise_reduction_primary "in.wav" "out.wav" ∅ Demo.audio_missing_sox
   = (Raise Demo.sox_not_installed,
      snd (noise_reduction_primary "in.wav" "out.wav" ∅ Demo.audio_missing_sox)) /\
   isinstance Demo.sox_not_installed CalledProcessError = false) /\
  noise_fallback_once "in.wav" "out.wav" ∅ Demo.audio_failing_sox
    (snd (noise_reduction_primary "in.wav" "out.wav" ∅ Demo.audio_failing_sox)) /\
  normalize_fallback_once "in.wav" "out.wav" ∅ Demo.audio_flaky_ffmpeg Demo.studio /\
  noise_reraised "in.wav" "out.wav" ∅ Demo.audio_missing_sox Demo.sox_not_installed /\
  (forall job_input task_id operations parameters sj,
      failed_step_fails_job (World:=Demo.demo_world)
        job_input task_id operations parameters sj).
Proof.
  split.
  - repeat split; reflexivity.
  - apply (fallback_attempted_once "in.wav" "out.wav" ∅
             Demo.audio_failing_sox Demo.audio_flaky_ffmpeg Demo.audio_missing_sox
             (snd (noise_reduction_primary "in.wav" "out.wav" ∅ Demo.audio_failing_sox))
             (snd (noise_reduction_primary "in.wav" "out.wav" ∅ Demo.audio_missing_sox))
             Demo.sox_exit_status
             Demo.ffmpeg_failed Demo.sox_not_installed Demo.studio); reflexivity.
Defined.

(** C3 as written fails where SoX cannot be started: the primary method
    raises [FileNotFoundError], which [_noise_reduction] raises again, and
    the fallback command is never run. *)
Lemma fallback_skipped_when_sox_is_missing :
  ~ fallback_after_any_failure "in.wav" "out.wav" ∅ Demo.audio_missing_sox.
Proof.
  intros Hclaim.
  destruct (Hclaim Demo.sox_not_installed eq_refl) as (evs & Htr & Hruns).
  vm_compute in Htr. subst evs. discriminate Hruns.
Qed.

End FallbackClaims.

(* ===================================================================== *)
(** * storage_service.py: results and backend selection *)
(* ===================================================================== *)

Module StorageClaims.
Import Storage.

Lemma structured_error msg : structured (Ret (error_result msg)).
Proof.
  exists (error_result msg). split; [reflexivity|]. right.
  split; [exists msg|]; reflexivity.
Qed.

Lemma record_or_error_of_error msg :
  success_record (error_result msg) \/ error_record (error_result msg).
Proof. right. split; [exists msg|]; reflexivity. Qed.

Section Structured.
Context {World Self : Type} `{Host World}.

Lemma yields_ret {A} (P : A -> Prop) a :
  P a -> yields P (mret a : M World Self A).
Proof. intros HP s. exact HP. Qed.

Lemma yields_bind {A B} (P : B -> Prop) (m : M World Self A)
    (k : A -> M World Self B) :
  (forall a, yields P (k a)) -> yields P (m ≫= k).
Proof.
  intros Hk s. rewrite bind_run.
  destruct (m s) as [[a|e] s1]; [apply Hk|exact I].
Qed.

(** A [try] block all of whose returns are records, under a handler that
    turns every exception into a record, is a structured operation. *)
Lemma try_except_structured (body : M World Self dict)
    (handler : exn -> M World Self dict) :
  yields (fun d => success_record d \/ error_record d) body ->
  (forall e s, structured (fst (handler e s))) ->
  forall s, structured (fst (try_except body handler s)).
Proof.
  intros Hbody Hhandler s. unfold try_except.
  specialize (Hbody s).
  destruct (body s) as [[d|e] s1]; simpl in *.
  - exists d. auto.
  - apply Hhandler.
Qed.

Lemma log_then_error_structured lvl line msg (s : state World Self) :
  structured (fst ((log lvl line;; mret (error_result msg)) s)).
Proof. apply structured_error. Qed.

Lemma on_field_fst {Obj A} (get : Self -> Obj) (set : Obj -> Self -> Self)
    (m : M World Obj A) s :
  fst (on_field get set m s)
  = fst (m (mk_state (get (self_obj s)) (world s) (trace s))).
Proof. unfold on_field. destruct (m _). reflexivity. Qed.

End Structured.

(** Decompose a goal [yields P m] along [m]; what is left are the
    dictionaries [m] returns. *)
Ltac yields_step :=
  match goal with
  | |- yields _ (mbind _ _) => apply yields_bind; intros ?
  | |- yields _ (mret _) => apply yields_ret
  | |- yields _ (if ?b then _ else _) => destruct b
  | |- yields _ (match ?x with _ => _ end) => destruct x
  end.

Ltac structured_tac :=
  apply try_except_structured;
  [ repeat yields_step;
    first [ apply record_or_error_of_error
          | left; split; reflexivity ]
  | intros e s';
    repeat match goal with
           | |- context [if ?b then _ else _] => destruct b
           end;
    apply log_then_error_structured ].

Section Operations.
Context {World : Type} `{Host World}.

Lemma r2_upload_file_structured local_path remote_key metadata
    (s : state World CloudflareR2Service) :
  structured (fst (r2_upload_file local_path remote_key metadata s)).
Proof. unfold r2_upload_file. structured_tac. Qed.

Lemma r2_generate_signed_url_structured remote_key expiration
    (s : state World CloudflareR2Service) :
  structured (fst (r2_generate_signed_url remote_key expiration s)).
Proof. unfold r2_generate_signed_url. structured_tac. Qed.

Lemma r2_delete_file_structured remote_key (s : state World CloudflareR2Service) :
  structured (fst (r2_delete_file remote_key s)).
Proof. unfold r2_delete_file. structured_tac. Qed.

Lemma r2_list_files_structured prefix (s : state World CloudflareR2Service) :
  structured (fst (r2_list_files prefix s)).
Proof. unfold r2_list_files. structured_tac. Qed.

Lemma local_upload_file_structured local_path remote_key metadata
    (s : state World LocalStorageService) :
  structured (fst (local_upload_file local_path remote_key metadata s)).
Proof. unfold local_upload_file. structured_tac. Qed.

Lemma local_generate_signed_url_structured remote_key expiration
    (s : state World LocalStorageService) :
  structured (fst (local_generate_signed_url remote_key expiration s)).
Proof. unfold local_generate_signed_url. structured_tac. Qed.

Lemma local_delete_file_structured remote_key (s : state World LocalStorageService) :
  structured (fst (local_delete_file remote_key s)).
Proof. unfold local_delete_file. structured_tac. Qed.

Lemma local_list_files_structured prefix (s : state World LocalStorageService) :
  structured (fst (local_list_files prefix s)).
Proof. unfold local_list_files. structured_tac. Qed.

(** The manager hands back what the service it refers to hands back. *)
Lemma on_primary_structured (r2_method : M World CloudflareR2Service dict)
    (local_method : M World LocalStorageService dict) :
  (forall s, structured (fst (r2_method s))) ->
  (forall s, structured (fst (local_method s))) ->
  forall s, structured (fst (on_primary r2_method local_method s)).
Proof.
  intros Hr2 Hlocal s. unfold on_primary. rewrite bind_run. cbn [get_self].
  destruct (primary_service (self_obj s)); unfold on_r2, on_local;
    rewrite on_field_fst; auto.
Qed.

(** C7.  Every storage operation, on the remote service, on the local
    service and through the manager, returns a dictionary for every input
    and every behaviour of the back end: a success record, or an error
    record carrying a message.  No exception leaves the operation. *)
Theorem storage_operations_return_records
    (local_path remote_key prefix : string) (metadata : option dict)
    (expiration : Z)
    (sr : state World CloudflareR2Service)
    (sl : state World LocalStorageService)
    (sm : state World StorageManager) :
  (structured (fst (r2_upload_file local_path remote_key metadata sr)) /\
   structured (fst (r2_generate_signed_url remote_key expiration sr)) /\
   structured (fst (r2_delete_file remote_key sr)) /\
   structured (fst (r2_list_files prefix sr))) /\
  (structured (fst (local_upload_file local_path remote_key metadata sl)) /\
   structured (fst (local_generate_signed_url remote_key expiration sl)) /\
   structured (fst (local_delete_file remote_key sl)) /\
   structured (fst (local_list_files prefix sl))) /\
  (structured (fst (upload_file local_path remote_key metadata sm)) /\
   structured (fst (generate_signed_url remote_key expiration sm)) /\
   structured (fst (delete_file remote_key sm)) /\
   structured (fst (list_files prefix sm))).
Proof.
  split; [|split].
  - repeat split.
    + apply r2_upload_file_structured.
    + apply r2_generate_signed_url_structured.
    + apply r2_delete_file_structured.
    + apply r2_list_files_structured.
  - repeat split.
    + apply local_upload_file_structured.
    + apply local_generate_signed_url_structured.
    + apply local_delete_file_structured.
    + apply local_list_files_structured.
  - unfold upload_file, generate_signed_url, delete_file, list_files.
    repeat split; apply on_primary_structured; intros s.
    + apply r2_upload_file_structured.
    + apply local_upload_file_structured.
    + apply r2_generate_signed_url_structured.
    + apply local_generate_signed_url_structured.
    + apply r2_delete_file_structured.
    + apply local_delete_file_structured.
    + apply r2_list_files_structured.
    + apply local_list_files_structured.
Qed.

End Operations.

(** ** Backend selection *)

Section Selection.
Context {World Self : Type} `{Host World}.

(** With a credential absent or empty, the service has no client. *)
Lemma new_r2_without_credentials (s : state World Self) :
  forallb truthy_str (credentials (world s)) = false ->
  exists r2 s', new_CloudflareR2Service s = (Ret r2, s') /\ is_available r2 = false.
Proof.
  intros Hcred. unfold new_CloudflareR2Service, construct, _initialize_client,
    try_except. rewrite bind_run. unfold ask. cbn [world].
  rewrite bind_run. unfold set_bucket_name. rewrite bind_run. cbn [get_self set_self].
  rewrite bind_run. cbn [get_self self_obj bucket_name world].
  unfold credentials in Hcred. rewrite Hcred. cbn [negb log emit].
  eexists _, _. split; reflexivity.
Qed.

(** When the client cannot be built, the service has no client. *)
Lemma new_r2_client_refused (s : state World Self) e w1 :
  forallb truthy_str (credentials (world s)) = true ->
  boto3_client (r2_client_of (world s)) (world s) = (Raise e, w1) ->
  exists r2 s', new_CloudflareR2Service s = (Ret r2, s') /\ is_available r2 = false.
Proof.
  intros Hcred Hnew. unfold new_CloudflareR2Service, construct, _initialize_client,
    try_except. rewrite bind_run. unfold ask. cbn [world].
  rewrite bind_run. unfold set_bucket_name. rewrite bind_run. cbn [get_self set_self].
  rewrite bind_run. cbn [get_self self_obj bucket_name world].
  unfold credentials in Hcred. rewrite Hcred. cbn [negb].
  rewrite bind_run. unfold external at 1. cbn [world].
  unfold r2_client_of in Hnew. rewrite Hnew.
  destruct (isinstance e NoCredentialsError); [|destruct (isinstance e ClientError)];
    eexists _, _; split; reflexivity.
Qed.

(** With the full credential set and a probe that succeeds, the service
    has its client. *)
Lemma new_r2_probe_succeeds (s : state World Self) w1 w2 :
  forallb truthy_str (credentials (world s)) = true ->
  boto3_client (r2_client_of (world s)) (world s) = (Ret tt, w1) ->
  s3_head_bucket (r2_client_of (world s)) (r2_bucket_of (world s)) w1 = (Ret tt, w2) ->
  exists r2 s', new_CloudflareR2Service s = (Ret r2, s') /\
                client r2 = Some (r2_client_of (world s)).
Proof.
  intros Hcred Hnew Hprobe.
  unfold new_CloudflareR2Service, construct, _initialize_client, try_except.
  rewrite bind_run. unfold ask. cbn [world].
  rewrite bind_run. unfold set_bucket_name. rewrite bind_run. cbn [get_self set_self].
  rewrite bind_run. cbn [get_self self_obj bucket_name world].
  unfold credentials in Hcred. rewrite Hcred. cbn [negb].
  rewrite bind_run. unfold external at 1. cbn [world].
  unfold r2_client_of in Hnew, Hprobe. rewrite Hnew.
  rewrite bind_run. unfold set_client. rewrite bind_run. cbn [get_self set_self].
  cbn [self_obj bucket_name client world trace].
  rewrite bind_run. cbn [get_self self_obj bucket_name].
  rewrite bind_run. unfold external. cbn [world].
  unfold r2_bucket_of in Hprobe. rewrite Hprobe.
  eexists _, _. split; reflexivity.
Qed.

(** With the full credential set and a probe that fails, the service
    keeps the client it assigned before the probe. *)
Lemma new_r2_probe_fails (s : state World Self) w1 e w2 :
  forallb truthy_str (credentials (world s)) = true ->
  boto3_client (r2_client_of (world s)) (world s) = (Ret tt, w1) ->
  s3_head_bucket (r2_client_of (world s)) (r2_bucket_of (world s)) w1 = (Raise e, w2) ->
  exists r2 s', new_CloudflareR2Service s = (Ret r2, s') /\
                client r2 = Some (r2_client_of (world s)).
Proof.
  intros Hcred Hnew Hprobe.
  unfold new_CloudflareR2Service, construct, _initialize_client, try_except.
  rewrite bind_run. unfold ask. cbn [world].
  rewrite bind_run. unfold set_bucket_name. rewrite bind_run. cbn [get_self set_self].
  rewrite bind_run. cbn [get_self self_obj bucket_name world].
  unfold credentials in Hcred. rewrite Hcred. cbn [negb].
  rewrite bind_run. unfold external at 1. cbn [world].
  unfold r2_client_of in Hnew, Hprobe. rewrite Hnew.
  rewrite bind_run. unfold set_client. rewrite bind_run. cbn [get_self set_self].
  cbn [self_obj bucket_name client world trace].
  rewrite bind_run. cbn [get_self self_obj bucket_name].
  rewrite bind_run. unfold external. cbn [world].
  unfold r2_bucket_of in Hprobe. rewrite Hprobe.
  destruct (isinstance e NoCredentialsError); [|destruct (isinstance e ClientError)];
    eexists _, _; split; reflexivity.
Qed.

(** A manager that was built reports the backend its remote service
    decides, and refers to the matching service. *)
Lemma new_StorageManager_selects (s s' : state World Self) m :
  new_StorageManager s = (Ret m, s') ->
  exists s1,
    new_CloudflareR2Service s = (Ret (r2_service m), s1) /\
    primary_service m
    = (if is_available (r2_service m) then TheR2Service else TheLocalService) /\
    get_storage_type m
    = (if is_available (r2_service m) then "cloudflare_r2" else "local").
Proof.
  unfold new_StorageManager. rewrite bind_run.
  destruct (new_CloudflareR2Service s) as [[r2|e] s1]; [|discriminate].
  rewrite bind_run.
  destruct (new_LocalStorageService "./storage" s1) as [[local_|e] s2];
    [|discriminate].
  rewrite bind_run. cbn [log emit]. rewrite ret_run.
  intros Heq. injection Heq as <- _. exists s1. repeat split.
Qed.

(** The part of backend selection the code gets right: a manager built
    without the full credential set is local; one built with it and with a
    probe that succeeds is remote. *)
Lemma backend_selection_sound (s s' : state World Self) m :
  new_StorageManager s = (Ret m, s') ->
  (forallb truthy_str (credentials (world s)) = false ->
   get_storage_type m = "local" /\ primary_service m = TheLocalService) /\
  (forall w1 w2,
      forallb truthy_str (credentials (world s)) = true ->
      boto3_client (r2_client_of (world s)) (world s) = (Ret tt, w1) ->
      s3_head_bucket (r2_client_of (world s)) (r2_bucket_of (world s)) w1
      = (Ret tt, w2) ->
      get_storage_type m = "cloudflare_r2" /\ primary_service m = TheR2Service).
Proof.
  intros Hnew.
  destruct (new_StorageManager_selects _ _ _ Hnew) as (s1 & Hr2 & Hprimary & Htype).
  split.
  - intros Hcred.
    destruct (new_r2_without_credentials s Hcred) as (r2 & s2 & Hr2' & Havail).
    rewrite Hr2 in Hr2'. injection Hr2' as Heq _. subst r2.
    rewrite Havail in Hprimary, Htype. auto.
  - intros w1 w2 Hcred Hclient Hprobe.
    destruct (new_r2_probe_succeeds s w1 w2 Hcred Hclient Hprobe)
      as (r2 & s2 & Hr2' & Hsome).
    rewrite Hr2 in Hr2'. injection Hr2' as Heq _. subst r2.
    unfold is_available in Hprimary, Htype. rewrite Hsome in Hprimary, Htype. auto.
Qed.

(** The part it gets wrong, for every host: with the full credential set,
    a client that was built and a probe that raises, the manager is still
    remote. *)
Lemma failed_probe_is_not_local (s s' : state World Self) m w1 e w2 :
  new_StorageManager s = (Ret m, s') ->
  forallb truthy_str (credentials (world s)) = true ->
  boto3_client (r2_client_of (world s)) (world s) = (Ret tt, w1) ->
  s3_head_bucket (r2_client_of (world s)) (r2_bucket_of (world s)) w1
  = (Raise e, w2) ->
  get_storage_type m = "cloudflare_r2" /\ primary_service m = TheR2Service.
Proof.
  intros Hnew Hcred Hclient Hprobe.
  destruct (new_StorageManager_selects _ _ _ Hnew) as (s1 & Hr2 & Hprimary & Htype).
  destruct (new_r2_probe_fails s w1 e w2 Hcred Hclient Hprobe)
    as (r2 & s2 & Hr2' & Hsome).
  rewrite Hr2 in Hr2'. injection Hr2' as Heq _. subst r2.
  unfold is_available in Hprimary, Htype. rewrite Hsome in Hprimary, Htype. auto.
Qed.

End Selection.

(** C6, where the code departs from it.  On the scripted host with the
    full credential set, a client that is built and a bucket that does not
    answer the probe, [StorageManager()] is built, [get_storage_type]
    reports the remote backend, [primary_service] is the remote service,
    and an upload is answered by the remote service with its error. *)
Theorem failed_probe_keeps_remote_backend :
  let s0 : state Demo.demo_world unit := Demo.start tt Demo.unreachable_bucket in
  forallb truthy_str (credentials (world s0)) = true /\
  fst (s3_head_bucket (r2_client_of (world s0)) (r2_bucket_of (world s0)) (world s0))
  = Raise (Demo.client_error "HeadBucket") /\
  exists m s1,
    new_StorageManager s0 = (Ret m, s1) /\
    get_storage_type m = "cloudflare_r2" /\
    primary_service m = TheR2Service /\
    fst (upload_file "in.wav" "audio/t1_in.wav" None
           (mk_state m (world s1) (trace s1)))
    = Ret (error_result
             ("Upload failed: " +:+ exn_msg (Demo.client_error "PutObject"))).
Proof.
  cbv zeta. split; [reflexivity|]. split; [reflexivity|].
  eexists _, _. split; [vm_compute; reflexivity|].
  repeat split; vm_compute; reflexivity.
Qed.

End StorageClaims.

(* ===================================================================== *)
(** * ai_services.py: transcription and the workflow *)
(* ===================================================================== *)

Module AIClaims.
Import AI.

Section Quiet.
Context {World Self : Type} `{Host World}.

Lemma quiet_of_tame {A} (m : M World Self A) : tame m -> quiet m.
Proof. intros Hm s. destruct (Hm s) as [_ Hq]. exact Hq. Qed.

Lemma quiet_set_self o : quiet (set_self o : M World Self unit).
Proof. intros s. exists []. simpl. rewrite app_nil_r. auto. Qed.

Lemma quiet_bind {A B} (m : M World Self A) (k : A -> M World Self B) :
  quiet m -> (forall a, quiet (k a)) -> quiet (m ≫= k).
Proof.
  intros Hm Hk s. rewrite bind_run.
  destruct (Hm s) as (evs & Htr & Hst & Hsg).
  destruct (m s) as [[a|e] s1]; simpl in *.
  - destruct (Hk a s1) as (evs' & Htr' & Hst' & Hsg').
    exists (evs ++ evs').
    rewrite Htr', Htr, steps_app, stages_app, Hst, Hst', Hsg, Hsg', app_assoc. auto.
  - exists evs. auto.
Qed.

Lemma quiet_try_except {A} (m : M World Self A) (h : exn -> M World Self A) :
  quiet m -> (forall e, quiet (h e)) -> quiet (try_except m h).
Proof.
  intros Hm Hh s. unfold try_except.
  destruct (Hm s) as (evs & Htr & Hst & Hsg).
  destruct (m s) as [[a|e] s1]; simpl in *.
  - exists evs. auto.
  - destruct (Hh e s1) as (evs' & Htr' & Hst' & Hsg').
    exists (evs ++ evs').
    rewrite Htr', Htr, steps_app, stages_app, Hst, Hst', Hsg, Hsg', app_assoc. auto.
Qed.

Lemma quiet_on_field {Obj A} (get : Self -> Obj) (set : Obj -> Self -> Self)
    (m : M World Obj A) :
  quiet m -> quiet (on_field get set m).
Proof.
  intros Hm s. unfold on_field.
  destruct (Hm (mk_state (get (self_obj s)) (world s) (trace s)))
    as (evs & Htr & Hst & Hsg).
  destruct (m _) as [r s1]. simpl in *. exists evs. auto.
Qed.

(** What a computation under a catch-all handler answers. *)
Lemma try_except_answers {A} (P : A -> Prop) (body : M World Self A)
    (handler : exn -> M World Self A) :
  yields P body -> (forall e, answers P (handler e)) ->
  answers P (try_except body handler).
Proof.
  intros Hbody Hhandler s. unfold try_except.
  specialize (Hbody s).
  destruct (body s) as [[a|e] s1]; simpl in *; [eauto|apply Hhandler].
Qed.

Lemma try_except_yields {A} (P : A -> Prop) (body : M World Self A)
    (handler : exn -> M World Self A) :
  yields P body -> (forall e, yields P (handler e)) ->
  yields P (try_except body handler).
Proof.
  intros Hbody Hhandler s. unfold try_except.
  specialize (Hbody s).
  destruct (body s) as [[a|e] s1]; simpl in *; [auto|apply Hhandler].
Qed.

Lemma yields_lift_bind {A B} (P : B -> Prop) (o : outcome A)
    (k : A -> M World Self B) :
  (forall a, o = Ret a -> yields P (k a)) -> yields P (lift o ≫= k).
Proof.
  intros Hk s. rewrite bind_run. unfold lift.
  destruct o as [a|e]; [apply Hk; reflexivity|exact I].
Qed.

Lemma yields_raise {A} (P : A -> Prop) e : yields P (raise e : M World Self A).
Proof. intros s. exact I. Qed.

Lemma answers_log_ret {A} (P : A -> Prop) lvl line (a : A) :
  P a -> answers P (log lvl line;; mret a : M World Self A).
Proof. intros HP s. exists a. auto. Qed.

Lemma answers_on_field {Obj A} (P : A -> Prop) (get : Self -> Obj)
    (set : Obj -> Self -> Self) (m : M World Obj A) :
  answers P m -> answers P (on_field get set m).
Proof.
  intros Hm s. rewrite StorageClaims.on_field_fst. apply Hm.
Qed.

End Quiet.

Ltac quiet_step :=
  match goal with
  | |- quiet (mbind _ _) => apply quiet_bind; [| intros ?]
  | |- quiet (try_except _ _) => apply quiet_try_except; [| intros ?]
  | |- quiet (set_self _) => apply quiet_set_self
  | |- quiet (if ?b then _ else _) => destruct b
  | |- quiet (match ?x with _ => _ end) => destruct x
  | |- quiet _ => apply quiet_of_tame; tame_tac
  end.

Ltac quiet_tac := repeat quiet_step.

Section Services.
Context {World : Type} `{Host World}.

Lemma quiet_load_model name : quiet (load_model (World:=World) name).
Proof. unfold load_model. quiet_tac. Qed.

Lemma quiet_transcribe_audio audio_path language name :
  quiet (transcribe_audio (World:=World) audio_path language name).
Proof.
  unfold transcribe_audio.
  apply quiet_try_except; [|intros e; quiet_tac].
  apply quiet_bind; [quiet_tac|intros present].
  apply quiet_bind; [quiet_tac|intros _].
  apply quiet_bind; [apply quiet_load_model|intros loaded].
  quiet_tac.
Qed.

Lemma quiet_translate_text text target source :
  quiet (translate_text (World:=World) text target source).
Proof. unfold translate_text. quiet_tac. Qed.


(** Decompose a goal [yields P m], keeping what the pure steps
    returned. *)
Ltac shape_step :=
  match goal with
  | |- yields _ (mbind _ (lift _)) => apply yields_lift_bind; intros ? ?
  | |- yields _ (mbind _ _) => apply StorageClaims.yields_bind; intros ?
  | |- yields _ (try_except _ _) => apply try_except_yields; [|intros ?]
  | |- yields _ (mret _) => apply StorageClaims.yields_ret
  | |- yields _ (raise _) => apply yields_raise
  | |- yields _ (if ?b then _ else _) => destruct b
  | |- yields _ (match ?x with _ => _ end) => destruct x
  end.

Lemma error_result_has_error msg : error_result msg !! "error" = Some (PStr msg).
Proof. reflexivity. Qed.

Lemma transcribe_audio_answers audio_path language name :
  answers transcription_shape
    (transcribe_audio (World:=World) audio_path language name).
Proof.
  unfold transcribe_audio. apply try_except_answers.
  - repeat shape_step.
    intros _. split; [eexists; reflexivity|]. split; [eexists; reflexivity|].
    match goal with
    | Hd : duration_of ?segs = Ret ?d |- _ =>
        exists segs; split; [reflexivity|];
        unfold duration_of in Hd; destruct (last segs) as [segment|]
    end.
    + eexists. split; [eassumption|reflexivity].
    + match goal with Hd : Ret _ = Ret _ |- _ => injection Hd as <- end.
      reflexivity.
  - intros e. apply answers_log_ret.
    intros Herr. rewrite error_result_has_error in Herr. discriminate.
Qed.

Lemma translate_text_answers text target source :
  answers translation_shape (translate_text (World:=World) text target source).
Proof.
  unfold translate_text. apply try_except_answers.
  - repeat shape_step;
      intros Herr; try (rewrite error_result_has_error in Herr; discriminate).
    eexists; reflexivity.
  - intros e. apply answers_log_ret.
    intros Herr. rewrite error_result_has_error in Herr. discriminate.
Qed.

Lemma synthesize_speech_answers text language voice provider output_path :
  answers synthesis_shape
    (synthesize_speech (World:=World) text language voice provider output_path).
Proof.
  unfold synthesize_speech, _google_tts, _aws_polly_tts.
  apply try_except_answers.
  - repeat shape_step;
      intros Herr; try (rewrite error_result_has_error in Herr; discriminate);
      eexists; reflexivity.
  - intros e. apply answers_log_ret.
    intros Herr. rewrite error_result_has_error in Herr. discriminate.
Qed.

(** C8.  A transcription result that reports no error has a [duration]
    equal to the [end] of the last of its [segments], and equal to the
    integer 0 when it has no segment. *)
Theorem duration_is_end_of_last_segment
    (audio_path : string) (language : option string) (name : string)
    (s s' : state World SpeechToTextService) (d : dict) :
  transcribe_audio audio_path language name s = (Ret d, s') ->
  d !! "error" = None ->
  duration_is_last_end d.
Proof.
  intros Hrun Herr.
  destruct (transcribe_audio_answers audio_path language name s)
    as (d' & Hd' & Hshape).
  rewrite Hrun in Hd'. injection Hd' as <-.
  apply Hshape, Herr.
Qed.

(** The segments returned are those of the speech model, in order, with
    the same bounds. *)
Lemma copy_segments_bounds raw :
  forall segments,
    copy_segments raw = Ret segments ->
    Forall2 (fun r c => getitem c "start" = getitem r "start" /\
                        getitem c "end" = getitem r "end")
      raw segments.
Proof.
  induction raw as [|r raw IH]; simpl; intros segments Hcopy.
  - injection Hcopy as <-. constructor.
  - destruct (getitem r "start") as [start|] eqn:Hs; [|discriminate].
    destruct (getitem r "end") as [end_|] eqn:He; [|discriminate].
    simpl in Hcopy.
    destruct (getitem r "text") as [text|]; [|discriminate]. simpl in Hcopy.
    destruct (strip_ws_method text) as [text'|]; [|discriminate]. simpl in Hcopy.
    destruct (copy_segments raw) as [rest|]; [|discriminate]. simpl in Hcopy.
    injection Hcopy as <-. constructor; [|apply IH; reflexivity].
    rewrite Hs, He. split; reflexivity.
Qed.

(** ** Reaching the speech back end *)







End Services.

(** The hypotheses of C8 hold on the scripted host: the recording is
    transcribed into two segments and the duration is the end of the
    second. *)
Lemma duration_is_end_of_last_segment_witness :
  (transcribe_audio "in.wav" None "base" Demo.stt_studio
   = (Ret Demo.transcript,
      snd (transcribe_audio "in.wav" None "base" Demo.stt_studio)) /\
   Demo.transcript !! "error" = None) /\
  duration_is_last_end Demo.transcript.
Proof.
  split.
  - split; vm_compute; reflexivity.
  - apply (duration_is_end_of_last_segment "in.wav" None "base" Demo.stt_studio
             (snd (transcribe_audio "in.wav" None "base" Demo.stt_studio))
             Demo.transcript);
      vm_compute; reflexivity.
Defined.


(** ** The workflow *)

(** Close a goal that equates two traces, from the equations on traces in
    the context. *)
Ltac trace_eq :=
  repeat (cbn [record trace];
          match goal with
          | H : trace ?x = _ |- context [trace ?x] => rewrite H
          end);
  repeat match goal with x := _ |- _ => subst x end;
  cbn [record trace];
  repeat (rewrite <- ?app_assoc; simpl);
  reflexivity.

Section Workflow.
Context {World : Type} `{Host World}.


Lemma stage_error_run label (d : dict) err :
  d !! "error" = Some err ->
  stage_error label d = Ret (error_result (label +:+ " failed: " +:+ str_ err)).
Proof. intros Herr. unfold stage_error, dict_item. rewrite Herr. reflexivity. Qed.

Lemma dict_has_lookup (d : dict) k : dict_has d k = true <-> d !! k <> None.
Proof. unfold dict_has. destruct (d !! k); split; congruence. Qed.



End Workflow.
End AIClaims.

(* ===================================================================== *)
(** * Facts about strings and about the calls of a computation *)
(* ===================================================================== *)

Module CallFacts.

Lemma prefix_slash c r :
  String.prefix "/" (String c r) = if ascii_dec "/" c then true else false.
Proof.
  change (String.prefix "/" (String c r))
    with (match ascii_dec "/" c with
          | left _ => String.prefix EmptyString r
          | right _ => false
          end).
  destruct (ascii_dec "/" c); [destruct r|]; reflexivity.
Qed.

(** Replacing the separator by itself changes nothing. *)
Lemma str_replace_slash s : str_replace s "/" "/" = s.
Proof.
  unfold str_replace. induction s as [|c s IH]; [reflexivity|].
  cbn [replace_go]. rewrite prefix_slash.
  destruct (ascii_dec "/" c) as [<-|_].
  - change (String.length "/" - 1) with 0. rewrite IH. reflexivity.
  - rewrite IH. reflexivity.
Qed.

Section Calls.
Context {World Self : Type} `{Host World}.
Variable P : call -> bool.

Lemma calls_within_silent {A} (m : M World Self A) :
  (forall s, trace (snd (m s)) = trace s) -> calls_within P m.
Proof. intros Hm s. exists []. rewrite app_nil_r. auto. Qed.

Lemma calls_within_ret {A} (a : A) : calls_within P (mret a : M World Self A).
Proof. apply calls_within_silent. reflexivity. Qed.

Lemma calls_within_raise {A} e : calls_within P (raise e : M World Self A).
Proof. apply calls_within_silent. reflexivity. Qed.

Lemma calls_within_lift {A} (o : outcome A) :
  calls_within P (lift o : M World Self A).
Proof. apply calls_within_silent. reflexivity. Qed.

Lemma calls_within_ask {A} (f : World -> A) :
  calls_within P (ask f : M World Self A).
Proof. apply calls_within_silent. reflexivity. Qed.

Lemma calls_within_ask_or_raise {A} (f : World -> outcome A) :
  calls_within P (ask_or_raise f : M World Self A).
Proof. apply calls_within_silent. reflexivity. Qed.

Lemma calls_within_get_self : calls_within P (get_self : M World Self Self).
Proof. apply calls_within_silent. reflexivity. Qed.

Lemma calls_within_set_self o : calls_within P (set_self o : M World Self unit).
Proof. apply calls_within_silent. reflexivity. Qed.

Lemma calls_within_emit e :
  match e with ECall _ => False | _ => True end ->
  calls_within P (emit e : M World Self unit).
Proof. intros He s. exists [e]. split; [reflexivity|]. destruct e; easy. Qed.

Lemma calls_within_log lvl msg : calls_within P (log lvl msg : M World Self unit).
Proof. apply calls_within_emit. exact I. Qed.

Lemma calls_within_external {A} c (f : World -> outcome A * World) :
  P c = true -> calls_within P (external c f : M World Self A).
Proof.
  intros Hc s. unfold calls_from, external. destruct (f (world s)) as [r w].
  exists [ECall c]. simpl. rewrite Hc. split; reflexivity.
Qed.

Lemma calls_from_bind {A B} (m : M World Self A) (k : A -> M World Self B) s :
  calls_from P m s ->
  (forall a s1, m s = (Ret a, s1) -> calls_from P (k a) s1) ->
  calls_from P (m ≫= k) s.
Proof.
  intros (evs & Htr & Hc) Hk. unfold calls_from. rewrite bind_run.
  destruct (m s) as [[a|e] s1] eqn:Hm; simpl in Htr.
  - destruct (Hk a s1 eq_refl) as (evs' & Htr' & Hc').
    exists (evs ++ evs'). rewrite Htr', Htr, app_assoc, calls_app, forallb_app, Hc, Hc'.
    auto.
  - exists evs. auto.
Qed.

Lemma calls_within_bind {A B} (m : M World Self A) (k : A -> M World Self B) :
  calls_within P m -> (forall a, calls_within P (k a)) -> calls_within P (m ≫= k).
Proof. intros Hm Hk s. apply calls_from_bind; [apply Hm|intros a s1 _; apply Hk]. Qed.

Lemma calls_from_try_except {A} (m : M World Self A) (h : exn -> M World Self A) s :
  calls_from P m s ->
  (forall e s1, m s = (Raise e, s1) -> calls_from P (h e) s1) ->
  calls_from P (try_except m h) s.
Proof.
  intros (evs & Htr & Hc) Hh. unfold calls_from, try_except.
  destruct (m s) as [[a|e] s1] eqn:Hm; simpl in Htr.
  - exists evs. auto.
  - destruct (Hh e s1 eq_refl) as (evs' & Htr' & Hc').
    exists (evs ++ evs'). rewrite Htr', Htr, app_assoc, calls_app, forallb_app, Hc, Hc'.
    auto.
Qed.

Lemma calls_within_try_except {A} (m : M World Self A) (h : exn -> M World Self A) :
  calls_within P m -> (forall e, calls_within P (h e)) ->
  calls_within P (try_except m h).
Proof.
  intros Hm Hh s. apply calls_from_try_except; [apply Hm|intros e s1 _; apply Hh].
Qed.

Lemma calls_from_on_field {Obj A} (get : Self -> Obj) (set : Obj -> Self -> Self)
    (m : M World Obj A) s :
  calls_from P m (mk_state (get (self_obj s)) (world s) (trace s)) ->
  calls_from P (on_field get set m) s.
Proof.
  intros (evs & Htr & Hc). unfold calls_from, on_field.
  destruct (m _) as [r s1]. simpl in *. exists evs. auto.
Qed.

Lemma calls_within_on_field {Obj A} (get : Self -> Obj) (set : Obj -> Self -> Self)
    (m : M World Obj A) :
  calls_within P m -> calls_within P (on_field get set m).
Proof. intros Hm s. apply calls_from_on_field, Hm. Qed.

Lemma calls_within_construct {Obj A} (fresh : Obj) (init : M World Obj A) :
  calls_within P init -> calls_within P (construct fresh init : M World Self Obj).
Proof.
  intros Hm s. unfold calls_from, construct.
  destruct (Hm (mk_state fresh (world s) (trace s))) as (evs & Htr & Hc).
  destruct (init _) as [[a|e] s1]; simpl in *; exists evs; auto.
Qed.

Lemma calls_within_await_stage stage (m : M World Self dict) :
  calls_within P m -> calls_within P (await_stage stage m).
Proof.
  intros Hm. unfold await_stage.
  apply calls_within_bind; [apply calls_within_emit; exact I|intros _].
  apply calls_within_bind; [exact Hm|intros result].
  apply calls_within_bind; [apply calls_within_emit; exact I|intros _].
  apply calls_within_ret.
Qed.

(** What a computation returns may be used by what follows it. *)
Lemma yields_bind_with {A B} (Q : A -> Prop) (R : B -> Prop)
    (m : M World Self A) (k : A -> M World Self B) :
  yields Q m -> (forall a, Q a -> yields R (k a)) -> yields R (m ≫= k).
Proof.
  intros Hm Hk s. rewrite bind_run. specialize (Hm s).
  destruct (m s) as [[a|e] s1]; [apply Hk, Hm|exact I].
Qed.

Lemma yields_run {A} (Q : A -> Prop) (m : M World Self A) s a :
  yields Q m -> fst (m s) = Ret a -> Q a.
Proof. intros Hm Hrun. specialize (Hm s). rewrite Hrun in Hm. exact Hm. Qed.

End Calls.

(** Decompose a goal [calls_within P m] along [m]; the calls that are left
    are decided by computation. *)
Ltac calls_step :=
  match goal with
  | |- calls_within _ (mbind _ _) => apply calls_within_bind; [| intros ?]
  | |- calls_within _ (try_except _ _) => apply calls_within_try_except; [| intros ?]
  | |- calls_within _ (mret _) => apply calls_within_ret
  | |- calls_within _ (raise _) => apply calls_within_raise
  | |- calls_within _ (lift _) => apply calls_within_lift
  | |- calls_within _ (ask _) => apply calls_within_ask
  | |- calls_within _ (ask_or_raise _) => apply calls_within_ask_or_raise
  | |- calls_within _ (path_exists _) => apply calls_within_ask
  | |- calls_within _ get_self => apply calls_within_get_self
  | |- calls_within _ (set_self _) => apply calls_within_set_self
  | |- calls_within _ (log _ _) => apply calls_within_log
  | |- calls_within _ (external _ _) => apply calls_within_external; reflexivity
  | |- calls_within _ (remove _) => apply calls_within_external; reflexivity
  | |- calls_within _ (if ?b then _ else _) => destruct b
  | |- calls_within _ (match ?x with _ => _ end) => destruct x
  end.

Ltac calls_tac := repeat calls_step.

End CallFacts.
Import CallFacts.

(* ===================================================================== *)
(** * The executors: records, edge cases and output paths *)
(* ===================================================================== *)

Module ExecutorProps.

Lemma failed_result_is_job_record task ops msg :
  job_record task ops (failed_result task msg).
Proof.
  split; [reflexivity|]. left.
  split; [reflexivity|]. split; [exists msg|]; reflexivity.
Qed.

Lemma completed_result_is_job_record task ops final info :
  job_record task ops (completed_result task final ops info).
Proof.
  split; [reflexivity|]. right.
  split; [reflexivity|]. split; [reflexivity|].
  split; [exists final; reflexivity|].
  split; [reflexivity|]. exists info. reflexivity.
Qed.

Lemma warnings_app t1 t2 : warnings (t1 ++ t2) = warnings t1 ++ warnings t2.
Proof.
  induction t1 as [|e t1 IH]; [reflexivity|].
  destruct e as [[] ?| | | | |]; simpl; rewrite ?IH; reflexivity.
Qed.

Lemma filter_nil_forall {A} (f : A -> bool) (l : list A) :
  List.filter f l = [] -> forall x, In x l -> f x = false.
Proof.
  induction l as [|a l IH]; simpl; intros Hnil x Hin; [contradiction|].
  destruct (f a) eqn:Hfa; [discriminate|].
  destruct Hin as [<-|Hin]; auto.
Qed.

Lemma last_output_path_ext output_path_of (d1 d2 : string -> bool) ops :
  (forall name, d1 name = d2 name) ->
  forall i cur,
    last_output_path output_path_of d1 i ops cur
    = last_output_path output_path_of d2 i ops cur.
Proof.
  intros Hext. induction ops as [|name rest IH]; intros i cur; [reflexivity|].
  simpl. rewrite Hext. apply IH.
Qed.

(** ** The registry-driven loop on names it does not know, and on
    operations that return their output path *)

Section Execute.
Context {World Self : Type} `{Host World}.
Variable registry : string -> option (@operation World Self).
Variable output_path_of : Self -> string -> string -> nat -> string.

Lemma spec_execute_all_unknown task params ops :
  forall i cur s,
    (forall name, In name ops -> registry name = None) ->
    spec_execute registry output_path_of task params i ops cur s
    = (Ret cur,
       mk_state (self_obj s) (world s)
         (trace s ++ map (fun name => ELog WARNING (unknown_warning name)) ops)).
Proof.
  induction ops as [|name rest IH]; intros i cur s Hnone.
  - simpl. rewrite app_nil_r. destruct s; reflexivity.
  - rewrite spec_execute_unknown by (apply Hnone; left; reflexivity).
    rewrite bind_run. cbn [log emit].
    rewrite IH by (intros n Hn; apply Hnone; right; exact Hn).
    simpl. rewrite <- app_assoc. reflexivity.
Qed.

Hypothesis registry_tame :
  forall name op, registry name = Some op ->
  forall input_path output_path params, tame (op input_path output_path params).
Hypothesis registry_returns_output :
  forall name op, registry name = Some op ->
  forall input_path output_path params,
    yields (fun returned => returned = output_path)
      (op input_path output_path params).

Lemma spec_execute_final task params ops :
  forall i cur s final s',
    spec_execute registry output_path_of task params i ops cur s = (Ret final, s') ->
    final = last_output_path (output_path_of (self_obj s) task)
              (registered registry) i ops cur.
Proof.
  induction ops as [|name rest IH]; intros i cur s final s' Hrun.
  - simpl in Hrun. injection Hrun as <- _. reflexivity.
  - cbn [spec_execute] in Hrun. rewrite bind_run in Hrun. cbn [get_self] in Hrun.
    rewrite bind_run in Hrun. cbn [last_output_path]. unfold registered at 2.
    destruct (registry name) as [op|] eqn:Hreg.
    + unfold await_operation in Hrun. rewrite bind_run in Hrun. cbn [emit] in Hrun.
      set (out := output_path_of (self_obj s) task name i) in *.
      set (s0 := record (EInvoke name cur out) s) in *.
      pose proof (registry_tame name op Hreg cur out params s0) as [Hself _].
      pose proof (registry_returns_output name op Hreg cur out params s0) as Hout.
      destruct (op cur out params s0) as [[returned|e] s1]; [|discriminate].
      simpl in Hself, Hout. subst returned.
      apply IH in Hrun. rewrite Hrun. simpl. rewrite Hself. reflexivity.
    + rewrite bind_run in Hrun. cbn [log emit] in Hrun. rewrite ret_run in Hrun.
      apply IH in Hrun. exact Hrun.
Qed.
End Execute.

(** Decompose a goal [yields P m] along [m], through handlers too. *)
Ltac yields_tac_step :=
  match goal with
  | |- yields _ (mbind _ (lift _)) => apply AIClaims.yields_lift_bind; intros ? ?
  | |- yields _ (mbind _ _) => apply StorageClaims.yields_bind; intros ?
  | |- yields _ (try_except _ _) => apply AIClaims.try_except_yields; [|intros ?]
  | |- yields _ (mret _) => apply StorageClaims.yields_ret
  | |- yields _ (raise _) => apply AIClaims.yields_raise
  | |- yields _ (if ?b then _ else _) => destruct b
  | |- yields _ (match ?x with _ => _ end) => destruct x
  end.

Section Executors.
Context {World : Type} `{Host World}.

Lemma audio_unregistered name :
  supported Audio.get_supported_operations name = false ->
  audio_registry (World:=World) name = None.
Proof.
  intros Hn. pose proof (AudioFacts.audio_registered (World:=World) name) as Hr.
  rewrite Hn in Hr. unfold registered in Hr.
  destruct (audio_registry name); [discriminate|reflexivity].
Qed.

Lemma video_unregistered name :
  supported Video.get_supported_operations name = false ->
  video_registry (World:=World) name = None.
Proof.
  intros Hn. pose proof (VideoFacts.video_registered (World:=World) name) as Hr.
  rewrite Hn in Hr. unfold registered in Hr.
  destruct (video_registry name); [discriminate|reflexivity].
Qed.

(** X1.  On an input path that does not exist, [process_audio] and
    [process_video] return the failed record with the message
    [Input file not found] and the path; the run leaves one log line
    behind: no operation was awaited, nothing was called, and the world
    and the processor are as they were. *)
Theorem missing_input_fails_the_job
    (input_path task_id : string) (operations : list string)
    (parameters : option dict)
    (sa : state World Audio.AudioProcessor)
    (sv : state World Video.VideoProcessor) :
  os_path_exists input_path (world sa) = false ->
  os_path_exists input_path (world sv) = false ->
  (exists line,
      Audio.process_audio input_path task_id operations parameters sa
      = (Ret (failed_result task_id ("Input file not found: " +:+ input_path)),
         record (ELog ERROR line) sa)) /\
  (exists line,
      Video.process_video input_path task_id operations parameters sv
      = (Ret (failed_result task_id ("Input file not found: " +:+ input_path)),
         record (ELog ERROR line) sv)).
Proof.
  intros Ha Hv. split.
  - rewrite AudioFacts.process_audio_absent by exact Ha. eexists. reflexivity.
  - rewrite VideoFacts.process_video_absent by exact Hv. eexists. reflexivity.
Qed.

(** X2.  Whatever the input, the operations and the behaviour of the
    tools, [process_audio] and [process_video] return a job record: it
    carries the task id, and it is either failed with a message and no
    output path, or completed with an output path, the operation list
    exactly as it was requested (names that were skipped included) and the
    probed metadata.  The processor object is never modified. *)
Theorem executors_return_job_records
    (input_path task_id : string) (operations : list string)
    (parameters : option dict)
    (sa : state World Audio.AudioProcessor)
    (sv : state World Video.VideoProcessor) :
  (exists d,
      fst (Audio.process_audio input_path task_id operations parameters sa) = Ret d /\
      job_record task_id operations d /\
      self_obj (snd (Audio.process_audio input_path task_id operations parameters sa))
      = self_obj sa) /\
  (exists d,
      fst (Video.process_video input_path task_id operations parameters sv) = Ret d /\
      job_record task_id operations d /\
      self_obj (snd (Video.process_video input_path task_id operations parameters sv))
      = self_obj sv).
Proof.
  split.
  - destruct (os_path_exists input_path (world sa)) eqn:Hex.
    + destruct (AudioFacts.process_audio_run input_path task_id operations
                  parameters sa Hex) as (evs & fin & _ & Hself & _ & _ & Hfin).
      destruct fin as [final|e].
      * destruct Hfin as (s1 & s2 & info & _ & _ & Hres).
        eexists. split; [exact Hres|]. split; [|exact Hself].
        apply completed_result_is_job_record.
      * eexists. split; [exact Hfin|]. split; [|exact Hself].
        apply failed_result_is_job_record.
    + rewrite AudioFacts.process_audio_absent by exact Hex.
      eexists. split; [reflexivity|]. split; [|reflexivity].
      apply failed_result_is_job_record.
  - destruct (os_path_exists input_path (world sv)) eqn:Hex.
    + destruct (VideoFacts.process_video_run input_path task_id operations
                  parameters sv Hex) as (evs & fin & _ & Hself & _ & _ & Hfin).
      destruct fin as [final|e].
      * destruct Hfin as (s1 & s2 & info & _ & _ & Hres).
        eexists. split; [exact Hres|]. split; [|exact Hself].
        apply completed_result_is_job_record.
      * eexists. split; [exact Hfin|]. split; [|exact Hself].
        apply failed_result_is_job_record.
    + rewrite VideoFacts.process_video_absent by exact Hex.
      eexists. split; [reflexivity|]. split; [|reflexivity].
      apply failed_result_is_job_record.
Qed.

(** X3.  A probe that fails does not fail the job.  When every step of a
    run succeeded and [ffmpeg.probe] raises on the final file, the
    executor still returns the completed record; its [file_info] is the
    error record carrying the message of what the probe raised. *)
Theorem failed_probe_leaves_job_completed
    (input_path task_id : string) (operations : list string)
    (parameters : option dict)
    (sa sa1 : state World Audio.AudioProcessor)
    (sv sv1 : state World Video.VideoProcessor)
    (audio_final video_final : string) (ea ev : exn) (wa wv : World) :
  os_path_exists input_path (world sa) = true ->
  os_path_exists input_path (world sv) = true ->
  Audio.process_audio_loop task_id (default ∅ parameters) 0 operations input_path
    (record (ELog INFO ("Starting audio processing for task " +:+ task_id)) sa)
  = (Ret audio_final, sa1) ->
  Video.process_video_loop task_id (default ∅ parameters) 0 operations input_path
    (record (ELog INFO ("Starting video processing for task " +:+ task_id)) sv)
  = (Ret video_final, sv1) ->
  ffmpeg_probe audio_final (world sa1) = (Raise ea, wa) ->
  ffmpeg_probe video_final (world sv1) = (Raise ev, wv) ->
  fst (Audio.process_audio input_path task_id operations parameters sa)
  = Ret (completed_result task_id audio_final operations (error_result (exn_msg ea)))
  /\
  fst (Video.process_video input_path task_id operations parameters sv)
  = Ret (completed_result task_id video_final operations (error_result (exn_msg ev))).
Proof.
  intros Ha Hv Hla Hlv Hpa Hpv. split.
  - rewrite AudioFacts.process_audio_present by exact Ha. rewrite Hla.
    unfold Audio._get_audio_info, try_except. rewrite bind_run.
    unfold probe, external. rewrite Hpa. reflexivity.
  - rewrite VideoFacts.process_video_present by exact Hv. rewrite Hlv.
    unfold Video._get_file_info, try_except. rewrite bind_run.
    unfold probe, external. rewrite Hpv. reflexivity.
Qed.

Lemma get_audio_info_probes file_path (s : state World Audio.AudioProcessor) :
  exists info s' evs,
    Audio._get_audio_info file_path s = (Ret info, s') /\
    trace s' = trace s ++ ECall (FfmpegProbe file_path) :: evs /\
    calls evs = [] /\ steps evs = [] /\ warnings evs = [].
Proof.
  unfold Audio._get_audio_info, try_except. rewrite bind_run.
  unfold probe, external.
  destruct (ffmpeg_probe file_path (world s)) as [[doc|e] w].
  - unfold lift. destruct (Audio.audio_info_of doc) as [info|e].
    + eexists _, _, []. repeat split.
    + eexists _, _, [_]. split; [reflexivity|]. simpl.
      rewrite <- app_assoc. repeat split.
  - eexists _, _, [_]. split; [reflexivity|]. simpl.
    rewrite <- app_assoc. repeat split.
Qed.

Lemma get_file_info_probes file_path (s : state World Video.VideoProcessor) :
  exists info s' evs,
    Video._get_file_info file_path s = (Ret info, s') /\
    trace s' = trace s ++ ECall (FfmpegProbe file_path) :: evs /\
    calls evs = [] /\ steps evs = [] /\ warnings evs = [].
Proof.
  unfold Video._get_file_info, try_except. rewrite bind_run.
  unfold probe, external.
  destruct (ffmpeg_probe file_path (world s)) as [[doc|e] w].
  - unfold lift. destruct (Video.file_info_of doc) as [info|e].
    + eexists _, _, []. repeat split.
    + eexists _, _, [_]. split; [reflexivity|]. simpl.
      rewrite <- app_assoc. repeat split.
  - eexists _, _, [_]. split; [reflexivity|]. simpl.
    rewrite <- app_assoc. repeat split.
Qed.

Lemma calls_of_warnings (names : list string) :
  calls (map (fun name => ELog WARNING (unknown_warning name)) names) = [] /\
  steps (map (fun name => ELog WARNING (unknown_warning name)) names) = [] /\
  warnings (map (fun name => ELog WARNING (unknown_warning name)) names)
  = map unknown_warning names.
Proof.
  induction names as [|n names (IH1 & IH2 & IH3)]; simpl; [auto|].
  rewrite IH3. auto.
Qed.

(** X4.  A pipeline none of whose names is a supported operation is the
    identity pipeline, and it is reported as completed: on an input path
    that exists the executor returns the completed record whose output
    path is the input path, after one warning per name, in order, no step,
    and no call but the probe of the input. *)
Theorem unknown_names_only_complete_as_identity
    (input_path task_id : string) (operations : list string)
    (parameters : option dict)
    (sa : state World Audio.AudioProcessor)
    (sv : state World Video.VideoProcessor) :
  os_path_exists input_path (world sa) = true ->
  os_path_exists input_path (world sv) = true ->
  List.filter (supported Audio.get_supported_operations) operations = [] ->
  List.filter (supported Video.get_supported_operations) operations = [] ->
  (exists info evs,
      fst (Audio.process_audio input_path task_id operations parameters sa)
      = Ret (completed_result task_id input_path operations info) /\
      trace (snd (Audio.process_audio input_path task_id operations parameters sa))
      = trace sa ++ evs /\
      steps evs = [] /\
      calls evs = [FfmpegProbe input_path] /\
      warnings evs = map unknown_warning operations) /\
  (exists info evs,
      fst (Video.process_video input_path task_id operations parameters sv)
      = Ret (completed_result task_id input_path operations info) /\
      trace (snd (Video.process_video input_path task_id operations parameters sv))
      = trace sv ++ evs /\
      steps evs = [] /\
      calls evs = [FfmpegProbe input_path] /\
      warnings evs = map unknown_warning operations).
Proof.
  intros Ha Hv Hna Hnv.
  destruct (calls_of_warnings operations) as (Hc & Hs & Hw). split.
  - rewrite AudioFacts.process_audio_present by exact Ha.
    rewrite AudioFacts.process_audio_loop_execute.
    rewrite spec_execute_all_unknown
      by (intros n Hn; apply audio_unregistered; eapply filter_nil_forall; eauto).
    match goal with
    | |- context [Audio._get_audio_info _ ?st] =>
        destruct (get_audio_info_probes input_path st)
          as (info & s2 & evs & -> & Htr & Hc2 & Hs2 & Hw2)
    end.
    exists info.
    exists (ELog INFO ("Starting audio processing for task " +:+ task_id)
            :: map (fun name => ELog WARNING (unknown_warning name)) operations
            ++ ECall (FfmpegProbe input_path) :: evs
            ++ [ELog INFO ("Audio processing completed for task " +:+ task_id)]).
    split; [reflexivity|]. split.
    { simpl. rewrite Htr. simpl. rewrite <- !app_assoc. reflexivity. }
    simpl. rewrite !steps_app, !calls_app, !warnings_app. simpl.
    rewrite !steps_app, !calls_app, !warnings_app, Hc, Hs, Hw, Hc2, Hs2, Hw2.
    simpl. rewrite app_nil_r. auto.
  - rewrite VideoFacts.process_video_present by exact Hv.
    rewrite VideoFacts.process_video_loop_execute.
    rewrite spec_execute_all_unknown
      by (intros n Hn; apply video_unregistered; eapply filter_nil_forall; eauto).
    match goal with
    | |- context [Video._get_file_info _ ?st] =>
        destruct (get_file_info_probes input_path st)
          as (info & s2 & evs & -> & Htr & Hc2 & Hs2 & Hw2)
    end.
    exists info.
    exists (ELog INFO ("Starting video processing for task " +:+ task_id)
            :: map (fun name => ELog WARNING (unknown_warning name)) operations
            ++ ECall (FfmpegProbe input_path) :: evs
            ++ [ELog INFO ("Video processing completed for task " +:+ task_id)]).
    split; [reflexivity|]. split.
    { simpl. rewrite Htr. simpl. rewrite <- !app_assoc. reflexivity. }
    simpl. rewrite !steps_app, !calls_app, !warnings_app. simpl.
    rewrite !steps_app, !calls_app, !warnings_app, Hc, Hs, Hw, Hc2, Hs2, Hw2.
    simpl. rewrite app_nil_r. auto.
Qed.

(** Every audio operation hands back the output path it was given. *)
Lemma audio_registry_returns_output name op :
  audio_registry (World:=World) name = Some op ->
  forall input_path output_path params,
    yields (fun returned => returned = output_path)
      (op input_path output_path params).
Proof.
  unfold audio_registry. intros Hreg input_path output_path params.
  repeat match type of Hreg with
         | (if ?b then _ else _) = _ => destruct b
         end;
    try discriminate; injection Hreg as <-.
  - unfold Audio._noise_reduction, Audio.noise_reduction_primary,
      Audio._fallback_noise_reduction.
    repeat yields_tac_step; reflexivity.
  - unfold Audio._normalize_audio, Audio.normalize_audio_primary,
      Audio._fallback_normalize.
    repeat yields_tac_step; reflexivity.
  - unfold Audio._change_speed. repeat yields_tac_step; reflexivity.
  - unfold Audio._extract_segments. repeat yields_tac_step; reflexivity.
Qed.

(** X5.  The output of a completed audio job is known from the request:
    it is the output path computed for the last supported operation of the
    list, from the task id, that name and its index in the list, and the
    input path when the list has no supported operation.  Every audio
    operation, fallbacks included, returns the output path it was given. *)
Theorem audio_output_is_last_output_path
    (input_path task_id : string) (operations : list string)
    (parameters : option dict)
    (s : state World Audio.AudioProcessor) (d : dict) :
  fst (Audio.process_audio input_path task_id operations parameters s) = Ret d ->
  d !! "status" = Some (PStr "completed") ->
  d !! "output_path"
  = Some (PStr (last_output_path
                  (Audio._get_output_path (self_obj s) task_id)
                  (supported Audio.get_supported_operations)
                  0 operations input_path)).
Proof.
  intros Hd Hstatus.
  destruct (os_path_exists input_path (world s)) eqn:Hex.
  - rewrite AudioFacts.process_audio_present in Hd by exact Hex.
    destruct (Audio.process_audio_loop _ _ _ _ _ _) as [[final|e] s1] eqn:Hloop.
    + rewrite AudioFacts.process_audio_loop_execute in Hloop.
      apply (spec_execute_final audio_registry Audio._get_output_path
               AudioFacts.audio_registry_tame audio_registry_returns_output)
        in Hloop.
      cbn [record self_obj] in Hloop.
      rewrite (last_output_path_ext _ _ (supported Audio.get_supported_operations))
        in Hloop by apply AudioFacts.audio_registered.
      destruct (Audio._get_audio_info final s1) as [[info|e] s2];
        simpl in Hd; injection Hd as <-.
      * rewrite <- Hloop. reflexivity.
      * rewrite ExecutorClaims.failed_result_status in Hstatus. discriminate.
    + simpl in Hd. injection Hd as <-.
      rewrite ExecutorClaims.failed_result_status in Hstatus. discriminate.
  - rewrite AudioFacts.process_audio_absent in Hd by exact Hex.
    simpl in Hd. injection Hd as <-.
    rewrite ExecutorClaims.failed_result_status in Hstatus. discriminate.
Qed.

End Executors.

(** The hypotheses of X1 hold on the scripted host: a path that is not
    among its files. *)
Lemma missing_input_fails_the_job_witness :
  (os_path_exists "missing.wav" (world Demo.audio_studio) = false /\
   os_path_exists "missing.wav" (world Demo.video_studio) = false) /\
  (exists line,
      Audio.process_audio "missing.wav" "t1" ["normalize_audio"] None
        Demo.audio_studio
      = (Ret (failed_result "t1" ("Input file not found: " +:+ "missing.wav")),
         record (ELog ERROR line) Demo.audio_studio)) /\
  (exists line,
      Video.process_video "missing.wav" "t1" ["normalize_audio"] None
        Demo.video_studio
      = (Ret (failed_result "t1" ("Input file not found: " +:+ "missing.wav")),
         record (ELog ERROR line) Demo.video_studio)).
Proof.
  split; [split; reflexivity|].
  apply (missing_input_fails_the_job "missing.wav" "t1" ["normalize_audio"] None
           Demo.audio_studio Demo.video_studio); reflexivity.
Defined.

(** The hypotheses of X3 hold on the scripted host where the probe fails:
    one step of each pipeline succeeds, then the probe raises. *)
Lemma failed_probe_leaves_job_completed_witness :
  let ops := ["normalize_audio"; "trim_video"] in
  let sa := Scenes.audio_without_probe in
  let sv := Scenes.video_without_probe in
  let la := Audio.process_audio_loop "t1" ∅ 0 ops "in.wav"
              (record (ELog INFO ("Starting audio processing for task " +:+ "t1")) sa) in
  let lv := Video.process_video_loop "t1" ∅ 0 ops "in.wav"
              (record (ELog INFO ("Starting video processing for task " +:+ "t1")) sv) in
  (os_path_exists "in.wav" (world sa) = true /\
   os_path_exists "in.wav" (world sv) = true /\
   la = (Ret "./processed/t1_normalize_audio_0.wav", snd la) /\
   lv = (Ret "./processed/t1_trim_video_1.mp4", snd lv) /\
   ffmpeg_probe "./processed/t1_normalize_audio_0.wav" (world (snd la))
   = (Raise Scenes.probe_failed, world (snd la)) /\
   ffmpeg_probe "./processed/t1_trim_video_1.mp4" (world (snd lv))
   = (Raise Scenes.probe_failed, world (snd lv))) /\
  fst (Audio.process_audio "in.wav" "t1" ops None sa)
  = Ret (completed_result "t1" "./processed/t1_normalize_audio_0.wav" ops
           (error_result (exn_msg Scenes.probe_failed)))
  /\
  fst (Video.process_video "in.wav" "t1" ops None sv)
  = Ret (completed_result "t1" "./processed/t1_trim_video_1.mp4" ops
           (error_result (exn_msg Scenes.probe_failed))).
Proof.
  cbv zeta. split.
  - repeat split; vm_compute; reflexivity.
  - eapply (failed_probe_leaves_job_completed "in.wav" "t1"
              ["normalize_audio"; "trim_video"] None
              Scenes.audio_without_probe _ Scenes.video_without_probe);
      vm_compute; reflexivity.
Defined.

(** The hypotheses of X4 hold on the scripted host for two names neither
    pipeline supports. *)
Lemma unknown_names_only_complete_as_identity_witness :
  (os_path_exists "in.wav" (world Demo.audio_studio) = true /\
   os_path_exists "in.wav" (world Demo.video_studio) = true /\
   List.filter (supported Audio.get_supported_operations) ["denoise"; "bogus"] = [] /\
   List.filter (supported Video.get_supported_operations) ["denoise"; "bogus"] = []) /\
  (exists info evs,
      fst (Audio.process_audio "in.wav" "t1" ["denoise"; "bogus"] None Demo.audio_studio)
      = Ret (completed_result "t1" "in.wav" ["denoise"; "bogus"] info) /\
      trace (snd (Audio.process_audio "in.wav" "t1" ["denoise"; "bogus"] None
                    Demo.audio_studio))
      = trace Demo.audio_studio ++ evs /\
      steps evs = [] /\
      calls evs = [FfmpegProbe "in.wav"] /\
      warnings evs = map unknown_warning ["denoise"; "bogus"]) /\
  (exists info evs,
      fst (Video.process_video "in.wav" "t1" ["denoise"; "bogus"] None Demo.video_studio)
      = Ret (completed_result "t1" "in.wav" ["denoise"; "bogus"] info) /\
      trace (snd (Video.process_video "in.wav" "t1" ["denoise"; "bogus"] None
                    Demo.video_studio))
      = trace Demo.video_studio ++ evs /\
      steps evs = [] /\
      calls evs = [FfmpegProbe "in.wav"] /\
      warnings evs = map unknown_warning ["denoise"; "bogus"]).
Proof.
  split; [repeat split|].
  apply (unknown_names_only_complete_as_identity "in.wav" "t1" ["denoise"; "bogus"]
           None Demo.audio_studio Demo.video_studio); reflexivity.
Defined.

(** The hypotheses of X5 hold on the scripted host: normalise, an unknown
    entry, change speed; the output is the path of the third entry. *)
Lemma audio_output_is_last_output_path_witness :
  let ops := ["normalize_audio"; "bogus"; "change_speed"] in
  let d := completed_result "t1" "./processed/t1_change_speed_2.wav" ops
             Scenes.wav_info in
  (fst (Audio.process_audio "in.wav" "t1" ops None Demo.audio_studio) = Ret d /\
   d !! "status" = Some (PStr "completed")) /\
  d !! "output_path"
  = Some (PStr (last_output_path
                  (Audio._get_output_path (self_obj Demo.audio_studio) "t1")
                  (supported Audio.get_supported_operations) 0 ops "in.wav")).
Proof.
  cbv zeta. split; [split; vm_compute; reflexivity|].
  apply (audio_output_is_last_output_path "in.wav" "t1"
           ["normalize_audio"; "bogus"; "change_speed"] None Demo.audio_studio);
    vm_compute; reflexivity.
Defined.

End ExecutorProps.


(* ===================================================================== *)
(** * Output paths *)
(* ===================================================================== *)

Module PathProps.

Lemma has_char_app c a b : has_char c (a +:+ b) = has_char c a || has_char c b.
Proof.
  induction a as [|x a IH]; simpl; [reflexivity|].
  rewrite IH, orb_assoc. reflexivity.
Qed.

(** A string is cut in one way only at the last occurrence of [c]. *)
Lemma cut_at_last_char c a a' b b' :
  has_char c b = false -> has_char c b' = false ->
  a +:+ String c b = a' +:+ String c b' ->
  a = a' /\ b = b'.
Proof.
  intros Hb Hb'. revert a'.
  induction a as [|x a IH]; intros [|y a']; simpl; intros Heq.
  - injection Heq as <-. auto.
  - injection Heq as _ Heq. exfalso. subst b.
    rewrite has_char_app in Hb. simpl in Hb.
    rewrite Ascii.eqb_refl, orb_true_r in Hb. discriminate.
  - injection Heq as _ Heq. exfalso. subst b'.
    rewrite has_char_app in Hb'. simpl in Hb'.
    rewrite Ascii.eqb_refl, orb_true_r in Hb'. discriminate.
  - injection Heq as <- Heq. destruct (IH _ Heq) as [<- <-]. auto.
Qed.

Lemma pretty_N_char_is_digit c x :
  (forall d, pretty_N_char d <> c) ->
  forall s, has_char c s = false ->
  has_char c (String (pretty_N_char x) s) = false.
Proof.
  intros Hc s Hs. cbn [has_char]. rewrite Hs, orb_false_r.
  apply Ascii.eqb_neq, Hc.
Qed.

(** The decimal digits of a number contain no other character. *)
Lemma pretty_N_go_has_no (c : ascii) :
  (forall d, pretty_N_char d <> c) ->
  forall x s, has_char c s = false -> has_char c (pretty_N_go x s) = false.
Proof.
  intros Hc x. induction (N.lt_wf_0 x) as [x _ IH]; intros s Hs.
  assert (x = 0 \/ 0 < x)%N as [->|Hpos] by lia.
  - rewrite pretty_N_go_0. exact Hs.
  - rewrite pretty_N_go_step by exact Hpos. apply IH.
    + apply N.div_lt; [exact Hpos|reflexivity].
    + apply pretty_N_char_is_digit; assumption.
Qed.

Lemma pretty_nat_has_no (c : ascii) (n : nat) :
  (forall d, pretty_N_char d <> c) -> has_char c (pretty n) = false.
Proof.
  intros Hc. unfold pretty, pretty_nat, pretty, pretty_N.
  destruct (decide (N.of_nat n = 0%N)).
  - change (has_char c "0") with (Ascii.eqb "0" c || false).
    rewrite orb_false_r. apply Ascii.eqb_neq. apply (Hc 0%N).
  - apply pretty_N_go_has_no; [exact Hc|reflexivity].
Qed.

Lemma no_digit_is_underscore d : pretty_N_char d <> "_"%char.
Proof. unfold pretty_N_char. repeat case_match; discriminate. Qed.

Lemma no_digit_is_dot d : pretty_N_char d <> "."%char.
Proof. unfold pretty_N_char. repeat case_match; discriminate. Qed.

(** Two file names of the same task with the same extension are equal
    only for the same operation name and the same step. *)
Lemma filename_inj (ext : string) op op' (i j : nat) :
  has_char "_" ext = false -> has_char "." ext = false ->
  op +:+ "_" +:+ pretty i +:+ String "." ext
  = op' +:+ "_" +:+ pretty j +:+ String "." ext ->
  op = op' /\ i = j.
Proof.
  intros Hext Hdot Heq.
  apply cut_at_last_char in Heq as [Hop Hrest].
  - split; [exact Hop|].
    apply cut_at_last_char in Hrest as [Hpretty _]; [|exact Hdot..].
    apply (inj pretty), Hpretty.
  - rewrite has_char_app, pretty_nat_has_no by apply no_digit_is_underscore.
    cbn [has_char orb]. rewrite Hext. reflexivity.
  - rewrite has_char_app, pretty_nat_has_no by apply no_digit_is_underscore.
    cbn [has_char orb]. rewrite Hext. reflexivity.
Qed.

(** Whether [os.path.join] keeps the directory is decided by the task
    id. *)
Lemma startswith_same_task task x x' :
  startswith (task +:+ "_" +:+ x) "/" = startswith (task +:+ "_" +:+ x') "/".
Proof.
  unfold startswith. destruct task as [|c task]; [reflexivity|].
  change (String.prefix "/" (String c (task +:+ "_" +:+ x))
          = String.prefix "/" (String c (task +:+ "_" +:+ x'))).
  rewrite !prefix_slash. reflexivity.
Qed.

Lemma os_path_join_inj dir task x x' :
  os_path_join dir (task +:+ "_" +:+ x) = os_path_join dir (task +:+ "_" +:+ x') ->
  x = x'.
Proof.
  unfold os_path_join. rewrite (startswith_same_task task x x').
  destruct (startswith _ "/");
    [|destruct (String.eqb dir EmptyString || endswith dir "/")];
    intros Heq.
  - apply (inj (String.append task)) in Heq.
    apply (inj (String.append "_")) in Heq. exact Heq.
  - apply (inj (String.append dir)) in Heq.
    apply (inj (String.append task)) in Heq.
    apply (inj (String.append "_")) in Heq. exact Heq.
  - apply (inj (String.append dir)) in Heq.
    apply (inj (String.append "/")) in Heq.
    apply (inj (String.append task)) in Heq.
    apply (inj (String.append "_")) in Heq. exact Heq.
Qed.

(** X6.  Within a job, two steps never share an output path: for one
    processor and one task id, [_get_output_path] gives different paths
    to different pairs of an operation name and a step index, for the
    audio pipeline and for the video pipeline, whatever the names are. *)
Theorem steps_write_to_distinct_paths
    (audio : Audio.AudioProcessor) (video : Video.VideoProcessor)
    (task_id operation operation' : string) (step step' : nat) :
  (operation, step) <> (operation', step') ->
  Audio._get_output_path audio task_id operation step
  <> Audio._get_output_path audio task_id operation' step' /\
  Video._get_output_path video task_id operation step
  <> Video._get_output_path video task_id operation' step'.
Proof.
  intros Hne. split; intros Heq; apply Hne;
    unfold Audio._get_output_path, Video._get_output_path in Heq;
    apply os_path_join_inj in Heq;
    apply (filename_inj _ operation operation' step step') in Heq
      as [-> ->]; reflexivity.
Qed.

(** The hypothesis of X6 holds for the same operation at two steps. *)
Lemma steps_write_to_distinct_paths_witness :
  ("normalize_audio", 0) <> ("normalize_audio", 2) /\
  Audio._get_output_path {| Audio.output_dir := "./processed" |} "t1"
    "normalize_audio" 0
  <> Audio._get_output_path {| Audio.output_dir := "./processed" |} "t1"
       "normalize_audio" 2 /\
  Video._get_output_path {| Video.output_dir := "./processed" |} "t1"
    "normalize_audio" 0
  <> Video._get_output_path {| Video.output_dir := "./processed" |} "t1"
       "normalize_audio" 2.
Proof.
  split; [discriminate|].
  apply (steps_write_to_distinct_paths {| Audio.output_dir := "./processed" |}
           {| Video.output_dir := "./processed" |} "t1"
           "normalize_audio" "normalize_audio" 0 2).
  discriminate.
Defined.

End PathProps.


(* ===================================================================== *)
(** * Single operations: subtitles and segments *)
(* ===================================================================== *)

Module OperationProps.

Section Operations.
Context {World : Type} `{Host World}.

(** X7.  Without a subtitle file [_add_subtitles] is a no-op that
    succeeds: when the parameters carry no [subtitle_path] (or a false
    one), or name a file that does not exist, the operation returns the
    input path it was given, logs one warning, runs no FFmpeg command and
    leaves the world as it was. *)
Theorem add_subtitles_without_file_hands_input_on
    (input_path output_path : string) (params : dict)
    (s : state World Video.VideoProcessor) :
  (truthy (dict_get params "subtitle_path" PNone) = false \/
   exists p, params !! "subtitle_path" = Some (PStr p) /\
             os_path_exists p (world s) = false) ->
  Video._add_subtitles input_path output_path params s
  = (Ret input_path,
     record (ELog WARNING "Subtitle file not found, skipping subtitle addition") s).
Proof.
  intros Hno. unfold Video._add_subtitles, try_except. rewrite bind_run.
  destruct Hno as [Hfalse|(p & Hp & Hex)].
  - rewrite Hfalse. reflexivity.
  - unfold dict_get. rewrite Hp.
    destruct (truthy (PStr p)); [|reflexivity].
    unfold Video.subtitle_exists, path_exists, ask. rewrite Hex. reflexivity.
Qed.





End Operations.

(** The hypothesis of X7 holds for the empty parameters. *)
Lemma add_subtitles_without_file_hands_input_on_witness :
  (truthy (dict_get (∅ : dict) "subtitle_path" PNone) = false \/
   exists p, (∅ : dict) !! "subtitle_path" = Some (PStr p) /\
             os_path_exists p (world Demo.video_studio) = false) /\
  Video._add_subtitles "in.mp4" "./processed/t1_add_subtitles_0.mp4" ∅
    Demo.video_studio
  = (Ret "in.mp4",
     record (ELog WARNING "Subtitle file not found, skipping subtitle addition")
       Demo.video_studio).
Proof.
  split; [left; reflexivity|].
  apply (add_subtitles_without_file_hands_input_on "in.mp4"
           "./processed/t1_add_subtitles_0.mp4" ∅ Demo.video_studio).
  left. reflexivity.
Defined.


End OperationProps.


(* ===================================================================== *)
(** * storage_service.py: edge cases of the two services and the manager *)
(* ===================================================================== *)

Module StorageProps.
Import Storage.

Section Services.
Context {World : Type} `{Host World}.

(** X9.  A remote service without a client refuses every operation: each
    of [upload_file], [generate_signed_url], [delete_file] and
    [list_files] returns the error record [R2 client not available],
    without a log line, without a call, and without reading the file
    system. *)
Theorem r2_without_client_refuses
    (local_path remote_key prefix : string) (metadata : option dict)
    (expiration : Z) (s : state World CloudflareR2Service) :
  client (self_obj s) = None ->
  r2_upload_file local_path remote_key metadata s
  = (Ret (error_result "R2 client not available"), s) /\
  r2_generate_signed_url remote_key expiration s
  = (Ret (error_result "R2 client not available"), s) /\
  r2_delete_file remote_key s
  = (Ret (error_result "R2 client not available"), s) /\
  r2_list_files prefix s
  = (Ret (error_result "R2 client not available"), s).
Proof.
  intros Hnone.
  unfold r2_upload_file, r2_generate_signed_url, r2_delete_file, r2_list_files,
    try_except.
  rewrite !bind_run. cbn [get_self]. rewrite Hnone. auto.
Qed.

(** X10.  An upload of a local file that does not exist is refused by
    both services before anything is written: the remote service (with a
    client) and the local service return the error record
    [Local file not found] with the path, and the state is as it was: no
    upload, no directory created, no copy. *)
Theorem upload_of_missing_file_is_refused
    (local_path remote_key : string) (metadata : option dict) (c : s3_client)
    (sr : state World CloudflareR2Service)
    (sl : state World LocalStorageService) :
  client (self_obj sr) = Some c ->
  os_path_exists local_path (world sr) = false ->
  os_path_exists local_path (world sl) = false ->
  r2_upload_file local_path remote_key metadata sr
  = (Ret (error_result ("Local file not found: " +:+ local_path)), sr) /\
  local_upload_file local_path remote_key metadata sl
  = (Ret (error_result ("Local file not found: " +:+ local_path)), sl).
Proof.
  intros Hc Hr Hl. unfold r2_upload_file, local_upload_file, try_except.
  rewrite !bind_run. cbn [get_self]. rewrite Hc, !bind_run.
  unfold path_exists, ask. rewrite Hr, Hl. auto.
Qed.

(** X11.  [LocalStorageService.delete_file] removes at most the file of
    the key, and a key that has no file is deleted successfully: the one
    call of a run is [os.remove] of the path of the key under the storage
    directory, made only when that path exists; the result is the success
    record unless that call raised, and then the error record with its
    message. *)
Theorem local_delete_is_forgiving
    (remote_key : string) (s : state World LocalStorageService) :
  let path := os_path_join (storage_dir (self_obj s)) remote_key in
  let deleted : dict :=
    {[ "success" := PBool true; "deleted_key" := PStr remote_key ]} in
  exists s' evs,
    local_delete_file remote_key s
    = (Ret (if os_path_exists path (world s)
            then match os_remove path (world s) with
                 | (Ret _, _) => deleted
                 | (Raise e, _) => error_result (exn_msg e)
                 end
            else deleted), s') /\
    trace s' = trace s ++ evs /\
    calls evs = (if os_path_exists path (world s) then [OsRemove path] else []).
Proof.
  cbv zeta. unfold local_delete_file, try_except.
  rewrite !bind_run. cbn [get_self]. rewrite !bind_run.
  unfold path_exists, ask.
  destruct (os_path_exists _ (world s)).
  - rewrite bind_run. unfold remove, external.
    destruct (os_remove _ (world s)) as [[[]|e] w].
    + eexists _, [_]. split; [reflexivity|]. auto.
    + eexists _, [_; _]. split; [reflexivity|]. simpl.
      rewrite <- app_assoc. auto.
  - eexists _, []. split; [reflexivity|]. simpl. rewrite app_nil_r. auto.
Qed.

(** X12.  The local signed URL is not signed and does not expire: for a
    key whose file exists, [LocalStorageService.generate_signed_url]
    returns [/storage/] followed by the key whatever the expiration is,
    and echoes the expiration; for a key without a file it returns the
    error record [File not found].  It changes nothing and calls
    nothing. *)
Theorem local_signed_url_ignores_expiration
    (remote_key : string) (expiration expiration' : Z)
    (s : state World LocalStorageService) :
  exists d d',
    local_generate_signed_url remote_key expiration s = (Ret d, s) /\
    local_generate_signed_url remote_key expiration' s = (Ret d', s) /\
    d !! "signed_url" = d' !! "signed_url" /\
    if os_path_exists (os_path_join (storage_dir (self_obj s)) remote_key) (world s)
    then d !! "signed_url" = Some (PStr ("/storage/" +:+ remote_key)) /\
         d !! "expires_in" = Some (PInt expiration) /\
         d !! "success" = Some (PBool true)
    else d = error_result "File not found".
Proof.
  unfold local_generate_signed_url, try_except.
  rewrite !bind_run. cbn [get_self]. rewrite !bind_run.
  unfold path_exists, ask.
  destruct (os_path_exists _ (world s)); eexists _, _;
    (split; [reflexivity|]); (split; [reflexivity|]); repeat split.
Qed.

(** X13.  The listing of the remote service keeps the objects of the
    response: [list_files] makes one entry per object, in the order of the
    response, and the entry carries the key and the size of its
    object. *)
Theorem r2_listing_keeps_the_objects (contents files : list pyval) :
  r2_entries contents = Ret files ->
  Forall2
    (fun object entry =>
       exists key size,
         getitem object "Key" = Ret key /\
         getitem object "Size" = Ret size /\
         getitem entry "key" = Ret key /\
         getitem entry "size" = Ret size)
    contents files.
Proof.
  revert files. induction contents as [|object rest IH]; intros files Hrun.
  - injection Hrun as <-. constructor.
  - cbn [r2_entries] in Hrun.
    destruct (getitem object "Key") as [key|] eqn:Hkey; [|discriminate].
    destruct (getitem object "Size") as [size|] eqn:Hsize; [|discriminate].
    cbn [obind] in Hrun.
    destruct (getitem object "LastModified") as [lm|]; [|discriminate].
    cbn [obind] in Hrun.
    destruct (isoformat lm) as [last_modified|]; [|discriminate].
    cbn [obind] in Hrun.
    destruct (getitem object "ETag") as [tag|]; [|discriminate].
    cbn [obind] in Hrun.
    destruct (strip_method tag double_quote) as [etag|]; [|discriminate].
    cbn [obind] in Hrun.
    destruct (r2_entries rest) as [entries|]; [|discriminate].
    cbn [obind] in Hrun. injection Hrun as <-.
    constructor; [|apply IH; reflexivity].
    exists key, size. split; [exact Hkey|]. split; [exact Hsize|].
    split; reflexivity.
Qed.

(** The entries of one directory have keys under the prefix. *)
Lemma local_entries_under_prefix dir prefix root filenames :
  yields
    (Forall (keyed_under prefix))
    (local_entries (World:=World) dir prefix root filenames).
Proof.
  induction filenames as [|filename rest IH]; cbn [local_entries].
  - apply StorageClaims.yields_ret. constructor.
  - apply StorageClaims.yields_bind. intros relative_path.
    apply (yields_bind_with (Forall (keyed_under prefix))).
    + destruct (startswith relative_path prefix) eqn:Hstarts.
      * apply StorageClaims.yields_bind. intros st.
        apply StorageClaims.yields_ret. constructor; [|constructor].
        exists relative_path. rewrite str_replace_slash. auto.
      * apply StorageClaims.yields_ret. constructor.
    + intros here Hhere. apply (yields_bind_with (Forall (keyed_under prefix))); [exact IH|].
      intros more Hmore. apply StorageClaims.yields_ret.
      apply Forall_app. auto.
Qed.

Lemma local_walk_under_prefix dir prefix triples :
  yields
    (Forall (keyed_under prefix))
    (local_walk (World:=World) dir prefix triples).
Proof.
  induction triples as [|[[root dirs] filenames] rest IH]; cbn [local_walk].
  - apply StorageClaims.yields_ret. constructor.
  - apply (yields_bind_with (Forall (keyed_under prefix)));
      [apply local_entries_under_prefix|].
    intros here Hhere. apply (yields_bind_with (Forall (keyed_under prefix))); [exact IH|].
    intros more Hmore. apply StorageClaims.yields_ret.
    apply Forall_app. auto.
Qed.

(** X14.  The local listing respects its prefix: when
    [LocalStorageService.list_files] returns a record without an error,
    the record holds the list of entries and its length as [count], and
    the key of every entry starts with the prefix that was asked for. *)
Theorem local_listing_respects_prefix
    (prefix : string) (s : state World LocalStorageService) (d : dict) :
  fst (local_list_files prefix s) = Ret d ->
  d !! "error" = None ->
  exists files,
    d !! "files" = Some (PList files) /\
    d !! "count" = Some (PInt (Z.of_nat (length files))) /\
    Forall (keyed_under prefix) files.
Proof.
  intros Hrun.
  apply (yields_run
           (fun d : dict =>
              d !! "error" = None ->
              exists files,
                d !! "files" = Some (PList files) /\
                d !! "count" = Some (PInt (Z.of_nat (length files))) /\
                Forall (keyed_under prefix) files)
           (local_list_files prefix) s d); [|exact Hrun].
  clear s d Hrun. unfold local_list_files. apply AIClaims.try_except_yields.
  - apply StorageClaims.yields_bind. intros self.
    apply StorageClaims.yields_bind. intros triples.
    apply (yields_bind_with (Forall (keyed_under prefix)));
      [apply local_walk_under_prefix|].
    intros files Hfiles. apply StorageClaims.yields_ret.
    intros _. exists files. repeat split. exact Hfiles.
  - intros e. apply StorageClaims.yields_bind. intros _.
    apply StorageClaims.yields_ret. intros Herr.
    rewrite AIClaims.error_result_has_error in Herr. discriminate.
Qed.

(** ** The local service: it keeps itself and calls no object store *)

Lemma tame_local_entries dir prefix root filenames :
  tame (local_entries (World:=World) dir prefix root filenames).
Proof.
  induction filenames as [|filename rest IH]; cbn [local_entries]; [tame_tac|].
  apply tame_bind; [tame_tac|intros relative_path].
  apply tame_bind; [tame_tac|intros here].
  apply tame_bind; [exact IH|intros more]. tame_tac.
Qed.

Lemma tame_local_walk dir prefix triples :
  tame (local_walk (World:=World) dir prefix triples).
Proof.
  induction triples as [|[[root dirs] filenames] rest IH]; cbn [local_walk];
    [tame_tac|].
  apply tame_bind; [apply tame_local_entries|intros here].
  apply tame_bind; [exact IH|intros more]. tame_tac.
Qed.

Lemma tame_local_upload_file local_path remote_key metadata :
  tame (local_upload_file (World:=World) local_path remote_key metadata).
Proof. unfold local_upload_file. tame_tac. Qed.

Lemma tame_local_generate_signed_url remote_key expiration :
  tame (local_generate_signed_url (World:=World) remote_key expiration).
Proof. unfold local_generate_signed_url. tame_tac. Qed.

Lemma tame_local_delete_file remote_key :
  tame (local_delete_file (World:=World) remote_key).
Proof. unfold local_delete_file. tame_tac. Qed.

Lemma tame_local_list_files prefix :
  tame (local_list_files (World:=World) prefix).
Proof.
  unfold local_list_files. apply tame_try_except; [|intros e; tame_tac].
  apply tame_bind; [tame_tac|intros self].
  apply tame_bind; [tame_tac|intros triples].
  apply tame_bind; [apply tame_local_walk|intros files]. tame_tac.
Qed.

Lemma local_entries_calls P dir prefix root filenames :
  calls_within P (local_entries (World:=World) dir prefix root filenames).
Proof.
  induction filenames as [|filename rest IH]; cbn [local_entries]; [calls_tac|].
  apply calls_within_bind; [calls_tac|intros relative_path].
  apply calls_within_bind; [calls_tac|intros here].
  apply calls_within_bind; [exact IH|intros more]. calls_tac.
Qed.

Lemma local_walk_calls P dir prefix triples :
  calls_within P (local_walk (World:=World) dir prefix triples).
Proof.
  induction triples as [|[[root dirs] filenames] rest IH]; cbn [local_walk];
    [calls_tac|].
  apply calls_within_bind; [apply local_entries_calls|intros here].
  apply calls_within_bind; [exact IH|intros more]. calls_tac.
Qed.

Lemma local_upload_file_calls local_path remote_key metadata :
  calls_within not_object_store_call
    (local_upload_file (World:=World) local_path remote_key metadata).
Proof. unfold local_upload_file. calls_tac. Qed.

Lemma local_generate_signed_url_calls remote_key expiration :
  calls_within not_object_store_call
    (local_generate_signed_url (World:=World) remote_key expiration).
Proof. unfold local_generate_signed_url. calls_tac. Qed.

Lemma local_delete_file_calls remote_key :
  calls_within not_object_store_call
    (local_delete_file (World:=World) remote_key).
Proof. unfold local_delete_file. calls_tac. Qed.

Lemma local_list_files_calls prefix :
  calls_within not_object_store_call (local_list_files (World:=World) prefix).
Proof.
  unfold local_list_files.
  apply calls_within_try_except; [|intros e; calls_tac].
  apply calls_within_bind; [calls_tac|intros self].
  apply calls_within_bind; [calls_tac|intros triples].
  apply calls_within_bind; [apply local_walk_calls|intros files]. calls_tac.
Qed.

(** A manager that refers to its local service answers through it. *)
Lemma on_local_stays_local {A} (r2_method : M World CloudflareR2Service A)
    (local_method : M World LocalStorageService A)
    (s : state World StorageManager) :
  primary_service (self_obj s) = TheLocalService ->
  tame local_method ->
  calls_within not_object_store_call local_method ->
  stays_local (on_primary r2_method local_method) s.
Proof.
  intros Hprimary Htame Hcalls.
  assert (Hrun : on_primary r2_method local_method s = on_local local_method s).
  { unfold on_primary. rewrite bind_run. cbn [get_self]. rewrite Hprimary.
    reflexivity. }
  unfold stays_local, calls_from. rewrite Hrun. unfold on_local. split.
  - apply (calls_from_on_field not_object_store_call), Hcalls.
  - unfold on_field.
    destruct (Htame (mk_state (local_service (self_obj s)) (world s) (trace s)))
      as [Hself _].
    destruct (local_method _) as [r s1]. simpl in Hself |- *.
    rewrite Hself. destruct s as [[r2 local_ primary] w t]. reflexivity.
Qed.

End Services.

Section Manager.
Context {World Self : Type} `{Host World}.

Lemma initialize_client_returns : returns (_initialize_client (World:=World)).
Proof.
  intros s. unfold _initialize_client, try_except.
  match goal with
  | |- context [let (_, _) := ?body s in _] => destruct (body s) as [[a|e] s1]
  | |- context [match ?body s with _ => _ end] => destruct (body s) as [[a|e] s1]
  end.
  - eauto.
  - destruct (isinstance e NoCredentialsError);
      [|destruct (isinstance e ClientError)]; simpl; eauto.
Qed.

(** [CloudflareR2Service()] never raises. *)
Lemma r2_service_is_always_built (s : state World Self) :
  exists r2 s1, new_CloudflareR2Service s = (Ret r2, s1).
Proof.
  unfold new_CloudflareR2Service, construct.
  destruct (initialize_client_returns
              (mk_state {| client := None; bucket_name := None |} (world s) (trace s)))
    as [a Ha].
  destruct (_initialize_client _) as [r s1]. simpl in Ha. subst r. eauto.
Qed.

(** X15.  [StorageManager()] fails exactly when its local directory
    cannot be created.  The remote service is always built, whatever the
    environment and the object store do; the manager is then built from
    it, with the remote service as primary exactly when that service has
    a client, unless [os.makedirs] of the [./storage] directory raises:
    that exception leaves the constructor, also when the remote backend
    is available. *)
Theorem storage_manager_needs_its_directory (s : state World Self) :
  exists r2 s1,
    new_CloudflareR2Service s = (Ret r2, s1) /\
    match os_makedirs "./storage" (world s1) with
    | (Ret _, _) =>
        exists s2,
          new_StorageManager s
          = (Ret {| r2_service := r2;
                    local_service := {| storage_dir := "./storage" |};
                    primary_service :=
                      if is_available r2 then TheR2Service else TheLocalService |},
             s2)
    | (Raise e, _) => fst (new_StorageManager s) = Raise e
    end.
Proof.
  destruct (r2_service_is_always_built s) as (r2 & s1 & Hr2).
  exists r2, s1. split; [exact Hr2|].
  unfold new_StorageManager. rewrite bind_run, Hr2, bind_run.
  unfold new_LocalStorageService, construct, external. cbn [world].
  destruct (os_makedirs "./storage" (world s1)) as [[[]|e] w].
  - eexists. reflexivity.
  - reflexivity.
Qed.

(** Without the full credential set the remote service is built without
    a client, after one warning and no call. *)
Lemma new_r2_without_credentials_run (s : state World Self) :
  forallb truthy_str (credentials (world s)) = false ->
  new_CloudflareR2Service s
  = (Ret {| client := None;
            bucket_name := environ (world s) !! "CLOUDFLARE_R2_BUCKET_NAME" |},
     record (ELog WARNING "Cloudflare R2 credentials not found, using local storage") s).
Proof.
  intros Hcred. unfold new_CloudflareR2Service, construct, _initialize_client,
    try_except. rewrite bind_run. unfold ask. cbn [world].
  rewrite bind_run. unfold set_bucket_name. rewrite bind_run. cbn [get_self set_self].
  rewrite bind_run. cbn [get_self self_obj bucket_name world].
  unfold credentials in Hcred. rewrite Hcred. reflexivity.
Qed.

(** X16.  A manager built without the full credential set never reaches
    the object store.  Its construction calls nothing but [os.makedirs]
    of [./storage]; and from then on, in whatever world it is used, each
    of [upload_file], [generate_signed_url], [delete_file] and
    [list_files] makes no call to the object store and leaves the manager
    as it was built, so that the same holds for every later operation. *)
Theorem local_manager_never_reaches_object_store
    (s0 s1 : state World Self) (m : StorageManager) :
  new_StorageManager s0 = (Ret m, s1) ->
  forallb truthy_str (credentials (world s0)) = false ->
  (exists evs, trace s1 = trace s0 ++ evs /\ calls evs = [OsMakedirs "./storage"]) /\
  forall (w : World) (t : list event) (local_path remote_key prefix : string)
         (metadata : option dict) (expiration : Z),
    stays_local (upload_file local_path remote_key metadata) (mk_state m w t) /\
    stays_local (generate_signed_url remote_key expiration) (mk_state m w t) /\
    stays_local (delete_file remote_key) (mk_state m w t) /\
    stays_local (list_files prefix) (mk_state m w t).
Proof.
  intros Hnew Hcred. unfold new_StorageManager in Hnew.
  rewrite bind_run, (new_r2_without_credentials_run s0 Hcred), bind_run in Hnew.
  unfold new_LocalStorageService, construct, external in Hnew. cbn [world record] in Hnew.
  destruct (os_makedirs "./storage" (world s0)) as [[[]|e] w0]; [|discriminate].
  rewrite bind_run in Hnew. cbn [log emit is_available client] in Hnew.
  rewrite ret_run in Hnew. injection Hnew as <- <-.
  split.
  - eexists [_; _; _]. simpl. rewrite <- !app_assoc. split; reflexivity.
  - intros w t local_path remote_key prefix metadata expiration.
    unfold upload_file, generate_signed_url, delete_file, list_files.
    split; [|split; [|split]]; apply on_local_stays_local; try reflexivity.
    + apply tame_local_upload_file.
    + apply local_upload_file_calls.
    + apply tame_local_generate_signed_url.
    + apply local_generate_signed_url_calls.
    + apply tame_local_delete_file.
    + apply local_delete_file_calls.
    + apply tame_local_list_files.
    + apply local_list_files_calls.
Qed.

End Manager.


(** The hypothesis of X9 holds for a service that found no
    credentials. *)
Lemma r2_without_client_refuses_witness :
  let s := Scenes.r2_without_client in
  client (self_obj s) = None /\
  r2_upload_file "in.wav" "audio/in.wav" None s
  = (Ret (error_result "R2 client not available"), s) /\
  r2_generate_signed_url "audio/in.wav" 3600 s
  = (Ret (error_result "R2 client not available"), s) /\
  r2_delete_file "audio/in.wav" s
  = (Ret (error_result "R2 client not available"), s) /\
  r2_list_files "audio" s
  = (Ret (error_result "R2 client not available"), s).
Proof.
  cbv zeta. split; [reflexivity|].
  apply (r2_without_client_refuses "in.wav" "audio/in.wav" "audio" None 3600
           Scenes.r2_without_client).
  reflexivity.
Defined.

(** The hypotheses of X10 hold on the scripted host for a path that is
    not among its files. *)
Lemma upload_of_missing_file_is_refused_witness :
  let sr := Scenes.r2_with_client in
  let sl := Scenes.local_store in
  (client (self_obj sr) = Some Scenes.media_client /\
   os_path_exists "missing.wav" (world sr) = false /\
   os_path_exists "missing.wav" (world sl) = false) /\
  r2_upload_file "missing.wav" "audio/missing.wav" None sr
  = (Ret (error_result ("Local file not found: " +:+ "missing.wav")), sr) /\
  local_upload_file "missing.wav" "audio/missing.wav" None sl
  = (Ret (error_result ("Local file not found: " +:+ "missing.wav")), sl).
Proof.
  cbv zeta. split; [repeat split|].
  apply (upload_of_missing_file_is_refused "missing.wav" "audio/missing.wav" None
           Scenes.media_client Scenes.r2_with_client Scenes.local_store);
    reflexivity.
Defined.

(** The hypothesis of X13 holds on the scripted host for two objects. *)
Lemma r2_listing_keeps_the_objects_witness :
  r2_entries (World:=Demo.demo_world) Scenes.two_objects = Ret Scenes.two_entries /\
  Forall2
    (fun object entry =>
       exists key size,
         getitem object "Key" = Ret key /\
         getitem object "Size" = Ret size /\
         getitem entry "key" = Ret key /\
         getitem entry "size" = Ret size)
    Scenes.two_objects Scenes.two_entries.
Proof.
  split; [vm_compute; reflexivity|].
  apply (r2_listing_keeps_the_objects (World:=Demo.demo_world)).
  vm_compute. reflexivity.
Defined.

(** The hypotheses of X14 hold on the scripted host: of the two files of
    the store, the one under [audio] is listed. *)
Lemma local_listing_respects_prefix_witness :
  (fst (local_list_files "audio" Scenes.local_store) = Ret Scenes.audio_listing /\
   Scenes.audio_listing !! "error" = None) /\
  exists files,
    Scenes.audio_listing !! "files" = Some (PList files) /\
    Scenes.audio_listing !! "count" = Some (PInt (Z.of_nat (length files))) /\
    Forall (keyed_under "audio") files.
Proof.
  split; [split; vm_compute; reflexivity|].
  apply (local_listing_respects_prefix "audio" Scenes.local_store);
    vm_compute; reflexivity.
Defined.

(** The hypotheses of X16 hold on the scripted host, whose environment
    is empty. *)
Lemma local_manager_never_reaches_object_store_witness :
  let s0 : state Demo.demo_world unit := Demo.start tt Demo.studio in
  let s1 := snd (new_StorageManager s0) in
  let m := Scenes.studio_manager in
  (new_StorageManager s0 = (Ret m, s1) /\
   forallb truthy_str (credentials (world s0)) = false) /\
  (exists evs, trace s1 = trace s0 ++ evs /\ calls evs = [OsMakedirs "./storage"]) /\
  forall (w : Demo.demo_world) (t : list event)
         (local_path remote_key prefix : string)
         (metadata : option dict) (expiration : Z),
    stays_local (upload_file local_path remote_key metadata) (mk_state m w t) /\
    stays_local (generate_signed_url remote_key expiration) (mk_state m w t) /\
    stays_local (delete_file remote_key) (mk_state m w t) /\
    stays_local (list_files prefix) (mk_state m w t).
Proof.
  cbv zeta. split; [split; vm_compute; reflexivity|].
  apply (local_manager_never_reaches_object_store
           (Demo.start tt Demo.studio)
           (snd (new_StorageManager (Demo.start tt Demo.studio)))
           Scenes.studio_manager);
    vm_compute; reflexivity.
Defined.

End StorageProps.


(* ===================================================================== *)
(** * ai_services.py: the model cache, missing clients and the workflow *)
(* ===================================================================== *)

Module AIProps.
Import AI.

Section Services.
Context {World : Type} `{Host World}.

(** X17.  [load_model] caches the model.  It never raises; when it
    returns [True] the service holds a model under the name that was
    asked for, and loading that name again changes nothing and calls
    nothing; when it returns [False] the service is as it was before, with
    the model and the name it had. *)
Theorem load_model_is_cached (name : string) (s : state World SpeechToTextService) :
  exists loaded s1,
    load_model name s = (Ret loaded, s1) /\
    if loaded : bool
    then is_Some (model (self_obj s1)) /\
         model_name (self_obj s1) = name /\
         load_model name s1 = (Ret true, s1)
    else self_obj s1 = self_obj s.
Proof.
  assert (Hcached : forall s0 : state World SpeechToTextService,
             is_Some (model (self_obj s0)) -> model_name (self_obj s0) = name ->
             load_model name s0 = (Ret true, s0)).
  { intros s0 [m Hm] Hname. unfold load_model, try_except.
    rewrite bind_run. cbn [get_self]. rewrite Hm, Hname, String.eqb_refl.
    reflexivity. }
  destruct (model (self_obj s)) as [m|] eqn:Hm;
    [destruct (String.eqb (model_name (self_obj s)) name) eqn:Hname|].
  - apply String.eqb_eq in Hname.
    exists true, s. rewrite Hcached by (rewrite ?Hm; eauto).
    split; [reflexivity|]. rewrite Hm. eauto.
  - unfold load_model at 1, try_except. rewrite bind_run. cbn [get_self].
    rewrite Hm, Hname. cbn [orb negb]. rewrite !bind_run. cbn [log emit].
    rewrite bind_run. unfold external. cbn [world record].
    destruct (whisper_load_model name (world s)) as [[[]|e] w].
    + eexists true, _. split; [reflexivity|].
      split; [eexists; reflexivity|]. split; [reflexivity|].
      apply Hcached; [eexists|]; reflexivity.
    + eexists false, _. split; reflexivity.
  - unfold load_model at 1, try_except. rewrite bind_run. cbn [get_self].
    rewrite Hm. cbn [orb]. rewrite !bind_run. cbn [log emit].
    rewrite bind_run. unfold external. cbn [world record].
    destruct (whisper_load_model name (world s)) as [[[]|e] w].
    + eexists true, _. split; [reflexivity|].
      split; [eexists; reflexivity|]. split; [reflexivity|].
      apply Hcached; [eexists|]; reflexivity.
    + eexists false, _. split; reflexivity.
Qed.

Lemma translate_without_client_run text target source
    (s : state World TranslationService) :
  client (self_obj s) = None ->
  translate_text text target source s
  = (Ret (error_result "Google Translate client not available"), s).
Proof.
  intros Hclient. unfold translate_text, try_except. rewrite bind_run.
  cbn [get_self]. rewrite Hclient. reflexivity.
Qed.

Lemma synthesize_unavailable_run text language voice provider output_path
    (s : state World TextToSpeechService) :
  (provider = "google" -> google_client (self_obj s) = None) ->
  (provider = "aws" -> aws_client (self_obj s) = None) ->
  synthesize_speech text language voice provider output_path s
  = (Ret (error_result ("TTS provider '" +:+ provider +:+ "' not available")), s).
Proof.
  intros Hgoogle Haws.
  unfold synthesize_speech, try_except. rewrite bind_run. cbn [get_self].
  destruct (String.eqb_spec provider "google") as [Hp|_].
  - rewrite (Hgoogle Hp). subst provider. reflexivity.
  - destruct (String.eqb_spec provider "aws") as [Hp|_]; [|reflexivity].
    rewrite (Haws Hp). reflexivity.
Qed.

(** X18.  A back end that is not configured is an error, not a fallback.
    [translate_text] without a client returns the error record
    [Google Translate client not available]; [synthesize_speech] asked for
    a provider whose client is missing, or for a provider it does not
    know, returns the error record naming that provider, also when the
    client of the other provider is there.  Neither logs, calls or
    changes anything. *)
Theorem missing_client_is_an_error
    (text : pyval) (target_language language provider : string)
    (source_language voice output_path : option string)
    (st : state World TranslationService)
    (ss : state World TextToSpeechService) :
  client (self_obj st) = None ->
  (provider = "google" -> google_client (self_obj ss) = None) ->
  (provider = "aws" -> aws_client (self_obj ss) = None) ->
  translate_text text target_language source_language st
  = (Ret (error_result "Google Translate client not available"), st) /\
  synthesize_speech text language voice provider output_path ss
  = (Ret (error_result ("TTS provider '" +:+ provider +:+ "' not available")), ss).
Proof.
  intros Hclient Hgoogle Haws. split.
  - apply translate_without_client_run, Hclient.
  - apply synthesize_unavailable_run; assumption.
Qed.

(** X19.  The Polly voice follows the table of the five languages: for
    one of them a requested voice is used as it is, and the voice of the
    table when none is requested; for every other language the voice is
    [Joanna], and a requested voice is ignored. *)
Theorem polly_voice_follows_the_table (language : string) (voice : option string) :
  (In language polly_languages ->
   truthy_str voice = true -> polly_voice_id language voice = str_opt voice) /\
  (In language polly_languages ->
   truthy_str voice = false ->
   In (language, polly_voice_id language voice)
     [("en", "Joanna"); ("hi", "Aditi"); ("es", "Penelope");
      ("fr", "Celine"); ("de", "Marlene")]) /\
  (~ In language polly_languages -> polly_voice_id language voice = "Joanna").
Proof.
  unfold polly_voice_id, voice_or, polly_languages.
  split; [|split].
  - intros Hin ->.
    destruct (String.eqb_spec language "en"); [reflexivity|].
    destruct (String.eqb_spec language "hi"); [reflexivity|].
    destruct (String.eqb_spec language "es"); [reflexivity|].
    destruct (String.eqb_spec language "fr"); [reflexivity|].
    destruct (String.eqb_spec language "de"); [reflexivity|].
    simpl in Hin. exfalso. intuition congruence.
  - intros Hin ->.
    destruct (String.eqb_spec language "en"); [subst; simpl; auto|].
    destruct (String.eqb_spec language "hi"); [subst; simpl; auto|].
    destruct (String.eqb_spec language "es"); [subst; simpl; auto|].
    destruct (String.eqb_spec language "fr"); [subst; simpl; auto 6|].
    destruct (String.eqb_spec language "de"); [subst; simpl; auto 7|].
    simpl in Hin. exfalso. intuition congruence.
  - intros Hnot.
    destruct (String.eqb_spec language "en"); [subst; exfalso; apply Hnot; simpl; auto|].
    destruct (String.eqb_spec language "hi"); [subst; exfalso; apply Hnot; simpl; auto|].
    destruct (String.eqb_spec language "es"); [subst; exfalso; apply Hnot; simpl; auto|].
    destruct (String.eqb_spec language "fr"); [subst; exfalso; apply Hnot; simpl; auto 6|].
    destruct (String.eqb_spec language "de"); [subst; exfalso; apply Hnot; simpl; auto 7|].
    reflexivity.
Qed.

Lemma transcribe_missing_file_run audio_path language name
    (s : state World SpeechToTextService) :
  os_path_exists audio_path (world s) = false ->
  transcribe_audio audio_path language name s
  = (Ret (error_result ("Audio file not found: " +:+ audio_path)),
     record (ELog ERROR ("Transcription failed: Audio file not found: "
                         +:+ audio_path)) s).
Proof.
  intros Hmissing. unfold transcribe_audio, try_except. rewrite bind_run.
  unfold path_exists, ask. rewrite Hmissing. reflexivity.
Qed.

Lemma transcribe_audio_calls P audio_path language name :
  P (WhisperLoadModel name) = true ->
  (forall m options, P (WhisperTranscribe m audio_path options) = true) ->
  calls_within P (transcribe_audio (World:=World) audio_path language name).
Proof.
  intros Hload Hrun. unfold transcribe_audio, load_model.
  repeat first
    [ apply calls_within_external; solve [exact Hload | apply Hrun]
    | calls_step ].
Qed.

Lemma translate_text_calls P text target source :
  P (TranslateCall text target (opt_val source)) = true ->
  calls_within P (translate_text (World:=World) text target source).
Proof.
  intros Hcall. unfold translate_text.
  repeat first [ apply calls_within_external; exact Hcall | calls_step ].
Qed.

Lemma load_model_failure_run name (s : state World SpeechToTextService) e w :
  model (self_obj s) = None \/ model_name (self_obj s) <> name ->
  whisper_load_model name (world s) = (Raise e, w) ->
  load_model name s
  = (Ret false,
     mk_state (self_obj s) w
       (trace s ++ [ELog INFO ("Loading Whisper model: " +:+ name);
                    ECall (WhisperLoadModel name);
                    ELog ERROR ("Failed to load Whisper model: " +:+ exn_msg e)])).
Proof.
  intros Hneeded Hload.
  assert (Hcond : match model (self_obj s) with None => true | Some _ => false end
                  || negb (String.eqb (model_name (self_obj s)) name) = true).
  { destruct Hneeded as [->|Hname]; [reflexivity|].
    apply String.eqb_neq in Hname. rewrite Hname. apply orb_true_r. }
  unfold load_model, try_except. rewrite bind_run. cbn [get_self].
  rewrite Hcond.
  unfold external, mbind, M_bind, mret, M_ret, get_self, set_self, log, emit, record.
  cbn [self_obj world trace]. rewrite Hload. cbn [self_obj world trace].
  rewrite <- !app_assoc. reflexivity.
Qed.

(** X20.  A model that cannot be loaded is reported without its cause.
    On an audio path that exists, when the model is not loaded yet (or
    another one is) and [whisper.load_model] raises, [transcribe_audio]
    returns the error record [Failed to load Whisper model]: the message
    of the exception is logged and not returned; the model is not called,
    and the service keeps the model and the name it had. *)
Theorem unloadable_model_is_reported
    (audio_path : string) (language : option string) (name : string)
    (s : state World SpeechToTextService) (e : exn) (w : World) :
  os_path_exists audio_path (world s) = true ->
  model (self_obj s) = None \/ model_name (self_obj s) <> name ->
  whisper_load_model name (world s) = (Raise e, w) ->
  exists s' evs,
    transcribe_audio audio_path language name s
    = (Ret (error_result "Failed to load Whisper model"), s') /\
    self_obj s' = self_obj s /\
    trace s' = trace s ++ evs /\
    calls evs = [WhisperLoadModel name].
Proof.
  intros Hexists Hneeded Hload.
  unfold transcribe_audio, try_except. rewrite bind_run.
  unfold path_exists, ask. rewrite Hexists. rewrite bind_run, ret_run, bind_run.
  rewrite (load_model_failure_run name s e w Hneeded Hload).
  eexists _, [_; _; _; _]. split; [reflexivity|]. split; [reflexivity|].
  split.
  - simpl. rewrite <- !app_assoc. reflexivity.
  - reflexivity.
Qed.

(** A synthesis that was given an output path and reports no error has
    written that path. *)
Lemma synthesize_writes_given_path text language voice provider path
    (s s' : state World TextToSpeechService) (v : dict) :
  truthy_str (Some path) = true ->
  synthesize_speech text language voice provider (Some path) s = (Ret v, s') ->
  v !! "error" = None ->
  v !! "audio_path" = Some (PStr path) /\
  exists pre content post,
    trace s' = trace s ++ pre ++ ECall (FileWrite path content) :: post.
Proof.
  intros Hpath Hrun Herr.
  unfold synthesize_speech, try_except in Hrun. rewrite bind_run in Hrun.
  cbn [get_self] in Hrun.
  destruct (String.eqb provider "google"
            && match google_client (self_obj s) with Some _ => true | None => false end).
  - unfold _google_tts, try_except in Hrun. rewrite bind_run in Hrun.
    unfold external at 1 in Hrun.
    destruct (google_synthesize _ _ _ (world s)) as [[content|e] w].
    + rewrite bind_run in Hrun. unfold output_path_or_temp in Hrun.
      rewrite Hpath in Hrun. rewrite ret_run, bind_run in Hrun.
      unfold external in Hrun. cbn [world str_opt] in Hrun.
      destruct (file_write path content w) as [[[]|e] w2];
        simpl in Hrun; injection Hrun as <- <-.
      * split; [reflexivity|]. exists [ECall (GoogleSynthesize text language
                                                (if truthy_str voice then opt_val voice
                                                 else PNone))], content, [].
        simpl. rewrite <- app_assoc. reflexivity.
      * rewrite AIClaims.error_result_has_error in Herr. discriminate.
    + simpl in Hrun. injection Hrun as <- <-.
      rewrite AIClaims.error_result_has_error in Herr. discriminate.
  - destruct (String.eqb provider "aws"
              && match aws_client (self_obj s) with Some _ => true | None => false end).
    + unfold _aws_polly_tts, try_except in Hrun. rewrite bind_run in Hrun.
      unfold external at 1 in Hrun.
      destruct (polly_synthesize _ _ (world s)) as [[content|e] w].
      * rewrite bind_run in Hrun. unfold output_path_or_temp in Hrun.
        rewrite Hpath in Hrun. rewrite ret_run, bind_run in Hrun.
        unfold external in Hrun. cbn [world str_opt] in Hrun.
        destruct (file_write path content w) as [[[]|e] w2];
          simpl in Hrun; injection Hrun as <- <-.
        -- split; [reflexivity|].
           exists [ECall (PollySynthesize text (polly_voice_id language voice))],
             content, [].
           simpl. rewrite <- app_assoc. reflexivity.
        -- rewrite AIClaims.error_result_has_error in Herr. discriminate.
      * simpl in Hrun. injection Hrun as <- <-.
        rewrite AIClaims.error_result_has_error in Herr. discriminate.
    + rewrite ret_run in Hrun. injection Hrun as <- <-.
      rewrite AIClaims.error_result_has_error in Herr. discriminate.
Qed.

End Services.

Section Workflow.
Context {World : Type} `{Host World}.

Lemma await_stage_eq stage (method : M World AIWorkflowService dict) s :
  await_stage stage method s
  = match method (record (EAwait stage) s) with
    | (Ret result, s') => (Ret result, record (EReturned stage result) s')
    | (Raise e, s') => (Raise e, s')
    end.
Proof.
  unfold await_stage. rewrite bind_run. cbn [emit]. rewrite bind_run.
  destruct (method _) as [[result|e] s']; reflexivity.
Qed.

(** A stage touches the service it runs on and no other. *)
Lemma on_stt_frame {A} (m : M World SpeechToTextService A) s :
  translation_service (self_obj (snd (on_stt m s)))
  = translation_service (self_obj s) /\
  tts_service (self_obj (snd (on_stt m s))) = tts_service (self_obj s).
Proof. unfold on_stt, on_field. destruct (m _). auto. Qed.

Lemma on_translation_frame {A} (m : M World TranslationService A) s :
  stt_service (self_obj (snd (on_translation m s))) = stt_service (self_obj s) /\
  tts_service (self_obj (snd (on_translation m s))) = tts_service (self_obj s).
Proof. unfold on_translation, on_field. destruct (m _). auto. Qed.

Lemma on_stt_answers {A} (P : A -> Prop) (m : M World SpeechToTextService A) :
  answers P m -> answers P (on_stt m).
Proof. apply AIClaims.answers_on_field. Qed.

Lemma on_translation_answers {A} (P : A -> Prop) (m : M World TranslationService A) :
  answers P m -> answers P (on_translation m).
Proof. apply AIClaims.answers_on_field. Qed.

Lemma on_tts_answers {A} (P : A -> Prop) (m : M World TextToSpeechService A) :
  answers P m -> answers P (on_tts m).
Proof. apply AIClaims.answers_on_field. Qed.

(** The run of the workflow, stage by stage. *)
Lemma workflow_cases audio_path target_language task_id
    (s : state World AIWorkflowService) :
  let run := process_audio_workflow audio_path target_language task_id s in
  let s0 := record (ELog INFO ("Starting AI workflow for task " +:+ str_opt task_id)) s in
  exists t s1,
    on_stt (transcribe_audio audio_path None "base")
      (record (EAwait "transcribe_audio") s0) = (Ret t, s1) /\
    match t !! "error" with
    | Some err =>
        run = (Ret (error_result ("Transcription failed: " +:+ str_ err)),
               record (EReturned "transcribe_audio" t) s1)
    | None =>
        exists text u s2,
          t !! "text" = Some text /\
          on_translation (translate_text text target_language None)
            (record (EAwait "translate_text")
               (record (EReturned "transcribe_audio" t) s1)) = (Ret u, s2) /\
          match u !! "error" with
          | Some err =>
              run = (Ret (error_result ("Translation failed: " +:+ str_ err)),
                     record (EReturned "translate_text" u) s2)
          | None =>
              exists translated v s3,
                u !! "translated_text" = Some translated /\
                on_tts (synthesize_speech translated target_language None "google"
                          (if truthy_str task_id
                           then Some (workflow_audio_path (str_opt task_id))
                           else None))
                  (record (EAwait "synthesize_speech")
                     (record (EReturned "translate_text" u) s2)) = (Ret v, s3) /\
                match v !! "error" with
                | Some err =>
                    run = (Ret (error_result
                                  ("Speech synthesis failed: " +:+ str_ err)),
                           record (EReturned "synthesize_speech" v) s3)
                | None =>
                    exists d,
                      run = (Ret d, record (EReturned "synthesize_speech" v) s3) /\
                      d !! "status" = Some (PStr "completed") /\
                      d !! "error" = None /\
                      d !! "output_audio" = v !! "audio_path"
                end
          end
    end.
Proof.
  cbv zeta.
  destruct (process_audio_workflow audio_path target_language task_id s)
    as [res final] eqn:Hrun.
  unfold process_audio_workflow, try_except in Hrun.
  rewrite bind_run in Hrun. cbn [log emit] in Hrun.
  rewrite bind_run, await_stage_eq in Hrun.
  set (s0 := record (ELog INFO _) s) in *.
  destruct (on_stt_answers _ _
              (AIClaims.transcribe_audio_answers audio_path None "base")
              (record (EAwait "transcribe_audio") s0)) as (t & Ht & Hshape1).
  destruct (on_stt _ (record (EAwait "transcribe_audio") s0)) as [r1 s1].
  simpl in Ht. subst r1. exists t, s1. split; [reflexivity|].
  unfold dict_has at 1 in Hrun.
  destruct (t !! "error") as [err|] eqn:Herr1; cbv beta iota in Hrun.
  { unfold lift in Hrun. rewrite (AIClaims.stage_error_run _ _ _ Herr1) in Hrun.
    symmetry. exact Hrun. }
  destruct (Hshape1 Herr1) as ([text Htext] & [lang Hlang] & _).
  rewrite bind_run in Hrun. unfold lift at 1, dict_item at 1 in Hrun.
  rewrite Htext in Hrun. rewrite bind_run, await_stage_eq in Hrun.
  set (st2 := record (EAwait "translate_text") _) in *.
  destruct (on_translation_answers _ _
              (AIClaims.translate_text_answers text target_language None) st2)
    as (u & Hu & Hshape2).
  destruct (on_translation _ st2) as [r2 s2] eqn:Hrun2.
  simpl in Hu. subst r2. exists text, u, s2.
  split; [exact Htext|]. split; [exact Hrun2|].
  unfold dict_has at 1 in Hrun.
  destruct (u !! "error") as [err|] eqn:Herr2; cbv beta iota in Hrun.
  { unfold lift in Hrun. rewrite (AIClaims.stage_error_run _ _ _ Herr2) in Hrun.
    symmetry. exact Hrun. }
  destruct (Hshape2 Herr2) as [translated Htranslated].
  rewrite bind_run in Hrun. unfold lift at 1, dict_item at 1 in Hrun.
  rewrite Htranslated in Hrun. rewrite bind_run, await_stage_eq in Hrun.
  set (st3 := record (EAwait "synthesize_speech") _) in *.
  change (if truthy_str task_id
          then Some ("./processed/" +:+ str_opt task_id +:+ "_translated_audio.mp3")
          else None)
    with (if truthy_str task_id
          then Some (workflow_audio_path (str_opt task_id)) else None) in Hrun.
  set (output_path := if truthy_str task_id then _ else _) in *.
  destruct (on_tts_answers _ _
              (AIClaims.synthesize_speech_answers translated target_language None
                 "google" output_path) st3)
    as (v & Hv & Hshape3).
  destruct (on_tts _ st3) as [r3 s3] eqn:Hrun3.
  simpl in Hv. subst r3. exists translated, v, s3.
  split; [exact Htranslated|]. split; [exact Hrun3|].
  unfold dict_has in Hrun.
  destruct (v !! "error") as [err|] eqn:Herr3; cbv beta iota in Hrun.
  { unfold lift in Hrun. rewrite (AIClaims.stage_error_run _ _ _ Herr3) in Hrun.
    symmetry. exact Hrun. }
  destruct (Hshape3 Herr3) as [audio Haudio].
  rewrite !bind_run in Hrun. unfold lift, dict_item in Hrun.
  rewrite Htext, Htranslated, Hlang, Haudio in Hrun.
  cbv beta iota in Hrun.
  eexists. split; [symmetry; exact Hrun|]. repeat split.
  rewrite Haudio. reflexivity.
Qed.

(** What a stage leaves in the trace. *)
Lemma stage_trace (P : call -> bool) (method : M World AIWorkflowService dict)
    st result s1 :
  calls_within P method -> quiet method ->
  method st = (result, s1) ->
  exists evs,
    trace s1 = trace st ++ evs /\
    forallb P (calls evs) = true /\
    awaited evs = [] /\ stages evs = [].
Proof.
  intros Hcalls Hquiet Hrun.
  destruct (Hcalls st) as (evs & Htr & Hc).
  destruct (Hquiet st) as (evs' & Htr' & _ & Hsg).
  rewrite Hrun in Htr, Htr'. simpl in Htr, Htr'.
  assert (evs' = evs) as -> by (eapply app_inv_head; rewrite <- Htr, <- Htr'; reflexivity).
  exists evs. repeat split; try assumption.
  rewrite <- awaited_stages, Hsg. reflexivity.
Qed.

Lemma transcription_stage_trace (P : call -> bool) audio_path st result s1 :
  P (WhisperLoadModel "base") = true ->
  (forall m options, P (WhisperTranscribe m audio_path options) = true) ->
  on_stt (transcribe_audio audio_path None "base") st = (result, s1) ->
  exists evs,
    trace s1 = trace st ++ evs /\
    forallb P (calls evs) = true /\
    awaited evs = [] /\ stages evs = [].
Proof.
  intros Hload Hcall. apply stage_trace.
  - apply calls_within_on_field, transcribe_audio_calls; assumption.
  - apply AIClaims.quiet_on_field, AIClaims.quiet_transcribe_audio.
Qed.

Lemma translation_stage_trace (P : call -> bool) text target st result s1 :
  P (TranslateCall text target PNone) = true ->
  on_translation (translate_text text target None) st = (result, s1) ->
  exists evs,
    trace s1 = trace st ++ evs /\
    forallb P (calls evs) = true /\
    awaited evs = [] /\ stages evs = [].
Proof.
  intros Hcall. apply stage_trace.
  - apply calls_within_on_field, translate_text_calls. exact Hcall.
  - apply AIClaims.quiet_on_field, AIClaims.quiet_translate_text.
Qed.

(** X21.  On an audio path that does not exist the workflow stops at
    its first stage: it returns the error record
    [Transcription failed: Audio file not found] with the path, after
    awaiting the transcription stage only; no model is loaded and nothing
    else is called, and the service and the world are as they were. *)
Theorem workflow_reports_missing_file
    (audio_path target_language : string) (task_id : option string)
    (s : state World AIWorkflowService) :
  os_path_exists audio_path (world s) = false ->
  exists s' evs,
    process_audio_workflow audio_path target_language task_id s
    = (Ret (error_result ("Transcription failed: Audio file not found: "
                          +:+ audio_path)), s') /\
    self_obj s' = self_obj s /\
    world s' = world s /\
    trace s' = trace s ++ evs /\
    awaited evs = ["transcribe_audio"] /\
    calls evs = [].
Proof.
  intros Hmissing.
  destruct (workflow_cases audio_path target_language task_id s)
    as (t & s1 & Hm1 & Hcase).
  unfold on_stt, on_field in Hm1.
  rewrite transcribe_missing_file_run in Hm1 by exact Hmissing.
  injection Hm1 as <- <-.
  rewrite AIClaims.error_result_has_error in Hcase.
  rewrite Hcase.
  eexists _,
    [ELog INFO ("Starting AI workflow for task " +:+ str_opt task_id);
     EAwait "transcribe_audio";
     ELog ERROR ("Transcription failed: Audio file not found: " +:+ audio_path);
     EReturned "transcribe_audio"
       (error_result ("Audio file not found: " +:+ audio_path))].
  split; [reflexivity|]. split; [destruct s as [[stt tr tts] w tr0]; reflexivity|].
  split; [reflexivity|]. split; [|split; reflexivity].
  simpl. rewrite <- !app_assoc. reflexivity.
Qed.

(** Without the Google synthesis client a run ends in an error and never
    reaches a synthesis back end. *)
Lemma workflow_without_google_tts audio_path target_language task_id
    (s : state World AIWorkflowService) :
  google_client (tts_service (self_obj s)) = None ->
  exists msg final evs,
    process_audio_workflow audio_path target_language task_id s
    = (Ret (error_result msg), final) /\
    trace final = trace s ++ evs /\
    forallb not_synthesis_call (calls evs) = true /\
    (msg = "Speech synthesis failed: TTS provider 'google' not available" \/
     ~ In "synthesize_speech" (awaited evs)).
Proof.
  intros Hgoogle.
  destruct (workflow_cases audio_path target_language task_id s)
    as (t & s1 & Hm1 & Hcase).
  pose proof (on_stt_frame (transcribe_audio audio_path None "base")
                (record (EAwait "transcribe_audio")
                   (record (ELog INFO ("Starting AI workflow for task "
                                       +:+ str_opt task_id)) s)))
    as [_ Htts1].
  rewrite Hm1 in Htts1. cbn [snd record self_obj] in Htts1.
  destruct (transcription_stage_trace not_synthesis_call _ _ _ _
              eq_refl (fun _ _ => eq_refl) Hm1) as (evs1 & Htr1 & Hc1 & Ha1 & _).
  destruct (t !! "error") as [err|].
  { rewrite Hcase. eexists _, _, (_ :: _ :: evs1 ++ [_]).
    split; [reflexivity|]. split.
    { AIClaims.trace_eq. }
    split.
    { simpl. rewrite calls_app, forallb_app, Hc1. reflexivity. }
    right. simpl. rewrite awaited_app, Ha1. simpl. intuition discriminate. }
  destruct Hcase as (text & u & s2 & _ & Hm2 & Hcase).
  pose proof (on_translation_frame (translate_text text target_language None)
                (record (EAwait "translate_text")
                   (record (EReturned "transcribe_audio" t) s1)))
    as [_ Htts2].
  rewrite Hm2 in Htts2. cbn [snd record self_obj] in Htts2.
  destruct (translation_stage_trace not_synthesis_call _ _ _ _ _
              eq_refl Hm2) as (evs2 & Htr2 & Hc2 & Ha2 & _).
  destruct (u !! "error") as [err|].
  { rewrite Hcase. eexists _, _, (_ :: _ :: evs1 ++ _ :: _ :: evs2 ++ [_]).
    split; [reflexivity|]. split.
    { AIClaims.trace_eq. }
    split.
    { simpl. rewrite calls_app, forallb_app, Hc1. simpl.
      rewrite calls_app, forallb_app, Hc2. reflexivity. }
    right. simpl. rewrite awaited_app, Ha1. simpl.
    rewrite awaited_app, Ha2. simpl. intuition discriminate. }
  destruct Hcase as (translated & v & s3 & _ & Hm3 & Hcase).
  unfold on_tts, on_field in Hm3.
  rewrite synthesize_unavailable_run in Hm3.
  2:{ intros _. cbn [self_obj record]. rewrite Htts2, Htts1. exact Hgoogle. }
  2:{ discriminate. }
  injection Hm3 as <- <-.
  rewrite AIClaims.error_result_has_error in Hcase.
  rewrite Hcase.
  eexists _, _, (_ :: _ :: evs1 ++ _ :: _ :: evs2 ++ [_; _; _]).
  split; [reflexivity|]. split.
  { AIClaims.trace_eq. }
  split.
  { simpl. rewrite calls_app, forallb_app, Hc1. simpl.
    rewrite calls_app, forallb_app, Hc2. reflexivity. }
  left. reflexivity.
Qed.

(** X22.  The workflow depends on the Google synthesis client and never
    falls back to Polly.  On a service without that client every run
    returns an error record and calls no synthesis back end; when the
    first two stages succeed the error is
    [Speech synthesis failed: TTS provider 'google' not available], also
    when the Polly client is configured. *)
Theorem workflow_never_falls_back_to_polly
    (audio_path target_language : string) (task_id : option string)
    (s : state World AIWorkflowService) :
  google_client (tts_service (self_obj s)) = None ->
  exists msg evs,
    fst (process_audio_workflow audio_path target_language task_id s)
    = Ret (error_result msg) /\
    trace (snd (process_audio_workflow audio_path target_language task_id s))
    = trace s ++ evs /\
    forallb not_synthesis_call (calls evs) = true /\
    (msg = "Speech synthesis failed: TTS provider 'google' not available" \/
     ~ In "synthesize_speech" (awaited evs)).
Proof.
  intros Hgoogle.
  destruct (workflow_without_google_tts audio_path target_language task_id s Hgoogle)
    as (msg & final & evs & Hrun & Htr & Hcalls & Hmsg).
  exists msg, evs. rewrite Hrun. auto.
Qed.

(** X23.  A completed workflow for a task id has written its audio to the
    path of that task: the [output_audio] of the result is
    [./processed/<task id>_translated_audio.mp3], and a write of that
    file is among the calls of the run. *)
Theorem workflow_writes_the_task_file
    (audio_path target_language : string) (task_id : option string)
    (s : state World AIWorkflowService) (d : dict) :
  fst (process_audio_workflow audio_path target_language task_id s) = Ret d ->
  d !! "status" = Some (PStr "completed") ->
  truthy_str task_id = true ->
  d !! "output_audio" = Some (PStr (workflow_audio_path (str_opt task_id))) /\
  exists evs content,
    trace (snd (process_audio_workflow audio_path target_language task_id s))
    = trace s ++ evs /\
    In (FileWrite (workflow_audio_path (str_opt task_id)) content) (calls evs).
Proof.
  intros Hd Hstatus Htask.
  destruct (workflow_cases audio_path target_language task_id s)
    as (t & s1 & Hm1 & Hcase).
  destruct (transcription_stage_trace (fun _ => true) _ _ _ _
              eq_refl (fun _ _ => eq_refl) Hm1) as (evs1 & Htr1 & _).
  destruct (t !! "error") as [err|].
  { rewrite Hcase in Hd. injection Hd as <-. discriminate. }
  destruct Hcase as (text & u & s2 & _ & Hm2 & Hcase).
  destruct (translation_stage_trace (fun _ => true) _ _ _ _ _
              eq_refl Hm2) as (evs2 & Htr2 & _).
  destruct (u !! "error") as [err|].
  { rewrite Hcase in Hd. injection Hd as <-. discriminate. }
  destruct Hcase as (translated & v & s3 & _ & Hm3 & Hcase).
  rewrite Htask in Hm3.
  destruct (v !! "error") as [err|] eqn:Herr3.
  { rewrite Hcase in Hd. injection Hd as <-. discriminate. }
  destruct Hcase as (d' & Hrun & _ & _ & Hout).
  rewrite Hrun in Hd |- *. injection Hd as ->.
  unfold on_tts, on_field in Hm3.
  destruct (synthesize_speech _ _ _ _ _ _) as [r sm] eqn:Hsyn.
  injection Hm3 as -> <-.
  apply synthesize_writes_given_path in Hsyn
    as [Haudio (pre & content & post & Htr3)]; [|reflexivity|exact Herr3].
  split; [rewrite Hout; exact Haudio|].
  cbn [trace record self_obj world] in Htr3.
  exists (ELog INFO ("Starting AI workflow for task " +:+ str_opt task_id)
          :: EAwait "transcribe_audio" :: evs1
          ++ EReturned "transcribe_audio" t :: EAwait "translate_text" :: evs2
          ++ EReturned "translate_text" u :: EAwait "synthesize_speech" :: pre
          ++ ECall (FileWrite (workflow_audio_path (str_opt task_id)) content)
          :: post ++ [EReturned "synthesize_speech" v]), content.
  split.
  - cbn [snd record trace]. rewrite Htr3, Htr2. cbn [record trace]. rewrite Htr1.
    cbn [record trace]. repeat (rewrite <- ?app_assoc; simpl). reflexivity.
  - simpl. rewrite calls_app. apply in_or_app. right. simpl.
    rewrite calls_app. apply in_or_app. right. simpl.
    rewrite calls_app. apply in_or_app. right. simpl. left. reflexivity.
Qed.

(** Without the translation client a run ends in an error after at most
    two stages and never reaches the translation or a synthesis back
    end. *)
Lemma workflow_without_translation audio_path target_language task_id
    (s : state World AIWorkflowService) :
  client (translation_service (self_obj s)) = None ->
  exists msg final evs,
    process_audio_workflow audio_path target_language task_id s
    = (Ret (error_result msg), final) /\
    trace final = trace s ++ evs /\
    forallb not_language_call (calls evs) = true /\
    ~ In "synthesize_speech" (awaited evs).
Proof.
  intros Hclient.
  destruct (workflow_cases audio_path target_language task_id s)
    as (t & s1 & Hm1 & Hcase).
  pose proof (on_stt_frame (transcribe_audio audio_path None "base")
                (record (EAwait "transcribe_audio")
                   (record (ELog INFO ("Starting AI workflow for task "
                                       +:+ str_opt task_id)) s)))
    as [Htr_service _].
  rewrite Hm1 in Htr_service. cbn [snd record self_obj] in Htr_service.
  destruct (transcription_stage_trace not_language_call _ _ _ _
              eq_refl (fun _ _ => eq_refl) Hm1) as (evs1 & Htr1 & Hc1 & Ha1 & _).
  destruct (t !! "error") as [err|].
  { rewrite Hcase. eexists _, _, (_ :: _ :: evs1 ++ [_]).
    split; [reflexivity|]. split.
    { AIClaims.trace_eq. }
    split.
    { simpl. rewrite calls_app, forallb_app, Hc1. reflexivity. }
    simpl. rewrite awaited_app, Ha1. simpl. intuition discriminate. }
  destruct Hcase as (text & u & s2 & _ & Hm2 & Hcase).
  unfold on_translation, on_field in Hm2.
  rewrite translate_without_client_run in Hm2
    by (cbn [self_obj record]; rewrite Htr_service; exact Hclient).
  injection Hm2 as <- <-.
  rewrite AIClaims.error_result_has_error in Hcase.
  rewrite Hcase. eexists _, _, (_ :: _ :: evs1 ++ [_; _; _]).
  split; [reflexivity|]. split.
  { AIClaims.trace_eq. }
  split.
  { simpl. rewrite calls_app, forallb_app, Hc1. reflexivity. }
  simpl. rewrite awaited_app, Ha1. simpl. intuition discriminate.
Qed.

End Workflow.

Section Construction.
Context {World Self : Type} `{Host World}.

Lemma translation_service_without_credentials (s : state World Self) :
  truthy_str (environ (world s) !! "GOOGLE_APPLICATION_CREDENTIALS") = false ->
  new_TranslationService s
  = (Ret {| client := None |},
     record (ELog WARNING "Google Translate credentials not found") s).
Proof.
  intros Hcred. unfold new_TranslationService, construct,
    translation_initialize_client, try_except.
  rewrite bind_run. unfold ask. cbn [world]. rewrite Hcred. reflexivity.
Qed.

Lemma tts_service_without_credentials (s : state World Self) :
  truthy_str (environ (world s) !! "GOOGLE_APPLICATION_CREDENTIALS") = false ->
  exists tts s1 evs,
    new_TextToSpeechService s = (Ret tts, s1) /\
    google_client tts = None /\
    trace s1 = trace s ++ evs /\
    forallb not_language_call (calls evs) = true.
Proof.
  intros Hcred. unfold new_TextToSpeechService, construct, _initialize_clients,
    try_except.
  rewrite bind_run. unfold ask. cbn [world]. rewrite Hcred.
  destruct (truthy_str (environ (world s) !! "AWS_ACCESS_KEY_ID")
            && truthy_str (environ (world s) !! "AWS_SECRET_ACCESS_KEY")).
  - unfold external, mbind, M_bind, mret, M_ret, get_self, set_self, log, emit, record.
    cbn [andb self_obj world trace].
    match goal with
    | |- context [new_client ?c ?w0] => destruct (new_client c w0) as [[[]|e] w]
    end.
    + eexists _, _, [_; _]. split; [reflexivity|]. split; [reflexivity|].
      simpl. rewrite <- app_assoc. split; reflexivity.
    + eexists _, _, [_; _]. split; [reflexivity|]. split; [reflexivity|].
      simpl. rewrite <- app_assoc. split; reflexivity.
  - eexists _, _, []. split; [reflexivity|]. split; [reflexivity|].
    simpl. rewrite app_nil_r. split; reflexivity.
Qed.

(** X24.  Without [GOOGLE_APPLICATION_CREDENTIALS] no workflow can
    complete.  [AIWorkflowService()] then builds a service without the
    translation client and without the Google synthesis client, whatever
    the AWS settings are; and every run of the workflow on that service,
    in whatever world, returns an error record, awaits no synthesis stage
    and calls neither the translation nor a synthesis back end. *)
Theorem workflow_needs_google_credentials
    (s0 s1 : state World Self) (service : AIWorkflowService) :
  new_AIWorkflowService s0 = (Ret service, s1) ->
  truthy_str (environ (world s0) !! "GOOGLE_APPLICATION_CREDENTIALS") = false ->
  client (translation_service service) = None /\
  google_client (tts_service service) = None /\
  forall (w : World) (t : list event) (audio_path target_language : string)
         (task_id : option string),
    exists msg evs,
      fst (process_audio_workflow audio_path target_language task_id
             (mk_state service w t)) = Ret (error_result msg) /\
      trace (snd (process_audio_workflow audio_path target_language task_id
                    (mk_state service w t))) = t ++ evs /\
      forallb not_language_call (calls evs) = true /\
      ~ In "synthesize_speech" (awaited evs).
Proof.
  intros Hnew Hcred. unfold new_AIWorkflowService in Hnew.
  rewrite bind_run, (translation_service_without_credentials s0 Hcred) in Hnew.
  rewrite bind_run in Hnew.
  destruct (tts_service_without_credentials
              (record (ELog WARNING "Google Translate credentials not found") s0)
              Hcred) as (tts & s2 & evs0 & Htts & Hgoogle & _).
  rewrite Htts, ret_run in Hnew. injection Hnew as <- <-.
  split; [reflexivity|]. split; [exact Hgoogle|].
  intros w t audio_path target_language task_id.
  destruct (workflow_without_translation audio_path target_language task_id
              (mk_state {| stt_service := new_SpeechToTextService;
                           translation_service := {| client := None |};
                           tts_service := tts |} w t) eq_refl)
    as (msg & final & evs & Hrun & Htr & Hcalls & Hawaited).
  exists msg, evs. rewrite Hrun. auto.
Qed.

End Construction.

(** The hypotheses of X18 hold for a translation service without
    credentials and a synthesis service that has the Polly client only,
    asked for the Google provider. *)
Lemma missing_client_is_an_error_witness :
  let st := Scenes.translation_offline in
  let ss := Scenes.polly_only in
  (client (self_obj st) = None /\
   ("google" = "google" -> google_client (self_obj ss) = None) /\
   ("google" = "aws" -> aws_client (self_obj ss) = None)) /\
  translate_text (PStr "hello") "hi" None st
  = (Ret (error_result "Google Translate client not available"), st) /\
  synthesize_speech (PStr "namaste") "hi" None "google" None ss
  = (Ret (error_result ("TTS provider '" +:+ "google" +:+ "' not available")), ss).
Proof.
  cbv zeta. split; [split; [reflexivity|split; [reflexivity|discriminate]]|].
  apply (missing_client_is_an_error (PStr "hello") "hi" "hi" "google" None None None
           Scenes.translation_offline Scenes.polly_only);
    [reflexivity|reflexivity|discriminate].
Defined.

(** X19 at Hindi with a requested voice, and at a language outside the
    table. *)
Lemma polly_voice_follows_the_table_witness :
  polly_voice_id "hi" (Some "Raveena") = "Raveena" /\
  polly_voice_id "ja" (Some "Raveena") = "Joanna".
Proof.
  split.
  - apply (proj1 (polly_voice_follows_the_table "hi" (Some "Raveena")));
      [right; left; reflexivity|reflexivity].
  - apply (proj2 (proj2 (polly_voice_follows_the_table "ja" (Some "Raveena")))).
    unfold polly_languages. cbn [In]. intuition discriminate.
Defined.

(** The hypotheses of X20 hold on the machine where the model cannot be
    loaded. *)
Lemma unloadable_model_is_reported_witness :
  let s := Scenes.stt_offline in
  (os_path_exists "in.wav" (world s) = true /\
   (model (self_obj s) = None \/ model_name (self_obj s) <> "base") /\
   whisper_load_model "base" (world s) = (Raise Scenes.model_unavailable, world s)) /\
  exists s' evs,
    transcribe_audio "in.wav" None "base" s
    = (Ret (error_result "Failed to load Whisper model"), s') /\
    self_obj s' = self_obj s /\
    trace s' = trace s ++ evs /\
    calls evs = [WhisperLoadModel "base"].
Proof.
  cbv zeta. split; [split; [reflexivity|split; [left; reflexivity|reflexivity]]|].
  apply (unloadable_model_is_reported "in.wav" None "base" Scenes.stt_offline
           Scenes.model_unavailable (world Scenes.stt_offline));
    [reflexivity|left; reflexivity|reflexivity].
Defined.

(** The hypothesis of X21 holds on the scripted host for a path that is
    not among its files. *)
Lemma workflow_reports_missing_file_witness :
  let s := Scenes.workflow_online in
  os_path_exists "missing.wav" (world s) = false /\
  exists s' evs,
    process_audio_workflow "missing.wav" "hi" (Some "t1") s
    = (Ret (error_result ("Transcription failed: Audio file not found: "
                          +:+ "missing.wav")), s') /\
    self_obj s' = self_obj s /\
    world s' = world s /\
    trace s' = trace s ++ evs /\
    awaited evs = ["transcribe_audio"] /\
    calls evs = [].
Proof.
  cbv zeta. split; [reflexivity|].
  apply (workflow_reports_missing_file "missing.wav" "hi" (Some "t1")
           Scenes.workflow_online).
  reflexivity.
Defined.

(** The hypothesis of X22 holds for a service that has the translation
    client and the Polly client, and no Google synthesis client. *)
Lemma workflow_never_falls_back_to_polly_witness :
  let s := Scenes.workflow_polly_only in
  google_client (tts_service (self_obj s)) = None /\
  exists msg evs,
    fst (process_audio_workflow "in.wav" "hi" (Some "t1") s)
    = Ret (error_result msg) /\
    trace (snd (process_audio_workflow "in.wav" "hi" (Some "t1") s))
    = trace s ++ evs /\
    forallb not_synthesis_call (calls evs) = true /\
    (msg = "Speech synthesis failed: TTS provider 'google' not available" \/
     ~ In "synthesize_speech" (awaited evs)).
Proof.
  cbv zeta. split; [reflexivity|].
  apply (workflow_never_falls_back_to_polly "in.wav" "hi" (Some "t1")
           Scenes.workflow_polly_only).
  reflexivity.
Defined.

(** The hypotheses of X23 hold on the scripted host with every client
    configured. *)
Lemma workflow_writes_the_task_file_witness :
  let s := Scenes.workflow_online in
  let d := Scenes.workflow_result in
  (fst (process_audio_workflow "in.wav" "hi" (Some "t1") s) = Ret d /\
   d !! "status" = Some (PStr "completed") /\
   truthy_str (Some "t1") = true) /\
  d !! "output_audio" = Some (PStr (workflow_audio_path (str_opt (Some "t1")))) /\
  exists evs content,
    trace (snd (process_audio_workflow "in.wav" "hi" (Some "t1") s))
    = trace s ++ evs /\
    In (FileWrite (workflow_audio_path (str_opt (Some "t1"))) content) (calls evs).
Proof.
  cbv zeta. split; [repeat split; vm_compute; reflexivity|].
  apply (workflow_writes_the_task_file "in.wav" "hi" (Some "t1")
           Scenes.workflow_online Scenes.workflow_result);
    vm_compute; reflexivity.
Defined.

(** The hypotheses of X24 hold on the scripted host, whose environment is
    empty. *)
Lemma workflow_needs_google_credentials_witness :
  let s0 : state Demo.demo_world unit := Demo.start tt Demo.studio in
  let s1 := snd (new_AIWorkflowService s0) in
  let service := Scenes.studio_workflow_service in
  (new_AIWorkflowService s0 = (Ret service, s1) /\
   truthy_str (environ (world s0) !! "GOOGLE_APPLICATION_CREDENTIALS") = false) /\
  client (translation_service service) = None /\
  google_client (tts_service service) = None /\
  forall (w : Demo.demo_world) (t : list event)
         (audio_path target_language : string) (task_id : option string),
    exists msg evs,
      fst (process_audio_workflow audio_path target_language task_id
             (mk_state service w t)) = Ret (error_result msg) /\
      trace (snd (process_audio_workflow audio_path target_language task_id
                    (mk_state service w t))) = t ++ evs /\
      forallb not_language_call (calls evs) = true /\
      ~ In "synthesize_speech" (awaited evs).
Proof.
  cbv zeta. split; [split; vm_compute; reflexivity|].
  apply (workflow_needs_google_credentials
           (Demo.start tt Demo.studio)
           (snd (new_AIWorkflowService (Demo.start tt Demo.studio)))
           Scenes.studio_workflow_service);
    vm_compute; reflexivity.
Defined.

End AIProps.

(* ===================================================================== *)
(** * The storage endpoints *)
(* ===================================================================== *)

Module ApiProps.
Import Storage Api.

Section Endpoints.
Context {World : Type} `{Host World}.
Variable http_exception_str : HTTPException -> string.
Variable path_name : string -> string.

Lemma guarded_checked (label : string) (code : nat)
    (operation : M World StorageManager dict) (s : state World StorageManager) :
  match fst (guarded http_exception_str label (checked code operation) s) with
  | Returns d => dict_has d "error" = false /\ fst (operation s) = Ret d
  | Raises (Http h) => status_code h = 500
  | Raises (Python _) => False
  end.
Proof.
  unfold guarded, checked.
  destruct (operation s) as [[result|e] s1]; cbn [fst]; [|reflexivity].
  destruct (dict_has result "error") eqn:Herror; [|cbn [fst]; auto].
  destruct (dict_item result "error"); reflexivity.
Qed.

Lemma guarded_checked_served (label : string) (code : nat)
    (operation : M World StorageManager dict) (s : state World StorageManager) :
  result_or_500 (fst (guarded http_exception_str label (checked code operation) s)).
Proof.
  pose proof (guarded_checked label code operation s) as Hcase.
  unfold result_or_500.
  destruct (fst (guarded _ _ _ s)) as [d|[e|h]]; [apply Hcase|exact Hcase|exact Hcase].
Qed.

(** X25.  The storage endpoints answer every failure with status 500.
    Whatever the manager does, [upload_to_storage], [get_download_url],
    [delete_from_storage] and [list_storage_files] either return a result
    without an [error] entry or raise an [HTTPException] of status 500:
    the 404 that [get_download_url] raises for an error result is caught
    by its own [except Exception] and never leaves the endpoint. *)
Theorem storage_endpoints_fail_with_500
    (file_path remote_key prefix : string) (given_key : option string)
    (metadata : option dict) (expiration : Z) (s : state World StorageManager) :
  result_or_500
    (fst (upload_to_storage http_exception_str path_name file_path given_key
            metadata s)) /\
  result_or_500 (fst (get_download_url http_exception_str remote_key expiration s)) /\
  result_or_500 (fst (delete_from_storage http_exception_str remote_key s)) /\
  result_or_500 (fst (list_storage_files http_exception_str prefix s)).
Proof.
  split; [apply guarded_checked_served|].
  split; [apply guarded_checked_served|].
  split; [apply guarded_checked_served|].
  unfold list_storage_files, guarded.
  pose proof (guarded_checked_served "Storage list error" 500 (list_files prefix) s)
    as Hserved.
  unfold guarded in Hserved.
  destruct (checked 500 (list_files prefix) s) as [[result|e] s1];
    cbn [fst] in *; [|reflexivity].
  unfold result_or_500, dict_has in *.
  rewrite lookup_insert_ne by discriminate. exact Hserved.
Qed.

(** X26.  A download of a missing file is answered with 500, not 404.  On
    the local backend, for a key without a file, [get_download_url] raises
    an [HTTPException] of status 500 whose detail is the text of the 404
    exception it raised for [File not found], and logs that text as an
    error. *)
Theorem missing_download_is_answered_with_500
    (remote_key : string) (expiration : Z) (s : state World StorageManager) :
  primary_service (self_obj s) = TheLocalService ->
  os_path_exists
    (os_path_join (storage_dir (local_service (self_obj s))) remote_key)
    (world s) = false ->
  let not_found :=
    http_exception_str
      {| status_code := 404; detail := PStr "File not found" |} in
  get_download_url http_exception_str remote_key expiration s =
    (Raises (Http {| status_code := 500; detail := PStr not_found |}),
     record (ELog ERROR ("Download URL error: " +:+ not_found)) s).
Proof.
  intros Hlocal Hmissing not_found.
  assert (generate_signed_url remote_key expiration s
          = (Ret (error_result "File not found"), s)) as Hrun.
  { unfold generate_signed_url, on_primary.
    rewrite bind_run. cbn [get_self]. rewrite Hlocal.
    unfold on_local, on_field, local_generate_signed_url, try_except.
    rewrite !bind_run. cbn [get_self self_obj world trace].
    rewrite !bind_run. unfold path_exists, ask.
    cbn [self_obj world trace]. rewrite Hmissing. cbn.
    destruct s as [[r2 local_ primary] w t]. reflexivity. }
  unfold get_download_url, guarded, checked. rewrite Hrun.
  reflexivity.
Qed.

End Endpoints.

(** The hypotheses of X26 hold on the scripted host for a key that has no
    file, with the text Starlette gives an [HTTPException]. *)
Lemma missing_download_is_answered_with_500_witness :
  get_download_url ApiScenes.starlette_str "audio/missing.mp3" 3600
    ApiScenes.managed_studio =
    (Raises (Http {| status_code := 500;
                     detail := PStr "404: File not found" |}),
     record (ELog ERROR "Download URL error: 404: File not found")
       ApiScenes.managed_studio).
Proof.
  apply (missing_download_is_answered_with_500 ApiScenes.starlette_str
           "audio/missing.mp3" 3600 ApiScenes.managed_studio);
    vm_compute; reflexivity.
Defined.

End ApiProps.

(* ===================================================================== *)
(** * Runs on the scripted host *)
(* ===================================================================== *)

Module Examples.
Import Demo.

(** Normalise, an unknown entry, change speed: two steps, chained. *)
Example studio_steps :
  steps (trace (snd (Audio.process_audio "in.wav" "t1"
                       ["normalize_audio"; "bogus"; "change_speed"] None
                       audio_studio)))
  = [EInvoke "normalize_audio" "in.wav" "./processed/t1_normalize_audio_0.wav";
     EOutcome "normalize_audio" (Ret "./processed/t1_normalize_audio_0.wav");
     EInvoke "change_speed" "./processed/t1_normalize_audio_0.wav"
       "./processed/t1_change_speed_2.wav";
     EOutcome "change_speed" (Ret "./processed/t1_change_speed_2.wav")].
Proof. vm_compute. reflexivity. Qed.

Example studio_warnings :
  warnings (trace (snd (Audio.process_audio "in.wav" "t1"
                          ["normalize_audio"; "bogus"; "change_speed"] None
                          audio_studio)))
  = ["Unknown operation: bogus"].
Proof. vm_compute. reflexivity. Qed.

Example studio_result :
  exists d,
    fst (Audio.process_audio "in.wav" "t1"
           ["normalize_audio"; "bogus"; "change_speed"] None audio_studio)
    = Ret d /\
    d !! "status" = Some (PStr "completed") /\
    d !! "output_path" = Some (PStr "./processed/t1_change_speed_2.wav").
Proof. eexists. repeat split; vm_compute; reflexivity. Qed.

(** SoX exits with an error: the frequency filters run instead and the
    job completes. *)
Example failing_sox_falls_back :
  ffmpeg_runs (trace (snd (Audio.process_audio "in.wav" "t1" ["noise_reduction"]
                             None audio_failing_sox)))
  = [Audio._fallback_noise_reduction_cmd "in.wav"
       "./processed/t1_noise_reduction_0.wav"] /\
  exists d,
    fst (Audio.process_audio "in.wav" "t1" ["noise_reduction"] None
           audio_failing_sox) = Ret d /\
    d !! "status" = Some (PStr "completed").
Proof. split; [|eexists; split]; vm_compute; reflexivity. Qed.

(** SoX exits with an error and FFmpeg fails too: the job fails with the
    message of the fallback, and the second operation is never awaited. *)
Example both_methods_fail :
  let s := start {| Audio.output_dir := "./processed" |}
             (with_failures 1 studio_without_sox) in
  let run := Audio.process_audio "in.wav" "t1"
               ["noise_reduction"; "normalize_audio"] None s in
  fst run = Ret (failed_result "t1" (exn_msg ffmpeg_failed)) /\
  invoked (trace (snd run)) = ["noise_reduction"].
Proof. split; vm_compute; reflexivity. Qed.

(** SoX is not installed: no fallback, the job fails. *)
Example missing_sox_fails_job :
  let run := Audio.process_audio "in.wav" "t1" ["noise_reduction"] None
               audio_missing_sox in
  fst run = Ret (failed_result "t1" (exn_msg sox_not_installed)) /\
  ffmpeg_runs (trace (snd run)) = [].
Proof. split; vm_compute; reflexivity. Qed.

(** Without a subtitle file, [add_subtitles] hands its input on. *)
Example subtitles_skipped :
  steps (trace (snd (Video.process_video "in.wav" "t1" ["add_subtitles"] None
                       video_studio)))
  = [EInvoke "add_subtitles" "in.wav" "./processed/t1_add_subtitles_0.mp4";
     EOutcome "add_subtitles" (Ret "in.wav")].
Proof. vm_compute. reflexivity. Qed.

(** Without credentials the manager is local. *)
Example no_credentials_is_local :
  exists m s1,
    Storage.new_StorageManager (start tt studio) = (Ret m, s1) /\
    Storage.get_storage_type m = "local" /\
    Storage.primary_service m = Storage.TheLocalService.
Proof. eexists _, _. repeat split; vm_compute; reflexivity. Qed.

(** A workflow without a translation client stops after two stages. *)
Example workflow_without_translation_client :
  let s := start {| AI.stt_service := AI.new_SpeechToTextService;
                    AI.translation_service := {| AI.client := None |};
                    AI.tts_service := {| AI.google_client := Some GoogleTTS;
                                         AI.aws_client := None |} |} studio in
  let run := AI.process_audio_workflow "in.wav" "hi" (Some "t1") s in
  fst run
  = Ret (error_result "Translation failed: Google Translate client not available") /\
  awaited (trace (snd run)) = ["transcribe_audio"; "translate_text"].
Proof. split; vm_compute; reflexivity. Qed.

(** With every client configured it runs the three stages. *)
Example workflow_completes :
  let s := start {| AI.stt_service := AI.new_SpeechToTextService;
                    AI.translation_service := {| AI.client := Some GoogleTranslate |};
                    AI.tts_service := {| AI.google_client := Some GoogleTTS;
                                         AI.aws_client := None |} |} studio in
  let run := AI.process_audio_workflow "in.wav" "hi" (Some "t1") s in
  awaited (trace (snd run))
  = ["transcribe_audio"; "translate_text"; "synthesize_speech"] /\
  exists d,
    fst run = Ret d /\
    d !! "status" = Some (PStr "completed") /\
    d !! "output_audio" = Some (PStr "./processed/t1_translated_audio.mp3") /\
    d !! "translated_text" = Some (PStr "namaste duniya").
Proof. split; [|eexists; repeat split]; vm_compute; reflexivity. Qed.

(** String helpers on the values the sources give them. *)
Example noise_profile_path :
  str_replace "./processed/t1_noise_reduction_0.wav" ".wav" "_noise.prof"
  = "./processed/t1_noise_reduction_0_noise.prof".
Proof. reflexivity. Qed.

Example join_relative : os_path_join "./processed" "a.wav" = "./processed/a.wav".
Proof. reflexivity. Qed.

Example join_absolute : os_path_join "./processed" "/tmp/a.wav" = "/tmp/a.wav".
Proof. reflexivity. Qed.

Example strip_text : strip "  hello world " = "hello world".
Proof. reflexivity. Qed.

(** [bytes.decode()] accepts ASCII and well-formed sequences, and rejects
    an overlong encoding, a surrogate and a code point past U+10FFFF. *)
Example utf8_two_bytes : utf8_valid (bytes_of [99; 97; 102; 195; 169]) = true.
Proof. reflexivity. Qed.

Example utf8_overlong : utf8_valid (bytes_of [192; 128]) = false.
Proof. reflexivity. Qed.

Example utf8_surrogate : utf8_valid (bytes_of [237; 160; 128]) = false.
Proof. reflexivity. Qed.

Example utf8_too_large : utf8_valid (bytes_of [244; 144; 128; 128]) = false.
Proof. reflexivity. Qed.

Example utf8_truncated : utf8_valid (bytes_of [226; 130]) = false.
Proof. reflexivity. Qed.

(** Two segments are cut in order and then concatenated in that order. *)
Example two_segments_in_order :
  let params : dict :=
    {[ "segments" :=
         PList [PDict {[ "start" := PInt 0; "duration" := PInt 5 ]};
                PDict {[ "start" := PInt 10; "duration" := PInt 5 ]}] ]} in
  ffmpeg_runs (trace (snd (Audio._extract_segments "in.wav" "out.wav" params
                             audio_studio)))
  = [ff_out (ff_input "in.wav" [("ss", PInt 0); ("t", PInt 5)])
       "out_segment_0.wav" [];
     ff_out (ff_input "in.wav" [("ss", PInt 10); ("t", PInt 5)])
       "out_segment_1.wav" [];
     ff_out (ff_concat [ff_input "out_segment_0.wav" [];
                        ff_input "out_segment_1.wav" []]
               [("v", PInt 0); ("a", PInt 1)])
       "out.wav" []].
Proof. vm_compute. reflexivity. Qed.

End Examples.
